(** * Threshold estimation for 2AFC trial data

    A shallow embedding of [Assets/PythonScripts/psychophysical_analysis.py]:
    the aggregation of trials into per-intensity levels, the interpolated
    threshold ([simple_threshold_estimate]), the parametric fit
    ([fit_psychophysical_curve]) and the per-dataset driver
    ([analyze_dataset]); then the marker sizes of the figure, the reading of
    session file names and the choice of files ([parse_filename_datetime],
    [load_and_process_data]), and the colour map of [Assets/PythonScripts/plot.py]
    ([create_color_map]).

    Numbers.  The script computes on binary64 values; here a finite number is
    an exact rational ([Q]) and the decimal literals of the script ([0.707],
    [0.1], [0.5], ...) are the rationals they denote.  [np.nan] is a separate
    constructor.  Rounding, overflow and signed zeros are outside the model,
    and intensities are finite (the loader drops the rows whose [cmpPx] is
    missing).  The interpolated threshold is embedded a second time with the
    rounding of binary64 ([binary64]), where rounding decides a property.

    Library code.  [numpy]'s and [scipy]'s transcendental functions are taken
    as parameters ([SciPy]); the optimizer [curve_fit] is an external call that
    the program issues at most once ([Prog]).  [int] and [os.path.basename]
    are parameters of the loader ([loader.Builtins]). *)

From Stdlib Require Import String.
From Stdlib Require Import List Bool ZArith QArith Qminmax Qabs.
From Stdlib Require Import Lia Lqa Sorted.
Import ListNotations.

Local Open Scope Q_scope.

(** ** Numbers and exceptions *)

(** A NumPy scalar as the script uses it: a finite value or [np.nan]. *)
Inductive float : Type :=
| Num (q : Q)
| NaN.

(** The Python exceptions that the modelled lines can raise. *)
Inductive exn : Type :=
| IndexError
| ValueError
| TypeError
| RuntimeError.

(** A computation that returns or raises. *)
Inductive res (A : Type) : Type :=
| Ok (a : A)
| Raise (e : exn).

Arguments Ok {A} a.
Arguments Raise {A} e.

Definition bind {A B : Type} (m : res A) (k : A -> res B) : res B :=
  match m with
  | Ok a => k a
  | Raise e => Raise e
  end.

Notation "x <- m ;; k" := (bind m (fun x => k))
  (at level 61, m at next level, right associativity).
Notation "' p <- m ;; k" := (bind m (fun x => match x with p => k end))
  (at level 61, p pattern, m at next level, right associativity).

(** [a < b] and [a >= b] on finite values, as booleans. *)
Definition Qlt_bool (a b : Q) : bool := negb (Qle_bool b a).
Definition Qge_bool (a b : Q) : bool := Qle_bool b a.

(** ** NumPy array operations *)

Module np.

(** Insertion of [v] into an ascending list without repetition. *)
Fixpoint insert_unique (v : Q) (l : list Q) : list Q :=
  match l with
  | [] => [v]
  | h :: t =>
      match v ?= h with
      | Lt => v :: h :: t
      | Eq => h :: t
      | Gt => h :: insert_unique v t
      end
  end.

(** [np.unique(a)]: the distinct values of [a], ascending. *)
Definition unique (a : list Q) : list Q :=
  fold_left (fun acc v => insert_unique v acc) a [].

Fixpoint insert (v : Q) (l : list Q) : list Q :=
  match l with
  | [] => [v]
  | h :: t => if Qle_bool v h then v :: h :: t else h :: insert v t
  end.

(** [np.sort(a)]: the values of [a], ascending. *)
Definition sort (a : list Q) : list Q := fold_right insert [] a.

(** [a == v], element by element. *)
Definition eq_mask (a : list Q) (v : Q) : list bool :=
  map (fun w => Qeq_bool w v) a.

(** [np.sum] of a boolean array: the number of [True] entries. *)
Definition sum (m : list bool) : Z :=
  fold_left (fun (acc : Z) (b : bool) => if b then (acc + 1)%Z else acc) m 0%Z.

Fixpoint select {A : Type} (a : list A) (mask : list bool) : list A :=
  match a, mask with
  | v :: a', true :: mask' => v :: select a' mask'
  | _ :: a', false :: mask' => select a' mask'
  | _, _ => []
  end.

(** [a[mask]] for a boolean [mask]: NumPy raises [IndexError] unless the two
    arrays have the same length. *)
Definition index_mask {A : Type} (a : list A) (mask : list bool) : res (list A) :=
  if Nat.eqb (length a) (length mask) then Ok (select a mask)
  else Raise IndexError.

(** [a[i]]. *)
Definition item {A : Type} (a : list A) (i : nat) : res A :=
  match nth_error a i with
  | Some v => Ok v
  | None => Raise IndexError
  end.

(** [np.min(a)] and [np.max(a)]: [ValueError] on an empty array. *)
Definition min (a : list Q) : res Q :=
  match a with
  | [] => Raise ValueError
  | h :: t => Ok (fold_left Qmin t h)
  end.

Definition max (a : list Q) : res Q :=
  match a with
  | [] => Raise ValueError
  | h :: t => Ok (fold_left Qmax t h)
  end.

Definition any (m : list bool) : bool := existsb (fun b => b) m.
Definition all (m : list bool) : bool := forallb (fun b => b) m.

(** [np.where(m)[0][0]]: the index of the first [True]; indexing the empty
    result raises [IndexError]. *)
Fixpoint first_true (m : list bool) : res nat :=
  match m with
  | [] => Raise IndexError
  | true :: _ => Ok O
  | false :: m' => i <- first_true m' ;; Ok (S i)
  end.

(** [np.sum] of a numeric array. *)
Definition sumQ (a : list Q) : Q := fold_left Qplus a 0.

(** [np.mean]: [nan] on an empty array (with a warning, not an exception). *)
Definition mean (a : list Q) : float :=
  match a with
  | [] => NaN
  | _ => Num (sumQ a / inject_Z (Z.of_nat (length a)))
  end.

(** [np.mean] of a boolean array. *)
Definition mean_bool (a : list bool) : float :=
  match a with
  | [] => NaN
  | _ => Num (inject_Z (sum a) / inject_Z (Z.of_nat (length a)))
  end.

End np.

(** ** Aggregation into levels *)

(** The three arrays that both functions build in lock step. *)
Definition Levels : Type := (list Q * list Q * list Z)%type.

(** A loop over an array whose body may raise. *)
Fixpoint for_each {A S : Type} (body : S -> A -> res S) (l : list A) (s : S) : res S :=
  match l with
  | [] => Ok s
  | a :: l' => s' <- body s a ;; for_each body l' s'
  end.

Module simple.

(** Lines 252-261: the body of the loop of [simple_threshold_estimate]. *)
Definition level_body (cmpPx_values : list Q) (correct_responses : list bool)
    (acc : Levels) (cmpPx : Q) : res Levels :=
  let '(x_data, y_data, n_trials) := acc in
  let mask := np.eq_mask cmpPx_values cmpPx in
  let trials_at_level := np.sum mask in
  if (2 <=? trials_at_level)%Z then
    selected <- np.index_mask correct_responses mask ;;
    let correct_at_level := np.sum selected in
    let prop_correct := inject_Z correct_at_level / inject_Z trials_at_level in
    Ok (x_data ++ [cmpPx], y_data ++ [prop_correct], n_trials ++ [trials_at_level])
  else Ok acc.

(** Lines 244-265. *)
Definition levels (cmpPx_values : list Q) (correct_responses : list bool) : res Levels :=
  let unique_cmpPx := np.sort (np.unique cmpPx_values) in
  for_each (level_body cmpPx_values correct_responses) unique_cmpPx ([], [], []).

End simple.

(** The branch of lines 274-299 that produced the threshold. *)
Inductive Branch : Type :=
| AllAbove
| AllBelow
| FirstLevel
| Linear
| Midpoint.

(** Lines 270-299: the threshold from the level arrays, with the branch
    taken.  The arithmetic is exact; [binary64.threshold_branch] is the same
    lines with the rounding of the script, under which the interpolation can
    leave the bracket. *)
Definition threshold_branch (x_data y_data : list Q) (target_performance : Q)
    : res (Branch * Q) :=
  let below_target := map (fun y => Qlt_bool y target_performance) y_data in
  let above_target := map (fun y => Qge_bool y target_performance) y_data in
  if negb (np.any below_target) || negb (np.any above_target) then
    if np.all (map (fun y => Qge_bool y target_performance) y_data) then
      m <- np.min x_data ;;
      Ok (AllAbove, m - m * (1 # 10))
    else
      m <- np.max x_data ;;
      Ok (AllBelow, m + m * (1 # 10))
  else
    transition_idx <- np.first_true above_target ;;
    match transition_idx with
    | O => x0 <- np.item x_data 0 ;; Ok (FirstLevel, x0)
    | S prev =>
        x1 <- np.item x_data prev ;;
        y1 <- np.item y_data prev ;;
        x2 <- np.item x_data transition_idx ;;
        y2 <- np.item y_data transition_idx ;;
        if negb (Qeq_bool y2 y1) then
          Ok (Linear, x1 + (target_performance - y1) * (x2 - x1) / (y2 - y1))
        else
          Ok (Midpoint, (x1 + x2) / 2)
    end.

(** Lines 267-299. *)
Definition threshold_of_levels (x_data y_data : list Q) (target_performance : Q)
    : res float :=
  if Nat.ltb (length x_data) 3 then Ok NaN
  else '(_, threshold) <- threshold_branch x_data y_data target_performance ;;
       Ok (Num threshold).

(** The default of the keyword argument [target_performance]. *)
Definition default_target : Q := 707 # 1000.

(** [simple_threshold_estimate(cmpPx_values, correct_responses,
    target_performance)]: the threshold and the three level arrays. *)
Definition simple_threshold_estimate (cmpPx_values : list Q)
    (correct_responses : list bool) (target_performance : Q)
    : res (float * list Q * list Q * list Z) :=
  '(x_data, y_data, n_trials) <- simple.levels cmpPx_values correct_responses ;;
  threshold <- threshold_of_levels x_data y_data target_performance ;;
  Ok (threshold, x_data, y_data, n_trials).

(** ** The parametric fit *)

(** The functions of [numpy] and [scipy.stats] that the fit evaluates. *)
Record SciPy : Type := {
  np_exp : Q -> Q;
  np_log : Q -> Q;
  np_sqrt : Q -> Q;
  (** [norm.cdf(x, mu, sigma)] and [norm.ppf(q, mu, sigma)]: [nan] outside
      their domain. *)
  norm_cdf : Q -> Q -> Q -> float;
  norm_ppf : Q -> Q -> Q -> float
}.

(** The model function handed to [curve_fit]: [logistic_function] or
    [cumulative_normal]. *)
Inductive Model : Type :=
| LogisticModel
| NormalModel.

Definition Pcov : Type := list (list Q).

(** One call [curve_fit(f, xdata, ydata, p0=..., bounds=..., sigma=...,
    absolute_sigma=False, maxfev=...)]. *)
Record CurveFitArgs : Type := {
  cf_f : Model;
  cf_xdata : list Q;
  cf_ydata : list Q;
  cf_p0 : list Q;
  cf_bounds : option (list Q * list Q);
  cf_sigma : list Q;
  cf_maxfev : option Z
}.

(** What [curve_fit] answers: [(popt, pcov)], or an exception. *)
Definition Response : Type := res (list Q * Pcov).

(** A program that may call the optimizer. *)
Inductive Prog (A : Type) : Type :=
| Return (a : A)
| CurveFit (args : CurveFitArgs) (k : Response -> Prog A).

Arguments Return {A} a.
Arguments CurveFit {A} args k.

Fixpoint pbind {A B : Type} (m : Prog A) (k : A -> Prog B) : Prog B :=
  match m with
  | Return a => k a
  | CurveFit args k' => CurveFit args (fun r => pbind (k' r) k)
  end.

(** Running a program against an optimizer. *)
Fixpoint run {A : Type} (curve_fit : CurveFitArgs -> Response) (m : Prog A) : A :=
  match m with
  | Return a => a
  | CurveFit args k => run curve_fit (k (curve_fit args))
  end.

(** The optimizer calls that a run makes, in order. *)
Fixpoint calls {A : Type} (curve_fit : CurveFitArgs -> Response) (m : Prog A)
    : list CurveFitArgs :=
  match m with
  | Return _ => []
  | CurveFit args k => args :: calls curve_fit (k (curve_fit args))
  end.

(** The successful return value of [fit_psychophysical_curve]. *)
Record Fit : Type := {
  popt : list Q;
  pcov : Pcov;
  r_squared : float;
  threshold_707 : float;
  x_data : list Q;
  y_data : list Q;
  n_trials : list Z
}.

(** What [fit_psychophysical_curve] returns: the tuple of seven [None], the
    tuple of a fit, or (falling off the end of the function) [None]. *)
Inductive FitReturn : Type :=
| AllNone
| Fitted (r : Fit)
| NoValue.

(** [try: ... except Exception: return None, None, None, None, None, None,
    None] (lines 162 and 235-237). *)
Definition try_except (m : res FitReturn) : FitReturn :=
  match m with
  | Ok r => r
  | Raise _ => AllNone
  end.

Module fit.

(** Lines 143-152: the body of the loop of [fit_psychophysical_curve]. *)
Definition level_body (cmpPx_values : list Q) (correct_responses : list bool)
    (acc : Levels) (cmpPx : Q) : res Levels :=
  let '(x_data, y_data, n_trials) := acc in
  let mask := np.eq_mask cmpPx_values cmpPx in
  let trials_at_level := np.sum mask in
  if (2 <=? trials_at_level)%Z then
    selected <- np.index_mask correct_responses mask ;;
    let correct_at_level := np.sum selected in
    let prop_correct := inject_Z correct_at_level / inject_Z trials_at_level in
    Ok (x_data ++ [cmpPx], y_data ++ [prop_correct], n_trials ++ [trials_at_level])
  else Ok acc.

(** Lines 138-156. *)
Definition levels (unique_cmpPx cmpPx_values : list Q) (correct_responses : list bool)
    : res Levels :=
  for_each (level_body cmpPx_values correct_responses) unique_cmpPx ([], [], []).

End fit.

Section Fitting.

Context (lib : SciPy).

(** [np.sum((y_data - y_pred) ** 2)], [nan] as soon as a prediction is. *)
Fixpoint sum_sq_res (y_data : list Q) (y_pred : list float) : float :=
  match y_data, y_pred with
  | y :: ys, Num p :: ps =>
      match sum_sq_res ys ps with
      | Num s => Num ((y - p) ^ 2 + s)
      | NaN => NaN
      end
  | _ :: _, NaN :: _ => NaN
  | _, _ => Num 0
  end.

(** Lines 198-200 and 226-228.  The mean and the sums are exact.  In binary64
    the mean of equal proportions need not be that proportion, so [ss_tot] can
    be positive on flat data, where it is 0 here. *)
Definition compute_r_squared (y_data : list Q) (y_pred : list float) : float :=
  let ss_res := sum_sq_res y_data y_pred in
  let y_mean := np.sumQ y_data / inject_Z (Z.of_nat (length y_data)) in
  let ss_tot := np.sumQ (map (fun y => (y - y_mean) ^ 2) y_data) in
  if Qlt_bool 0 ss_tot then
    match ss_res with
    | Num s => Num (1 - s / ss_tot)
    | NaN => NaN
    end
  else Num 0.

(** Line 115. *)
Definition logistic_function (x a b c d : Q) : Q :=
  a + (d - a) / (1 + np_exp lib (- b * (x - c))).

(** Line 124. *)
Definition cumulative_normal (x mu sigma : Q) : float :=
  norm_cdf lib x mu sigma.

(** [logistic_function(x_data, *popt)]: a [TypeError] unless [popt] supplies
    the four parameters. *)
Definition logistic_predict (x_data popt : list Q) : res (list float) :=
  match popt with
  | [a; b; c; d] => Ok (map (fun x => Num (logistic_function x a b c d)) x_data)
  | _ => Raise TypeError
  end.

(** [a, b, c, d = popt]: a [ValueError] unless there are four values. *)
Definition unpack4 (popt : list Q) : res (Q * Q * Q * Q) :=
  match popt with
  | [a; b; c; d] => Ok (a, b, c, d)
  | _ => Raise ValueError
  end.

(** Lines 170-174: the first intensity whose proportion reaches 0.7. *)
Fixpoint threshold_guess (x_data y_data : list Q) (x_mid : Q) : Q :=
  match x_data, y_data with
  | x :: xs, perf :: ys =>
      if Qge_bool perf (7 # 10) then x else threshold_guess xs ys x_mid
  | _, _ => x_mid
  end.

(** Line 189. *)
Definition logistic_weights (y_data : list Q) (n_trials : list Z) : list Q :=
  map (fun '(y, n) => np_sqrt lib (inject_Z n) * (1 - Qabs (y - (1 # 2)) * (1 # 2)))
      (combine y_data n_trials).

(** Lines 165-194: the arguments of the logistic call to [curve_fit]. *)
Definition logistic_call (x_data y_data : list Q) (n_trials : list Z)
    : res CurveFitArgs :=
  x_max <- np.max x_data ;;
  x_min <- np.min x_data ;;
  let x_range := x_max - x_min in
  let x_mid := x_min + x_range * (1 # 2) in
  let guess := threshold_guess x_data y_data x_mid in
  max_perf <- np.max y_data ;;
  min_perf <- np.min y_data ;;
  let slope_guess := 4 / x_range in
  let p0 := [min_perf; slope_guess; guess; max_perf] in
  let bounds := ([4 # 10; 1 # 1000; x_min; min_perf],
                 [6 # 10; 100 / x_range; x_max; 1]) in
  let weights := logistic_weights y_data n_trials in
  Ok {| cf_f := LogisticModel; cf_xdata := x_data; cf_ydata := y_data;
        cf_p0 := p0; cf_bounds := Some bounds;
        cf_sigma := map (fun w => 1 / w) weights; cf_maxfev := Some 5000%Z |}.

(** Lines 203-212: the threshold of a fitted logistic curve. *)
Definition logistic_threshold (a b c d : Q) (x_data : list Q) : res float :=
  let target_performance := 707 # 1000 in
  if Qlt_bool a target_performance && Qlt_bool target_performance d && Qlt_bool 0 b then
    let threshold := c - np_log lib ((d - a) / (target_performance - a) - 1) / b in
    x_min <- np.min x_data ;;
    if Qlt_bool threshold x_min then Ok NaN
    else
      x_max <- np.max x_data ;;
      if Qlt_bool x_max threshold then Ok NaN else Ok (Num threshold)
  else Ok NaN.

(** Lines 196-214: what follows the logistic call. *)
Definition logistic_result (x_data y_data : list Q) (n_trials : list Z)
    (answer : Response) : res FitReturn :=
  '(popt, pcov) <- answer ;;
  y_pred <- logistic_predict x_data popt ;;
  let r_squared := compute_r_squared y_data y_pred in
  '(a, b, c, d) <- unpack4 popt ;;
  threshold_707 <- logistic_threshold a b c d x_data ;;
  Ok (Fitted {| popt := popt; pcov := pcov; r_squared := r_squared;
                threshold_707 := threshold_707; x_data := x_data;
                y_data := y_data; n_trials := n_trials |}).

(** [np.median]. *)
Definition median (a : list Q) : float :=
  let s := np.sort a in
  let n := length s in
  match n with
  | O => NaN
  | _ =>
      if Nat.even n
      then Num ((nth (n / 2 - 1) s 0 + nth (n / 2) s 0) / 2)
      else Num (nth (n / 2) s 0)
  end.

(** [np.std]. *)
Definition std (a : list Q) : float :=
  match np.mean a with
  | Num m => Num (np_sqrt lib (np.sumQ (map (fun x => (x - m) ^ 2) a)
                                 / inject_Z (Z.of_nat (length a))))
  | NaN => NaN
  end.

(** Lines 218-222: the arguments of the cumulative-normal call.  The level
    arrays are not empty here, so both initial guesses are finite. *)
Definition normal_call (x_data y_data : list Q) (n_trials : list Z)
    : res CurveFitArgs :=
  match median x_data, std x_data with
  | Num med, Num sd =>
      Ok {| cf_f := NormalModel; cf_xdata := x_data; cf_ydata := y_data;
            cf_p0 := [med; sd]; cf_bounds := None;
            cf_sigma := map (fun n => 1 / np_sqrt lib (inject_Z n)) n_trials;
            cf_maxfev := None |}
  | _, _ => Raise ValueError
  end.

(** [cumulative_normal(x_data, *popt)]. *)
Definition normal_predict (x_data popt : list Q) : res (list float) :=
  match popt with
  | [mu; sigma] => Ok (map (fun x => cumulative_normal x mu sigma) x_data)
  | _ => Raise TypeError
  end.

(** Lines 224-233: what follows the cumulative-normal call. *)
Definition normal_result (x_data y_data : list Q) (n_trials : list Z)
    (answer : Response) : res FitReturn :=
  '(popt, pcov) <- answer ;;
  y_pred <- normal_predict x_data popt ;;
  let r_squared := compute_r_squared y_data y_pred in
  mu <- np.item popt 0 ;;
  sigma <- np.item popt 1 ;;
  let threshold_707 := norm_ppf lib (707 # 1000) mu sigma in
  Ok (Fitted {| popt := popt; pcov := pcov; r_squared := r_squared;
                threshold_707 := threshold_707; x_data := x_data;
                y_data := y_data; n_trials := n_trials |}).

(** Lines 162-237: the [try] block.  An exception raised before the call is
    caught like one raised by it or after it. *)
Definition try_block (x_data y_data : list Q) (n_trials : list Z)
    (method : string) : Prog FitReturn :=
  if String.eqb method "logistic"%string then
    match logistic_call x_data y_data n_trials with
    | Ok args =>
        CurveFit args (fun answer =>
          Return (try_except (logistic_result x_data y_data n_trials answer)))
    | Raise _ => Return AllNone
    end
  else if String.eqb method "cumulative_normal"%string then
    match normal_call x_data y_data n_trials with
    | Ok args =>
        CurveFit args (fun answer =>
          Return (try_except (normal_result x_data y_data n_trials answer)))
    | Raise _ => Return AllNone
    end
  else Return NoValue.

(** [fit_psychophysical_curve(cmpPx_values, correct_responses, method)].  The
    loop over the levels runs outside the [try] block, so an exception in it
    reaches the caller. *)
Definition fit_psychophysical_curve (cmpPx_values : list Q)
    (correct_responses : list bool) (method : string)
    : Prog (res FitReturn) :=
  let unique_cmpPx := np.sort (np.unique cmpPx_values) in
  if Nat.ltb (length unique_cmpPx) 4 then Return (Ok AllNone)
  else
    match fit.levels unique_cmpPx cmpPx_values correct_responses with
    | Raise e => Return (Raise e)
    | Ok (x_data, y_data, n_trials) =>
        if Nat.ltb (length x_data) 4 then Return (Ok AllNone)
        else pbind (try_block x_data y_data n_trials method)
                   (fun r => Return (Ok r))
    end.

End Fitting.

(** ** The per-dataset driver *)

(** A row of a session's table, restricted to the two columns that the
    analysis reads. *)
Record Trial : Type := {
  cmpPx : Q;
  correct : bool
}.

(** The value of [parse_filename_datetime]. *)
Record datetime : Type := {
  year : Z; month : Z; day : Z; hour : Z; minute : Z; second : Z
}.

(** An entry of [dataset_data]: [info['data']] and [info['datetime']]. *)
Record Session : Type := {
  data : list Trial;
  session_datetime : datetime
}.

(** An entry of [session_info]. *)
Record SessionInfo : Type := {
  si_filename : string;
  si_datetime : datetime;
  si_trials : nat;
  si_accuracy : float
}.

(** The dictionary that [analyze_dataset] returns.  [None] is [None]. *)
Record AnalysisResult : Type := {
  ar_dataset : string;
  ar_n_trials : nat;
  ar_overall_accuracy : float;
  ar_stimulus_range : Q * Q;
  ar_simple_threshold : float;
  ar_fit_params : option (list Q);
  ar_r_squared : option float;
  ar_threshold_707 : float;
  ar_x_data : list Q;
  ar_y_data : list Q;
  ar_n_trials_per_level : list Z;
  ar_session_info : list SessionInfo;
  ar_method : string
}.

(** Lines 308-324: the merged columns and the per-session metadata. *)
Definition all_cmpPx (dataset_data : list (string * Session)) : list Q :=
  flat_map (fun '(_, info) => map cmpPx (data info)) dataset_data.

Definition all_correct (dataset_data : list (string * Session)) : list bool :=
  flat_map (fun '(_, info) => map correct (data info)) dataset_data.

Definition session_info (dataset_data : list (string * Session)) : list SessionInfo :=
  map (fun '(filename, info) =>
         {| si_filename := filename;
            si_datetime := session_datetime info;
            si_trials := length (data info);
            si_accuracy := np.mean_bool (map correct (data info)) |})
      dataset_data.

Section Analysis.

Context (lib : SciPy).

(** Lines 343-351: the parameters that the report of a fit reads. *)
Definition report_params (r : Fit) (method : string) : res unit :=
  if String.eqb method "logistic"%string then
    _ <- np.item (popt r) 0 ;; _ <- np.item (popt r) 1 ;;
    _ <- np.item (popt r) 2 ;; _ <- np.item (popt r) 3 ;; Ok tt
  else if String.eqb method "cumulative_normal"%string then
    _ <- np.item (popt r) 0 ;; _ <- np.item (popt r) 1 ;; Ok tt
  else Ok tt.

(** Lines 337-384: the dictionary built from the value of the fit.
    Subscripting the [None] of a function that fell off its end is a
    [TypeError]. *)
Definition package (dataset_name : string) (dataset_data : list (string * Session))
    (method : string) (lo hi : Q) (simple_threshold : float)
    (x_simple y_simple : list Q) (n_simple : list Z) (fit_result : FitReturn)
    : res AnalysisResult :=
  let cmpPx_values := all_cmpPx dataset_data in
  let correct_responses := all_correct dataset_data in
  match fit_result with
  | NoValue => Raise TypeError
  | Fitted r =>
      _ <- report_params r method ;;
      Ok {| ar_dataset := dataset_name;
            ar_n_trials := length cmpPx_values;
            ar_overall_accuracy := np.mean_bool correct_responses;
            ar_stimulus_range := (lo, hi);
            ar_simple_threshold := simple_threshold;
            ar_fit_params := Some (popt r);
            ar_r_squared := Some (r_squared r);
            ar_threshold_707 := threshold_707 r;
            ar_x_data := x_data r;
            ar_y_data := y_data r;
            ar_n_trials_per_level := n_trials r;
            ar_session_info := session_info dataset_data;
            ar_method := method |}
  | AllNone =>
      Ok {| ar_dataset := dataset_name;
            ar_n_trials := length cmpPx_values;
            ar_overall_accuracy := np.mean_bool correct_responses;
            ar_stimulus_range := (lo, hi);
            ar_simple_threshold := simple_threshold;
            ar_fit_params := None;
            ar_r_squared := None;
            ar_threshold_707 := NaN;
            ar_x_data := x_simple;
            ar_y_data := y_simple;
            ar_n_trials_per_level := n_simple;
            ar_session_info := session_info dataset_data;
            ar_method := method |}
  end.

(** [analyze_dataset(dataset_name, dataset_data, method)].  Line 328 takes
    [np.min] and [np.max] of the merged intensities before anything else is
    computed. *)
Definition analyze_dataset (dataset_name : string)
    (dataset_data : list (string * Session)) (method : string)
    : Prog (res AnalysisResult) :=
  let cmpPx_values := all_cmpPx dataset_data in
  let correct_responses := all_correct dataset_data in
  match
    (lo <- np.min cmpPx_values ;;
     hi <- np.max cmpPx_values ;;
     simple <- simple_threshold_estimate cmpPx_values correct_responses default_target ;;
     Ok (lo, hi, simple))
  with
  | Raise e => Return (Raise e)
  | Ok (lo, hi, (simple_threshold, x_simple, y_simple, n_simple)) =>
      pbind (fit_psychophysical_curve lib cmpPx_values correct_responses method)
        (fun fit_result =>
           Return (r <- fit_result ;;
                   package dataset_name dataset_data method lo hi
                     simple_threshold x_simple y_simple n_simple r))
  end.

End Analysis.

(** ** The figure *)

(** [np.min] and [np.max] of an array of integers. *)
Definition int_min (a : list Z) : res Z :=
  match a with
  | [] => Raise ValueError
  | h :: t => Ok (fold_left Z.min t h)
  end.

Definition int_max (a : list Z) : res Z :=
  match a with
  | [] => Raise ValueError
  | h :: t => Ok (fold_left Z.max t h)
  end.

(** Line 422 of [plot_psychophysical_curves]: the marker size of each
    level, from its number of trials. *)
Definition marker_sizes (n_trials : list Z) : res (list Q) :=
  lowest <- int_min n_trials ;;
  highest <- int_max n_trials ;;
  Ok (map (fun n => 50 + inject_Z (n - lowest)
                        / inject_Z (highest - lowest + 1) * 150)
          n_trials).

(** ** The loader

    [parse_filename_datetime] and the selection of the session files in
    [load_and_process_data] (the same text in [psychophysical_analysis.py]
    and in [plot.py]).  A file name is a string of characters below 256.
    Reading the files is outside the model. *)

Module loader.

Import Ascii.

(** The exceptions of these lines: [int] and [datetime] raise [ValueError],
    and [datetime] raises [OverflowError] on an argument beyond a C [int]. *)
Inductive exn : Type :=
| ValueError
| OverflowError.

Inductive result (A : Type) : Type :=
| Done (a : A)
| Throw (e : exn).

Arguments Done {A} a.
Arguments Throw {A} e.

Definition and_then {A B : Type} (m : result A) (k : A -> result B) : result B :=
  match m with
  | Done a => k a
  | Throw e => Throw e
  end.

(** The builtins applied to file names: [int] on a string, where [None] is
    the [ValueError] that it raises, and [os.path.basename] of the platform. *)
Record Builtins : Type := {
  py_int : string -> option Z;
  basename : string -> string
}.

(** [s.split(sep)] for a separator of one character. *)
Fixpoint split (sep : ascii) (s : string) : list string :=
  match s with
  | EmptyString => [EmptyString]
  | String c s' =>
      if Ascii.eqb c sep then EmptyString :: split sep s'
      else match split sep s' with
           | part :: parts => String c part :: parts
           | [] => [String c EmptyString]
           end
  end.

(** [s[a:b]] for non-negative [a] and [b]. *)
Definition slice (a b : nat) (s : string) : string := substring a (b - a) s.

(** [int(s)]. *)
Definition int (b : Builtins) (s : string) : result Z :=
  match py_int b s with
  | Some v => Done v
  | None => Throw ValueError
  end.

Definition is_leap (y : Z) : bool :=
  ((y mod 4 =? 0) && (negb (y mod 100 =? 0) || (y mod 400 =? 0)))%Z.

Definition days_in_month (y m : Z) : Z :=
  if ((m =? 2) && is_leap y)%Z then 29%Z
  else nth (Z.to_nat m)
         [0; 31; 28; 31; 30; 31; 30; 31; 31; 30; 31; 30; 31]%Z 0%Z.

Definition c_int (v : Z) : bool := ((- 2147483648 <=? v) && (v <=? 2147483647))%Z.

Definition in_range (lo v hi : Z) : bool := ((lo <=? v) && (v <=? hi))%Z.

(** The fields of a [datetime] that the constructor accepts. *)
Definition valid_fields (y m d h mi s : Z) : bool :=
  in_range 1 y 9999 && in_range 1 m 12 && in_range 1 d (days_in_month y m)
  && in_range 0 h 23 && in_range 0 mi 59 && in_range 0 s 59.

(** [datetime(year, month, day, hour, minute, second)]. *)
Definition make_datetime (y m d h mi s : Z) : result datetime :=
  if negb (c_int y && c_int m && c_int d && c_int h && c_int mi && c_int s)
  then Throw OverflowError
  else if valid_fields y m d h mi s
  then Done {| year := y; month := m; day := d;
               hour := h; minute := mi; second := s |}
  else Throw ValueError.

(** Lines 19-35. *)
Definition parse_filename_datetime (b : Builtins) (filename : string)
    : result (option datetime) :=
  let parts := split "_"%char (basename b filename) in
  if (4 <=? length parts)%nat then
    let date_str := nth 2 parts EmptyString in
    let time_str := nth 0 (split "."%char (nth 3 parts EmptyString)) EmptyString in
    and_then (int b (slice 0 4 date_str)) (fun year =>
    and_then (int b (slice 4 6 date_str)) (fun month =>
    and_then (int b (slice 6 8 date_str)) (fun day =>
    and_then (int b (slice 0 2 time_str)) (fun hour =>
    and_then (int b (slice 2 4 time_str)) (fun minute =>
    and_then (int b (slice 4 6 time_str)) (fun second =>
    and_then (make_datetime year month day hour minute second) (fun d =>
    Done (Some d))))))))
  else Done None.

(** The comparison of two sequences of integers, first difference first. *)
Fixpoint lex_compare (a b : list Z) : comparison :=
  match a, b with
  | [], [] => Eq
  | [], _ :: _ => Lt
  | _ :: _, [] => Gt
  | x :: a', y :: b' =>
      match (x ?= y)%Z with
      | Eq => lex_compare a' b'
      | c => c
      end
  end.

Definition fields (d : datetime) : list Z :=
  [year d; month d; day d; hour d; minute d; second d].

(** [a < b] on [datetime] values. *)
Definition datetime_ltb (a b : datetime) : bool :=
  match lex_compare (fields a) (fields b) with
  | Lt => true
  | _ => false
  end.

(** Lines 55-59: the files whose name gives a time stamp. *)
Fixpoint file_info (b : Builtins) (csv_files : list string)
    : result (list (string * datetime)) :=
  match csv_files with
  | [] => Done []
  | file :: rest =>
      and_then (parse_filename_datetime b file) (fun file_datetime =>
      and_then (file_info b rest) (fun infos =>
      match file_datetime with
      | Some d => Done ((file, d) :: infos)
      | None => Done infos
      end))
  end.

Fixpoint insert_newest (e : string * datetime) (l : list (string * datetime))
    : list (string * datetime) :=
  match l with
  | [] => [e]
  | h :: t =>
      if datetime_ltb (snd e) (snd h) then h :: insert_newest e t
      else e :: h :: t
  end.

(** Line 62: [file_info.sort(key=lambda x: x[1], reverse=True)], a stable
    sort. *)
Definition sort_newest_first (l : list (string * datetime))
    : list (string * datetime) :=
  fold_right insert_newest [] l.

(** Lines 51-64: the session files of a directory listing
    [glob.glob("*.csv")], newest first, cut to [num_recent] when that is a
    positive number. *)
Definition select_files (b : Builtins) (glob_csv : list string)
    (num_recent : option Z) : result (list (string * datetime)) :=
  let csv_files := filter (String.prefix "2AFC_P_"%string) glob_csv in
  and_then (file_info b csv_files) (fun infos =>
  let sorted := sort_newest_first infos in
  match num_recent with
  | Some k =>
      if (negb (k =? 0) && (0 <? k))%Z then Done (firstn (Z.to_nat k) sorted)
      else Done sorted
  | None => Done sorted
  end).

End loader.

(** ** The colour map of [plot.py] *)

Module plot.

(** An RGB colour. *)
Definition color : Type := (Q * Q * Q)%type.

(** A dictionary with string keys, in insertion order. *)
Definition dict (V : Type) : Type := list (string * V).

Fixpoint dict_get {V : Type} (k : string) (d : dict V) : option V :=
  match d with
  | [] => None
  | (k', v) :: d' => if String.eqb k' k then Some v else dict_get k d'
  end.

(** [d[k] = v]: an existing key keeps its place. *)
Fixpoint dict_set {V : Type} (k : string) (v : V) (d : dict V) : dict V :=
  match d with
  | [] => [(k, v)]
  | (k', v') :: d' =>
      if String.eqb k' k then (k', v) :: d' else (k', v') :: dict_set k v d'
  end.

(** [date.toordinal()]: the days before the year, the days before the month
    (the table [_DAYS_BEFORE_MONTH], one more after February of a leap year)
    and the day. *)
Definition days_before_year (y : Z) : Z :=
  let y1 := (y - 1)%Z in (y1 * 365 + y1 / 4 - y1 / 100 + y1 / 400)%Z.

Definition days_before_month (y m : Z) : Z :=
  (nth (Z.to_nat m)
       [-1; 0; 31; 59; 90; 120; 151; 181; 212; 243; 273; 304; 334]%Z 0
   + (if (2 <? m) && loader.is_leap y then 1 else 0))%Z.

Definition toordinal (d : datetime) : Z :=
  (days_before_year (year d) + days_before_month (year d) (month d) + day d)%Z.

(** [(a - b).total_seconds()]. *)
Definition total_seconds (a b : datetime) : Z :=
  ((toordinal a - toordinal b) * 86400
   + (hour a * 3600 + minute a * 60 + second a
      - (hour b * 3600 + minute b * 60 + second b)))%Z.

(** [a == b] on [datetime] values. *)
Definition datetime_eqb (a b : datetime) : bool :=
  match loader.lex_compare (loader.fields a) (loader.fields b) with
  | Eq => true
  | _ => false
  end.

(** [min(datetimes)] and [max(datetimes)]: the first least and the first
    greatest entry; [ValueError] on an empty list. *)
Definition min_time (datetimes : list datetime) : res datetime :=
  match datetimes with
  | [] => Raise ValueError
  | h :: t =>
      Ok (fold_left (fun m x => if loader.datetime_ltb x m then x else m) t h)
  end.

Definition max_time (datetimes : list datetime) : res datetime :=
  match datetimes with
  | [] => Raise ValueError
  | h :: t =>
      Ok (fold_left (fun m x => if loader.datetime_ltb m x then x else m) t h)
  end.

(** Lines 130-138: the colour of a file of a dataset with several files. *)
Definition gradient (base_color : color) (min_time max_time : datetime)
    (file_time : datetime) : color :=
  let time_ratio :=
    if datetime_eqb max_time min_time then 1 # 2
    else inject_Z (total_seconds file_time min_time)
         / inject_Z (total_seconds max_time min_time) in
  let intensity := (4 # 10) + (6 # 10) * time_ratio in
  let '(r, g, b) := base_color in
  (r * intensity, g * intensity, b * intensity).

(** Lines 119-138: the assignments to [colors] for one dataset, in order. *)
Definition file_colors (base_color : color) (dataset_data : dict datetime)
    : res (list (string * color)) :=
  if Nat.eqb (length dataset_data) 1 then
    Ok (match dataset_data with
        | (filename, _) :: _ => [(filename, base_color)]
        | [] => []
        end)
  else
    lowest <- min_time (map snd dataset_data) ;;
    highest <- max_time (map snd dataset_data) ;;
    Ok (map (fun '(filename, file_time) =>
               (filename, gradient base_color lowest highest file_time))
            dataset_data).

(** Lines 106-110: the predefined colours. *)
Definition predefined : dict (color * string) :=
  [("bricks004"%string, ((2 # 10, 4 # 10, 8 # 10), "Bricks004"%string));
   ("bricks101"%string, ((8 # 10, 2 # 10, 2 # 10), "Bricks101"%string));
   ("rock062"%string, ((2 # 10, 7 # 10, 2 # 10), "Rock062"%string))].

(** Lines 112-138: one round of the loop over [all_data].  The lookup of
    line 117 finds the entry of [dataset_colors], which line 114 has made
    where there was none. *)
Definition color_dataset (state : dict color * dict (color * string))
    (entry : string * dict datetime)
    : res (dict color * dict (color * string)) :=
  let '(colors, dataset_colors) := state in
  let '(dataset_name, dataset_data) := entry in
  let '(dataset_colors, base_color) :=
    match dict_get dataset_name dataset_colors with
    | Some (base, _) => (dataset_colors, base)
    | None =>
        (dict_set dataset_name ((1 # 2, 1 # 2, 1 # 2), dataset_name)
                  dataset_colors,
         (1 # 2, 1 # 2, 1 # 2))
    end in
  assignments <- file_colors base_color dataset_data ;;
  Ok (fold_left (fun colors '(filename, c) => dict_set filename c colors)
                assignments colors,
      dataset_colors).

(** [create_color_map(all_data)], where an entry of a dataset is a file name
    with the [datetime] of its session. *)
Definition create_color_map (all_data : dict (dict datetime))
    : res (dict color * dict (color * string)) :=
  for_each color_dataset all_data ([], predefined).

End plot.

(** ** The interpolated threshold in binary64

    Lines 244-299 once more, with the arithmetic of the script: every
    operation returns the binary64 number nearest to the exact result, ties to
    even.  A binary64 number is the rational it denotes, so the comparisons
    are those of [Q]; overflow and the sign of zero are outside the model. *)

From Stdlib Require Import Qround Qpower.

Module binary64.

Definition pow2 (e : Z) : Q := 2 ^ e.

(** The integer [k] with [2^k <= q < 2^(k+1)], for a positive [q]. *)
Definition ilog2 (q : Q) : Z :=
  let k := (Z.log2 (Qnum q) - Z.log2 (Zpos (Qden q)))%Z in
  match Qcompare q (pow2 k) with
  | Lt => (k - 1)%Z
  | _ => k
  end.

(** The nearest integer, ties to even. *)
Definition rne (s : Q) : Z :=
  let f := Qfloor s in
  match Qcompare (s - inject_Z f) (1 # 2) with
  | Lt => f
  | Gt => (f + 1)%Z
  | Eq => if Z.even f then f else (f + 1)%Z
  end.

(** The exponent of the last place of a positive number: 53 significant
    bits, and no exponent below that of the subnormal numbers. *)
Definition exponent (q : Q) : Z := Z.max (ilog2 q - 52) (- 1074).

Definition round_pos (q : Q) : Q :=
  let e := exponent q in
  inject_Z (rne (q * pow2 (- e))) * pow2 e.

(** The binary64 number nearest to [q]. *)
Definition round (q : Q) : Q :=
  match Qcompare q 0 with
  | Eq => 0
  | Gt => round_pos q
  | Lt => - round_pos (- q)
  end.

Definition representable (q : Q) : Prop := round q == q.

Definition add (a b : Q) : Q := round (a + b).
Definition sub (a b : Q) : Q := round (a - b).
Definition mul (a b : Q) : Q := round (a * b).
Definition div (a b : Q) : Q := round (a / b).

(** The value of the decimal literal [n/d] of the script. *)
Definition literal (n : Z) (d : positive) : Q := round (n # d).

(** Lines 252-261: the body of the loop of [simple_threshold_estimate]. *)
Definition level_body (cmpPx_values : list Q) (correct_responses : list bool)
    (acc : Levels) (cmpPx : Q) : res Levels :=
  let '(x_data, y_data, n_trials) := acc in
  let mask := np.eq_mask cmpPx_values cmpPx in
  let trials_at_level := np.sum mask in
  if (2 <=? trials_at_level)%Z then
    selected <- np.index_mask correct_responses mask ;;
    let correct_at_level := np.sum selected in
    let prop_correct := div (inject_Z correct_at_level) (inject_Z trials_at_level) in
    Ok (x_data ++ [cmpPx], y_data ++ [prop_correct], n_trials ++ [trials_at_level])
  else Ok acc.

(** Lines 244-265. *)
Definition levels (cmpPx_values : list Q) (correct_responses : list bool) : res Levels :=
  let unique_cmpPx := np.sort (np.unique cmpPx_values) in
  for_each (level_body cmpPx_values correct_responses) unique_cmpPx ([], [], []).

(** Lines 270-299. *)
Definition threshold_branch (x_data y_data : list Q) (target_performance : Q)
    : res (Branch * Q) :=
  let below_target := map (fun y => Qlt_bool y target_performance) y_data in
  let above_target := map (fun y => Qge_bool y target_performance) y_data in
  if negb (np.any below_target) || negb (np.any above_target) then
    if np.all (map (fun y => Qge_bool y target_performance) y_data) then
      m <- np.min x_data ;;
      Ok (AllAbove, sub m (mul m (literal 1 10)))
    else
      m <- np.max x_data ;;
      Ok (AllBelow, add m (mul m (literal 1 10)))
  else
    transition_idx <- np.first_true above_target ;;
    match transition_idx with
    | O => x0 <- np.item x_data 0 ;; Ok (FirstLevel, x0)
    | S prev =>
        x1 <- np.item x_data prev ;;
        y1 <- np.item y_data prev ;;
        x2 <- np.item x_data transition_idx ;;
        y2 <- np.item y_data transition_idx ;;
        if negb (Qeq_bool y2 y1) then
          Ok (Linear,
              add x1 (div (mul (sub target_performance y1) (sub x2 x1))
                          (sub y2 y1)))
        else
          Ok (Midpoint, div (add x1 x2) 2)
    end.

(** Lines 267-299. *)
Definition threshold_of_levels (x_data y_data : list Q) (target_performance : Q)
    : res float :=
  if Nat.ltb (length x_data) 3 then Ok NaN
  else '(_, threshold) <- threshold_branch x_data y_data target_performance ;;
       Ok (Num threshold).

(** The default [0.707] of the keyword argument [target_performance]. *)
Definition default_target : Q := literal 707 1000.

(** [simple_threshold_estimate(cmpPx_values, correct_responses,
    target_performance)]. *)
Definition simple_threshold_estimate (cmpPx_values : list Q)
    (correct_responses : list bool) (target_performance : Q)
    : res (float * list Q * list Q * list Z) :=
  '(x_data, y_data, n_trials) <- levels cmpPx_values correct_responses ;;
  threshold <- threshold_of_levels x_data y_data target_performance ;;
  Ok (threshold, x_data, y_data, n_trials).

End binary64.

(** * Vocabulary of the statements *)

(** The number of trials at intensity [v], and the number of correct ones,
    counted on the trial table itself. *)
Definition trial_count (cmpPx_values : list Q) (v : Q) : Z :=
  Z.of_nat (length (filter (fun w => Qeq_bool w v) cmpPx_values)).

Definition correct_count (cmpPx_values : list Q) (correct_responses : list bool)
    (v : Q) : Z :=
  Z.of_nat (length (filter (fun '(w, c) => Qeq_bool w v && c)
                           (combine cmpPx_values correct_responses))).

(** The trials at intensity [v]. *)
Definition trials_at (trials : list Trial) (v : Q) : list Trial :=
  filter (fun t => Qeq_bool (cmpPx t) v) trials.

(** A level is kept when it has at least two trials. *)
Definition qualifies (cmpPx_values : list Q) (v : Q) : bool :=
  (2 <=? trial_count cmpPx_values v)%Z.

(** The proportion of correct trials among those at intensity [v]. *)
Definition proportion (cmpPx_values : list Q) (correct_responses : list bool)
    (v : Q) : Q :=
  inject_Z (correct_count cmpPx_values correct_responses v)
  / inject_Z (trial_count cmpPx_values v).

(** [m] is the least, respectively the greatest, entry of [a]. *)
Definition least (m : Q) (a : list Q) : Prop := In m a /\ Forall (fun v => m <= v) a.
Definition greatest (m : Q) (a : list Q) : Prop := In m a /\ Forall (fun v => v <= m) a.

(** [i] is the index of the first level whose proportion reaches [target]. *)
Definition first_at_or_above (y : list Q) (target : Q) (i : nat) : Prop :=
  (exists yi, nth_error y i = Some yi /\ target <= yi)
  /\ forall j yj, (j < i)%nat -> nth_error y j = Some yj -> yj < target.

(** What each branch of lines 274-299 computes, and when it is taken. *)
Definition branch_spec (x y : list Q) (target : Q) (b : Branch) (th : Q) : Prop :=
  match b with
  | AllAbove =>
      Forall (fun v => target <= v) y
      /\ exists m, np.min x = Ok m /\ th = m - m * (1 # 10)
  | AllBelow =>
      Forall (fun v => v < target) y
      /\ exists m, np.max x = Ok m /\ th = m + m * (1 # 10)
  | FirstLevel =>
      first_at_or_above y target 0 /\ nth_error x 0 = Some th
  | Linear =>
      exists p x1 y1 x2 y2,
        first_at_or_above y target (S p)
        /\ nth_error x p = Some x1 /\ nth_error y p = Some y1
        /\ nth_error x (S p) = Some x2 /\ nth_error y (S p) = Some y2
        /\ y1 < target /\ target <= y2
        /\ th = x1 + (target - y1) * (x2 - x1) / (y2 - y1)
  | Midpoint => False
  end.


(** The initial guess of a call lies within the bounds of the call,
    component by component. *)
Definition feasible (args : CurveFitArgs) : Prop :=
  match cf_bounds args with
  | Some (lower, upper) =>
      Forall2 Qle lower (cf_p0 args) /\ Forall2 Qle (cf_p0 args) upper
  | None => True
  end.

(** The method names that [fit_psychophysical_curve] knows. *)
Definition known_method (method : string) : Prop :=
  method = "logistic"%string \/ method = "cumulative_normal"%string.

(** ** Vocabulary for the loader *)

Module naming.

Import Ascii.

(** The character of a decimal digit. *)
Definition digit_char (d : Z) : ascii := ascii_of_nat (48 + Z.to_nat d).

(** The decimal digits of [n], padded with zeros to [width] characters. *)
Fixpoint zero_pad (width : nat) (n : Z) : string :=
  match width with
  | O => EmptyString
  | S w => (zero_pad w (n / 10) ++ String (digit_char (n mod 10)) EmptyString)%string
  end.

(** A session file name as the docstring of [parse_filename_datetime] shows
    it, [2AFC_P_20251020_003915.csv]: two parts without underscore, the date,
    the time, and anything after it. *)
Definition session_name (part0 part1 : string) (d : datetime) (rest : string)
    : string :=
  (part0 ++ "_" ++ part1 ++ "_"
   ++ zero_pad 4 (year d) ++ zero_pad 2 (month d) ++ zero_pad 2 (day d) ++ "_"
   ++ zero_pad 2 (hour d) ++ zero_pad 2 (minute d) ++ zero_pad 2 (second d)
   ++ rest)%string.

(** The number of occurrences of a character. *)
Fixpoint count_char (c : ascii) (s : string) : nat :=
  match s with
  | EmptyString => O
  | String c' s' => (if Ascii.eqb c' c then 1 else 0) + count_char c s'
  end.

(** A calendar time that the [datetime] constructor accepts. *)
Definition valid_datetime (d : datetime) : Prop :=
  loader.valid_fields (year d) (month d) (day d) (hour d) (minute d) (second d)
  = true.

(** [int] reads the decimal digits of a number, leading zeros included. *)
Definition reads_decimals (b : loader.Builtins) : Prop :=
  forall width n,
    (0 < width)%nat -> (0 <= n < 10 ^ Z.of_nat width)%Z ->
    loader.py_int b (zero_pad width n) = Some n.

(** [a] is not older than [b]. *)
Definition not_older (a b : string * datetime) : Prop :=
  loader.datetime_ltb (snd a) (snd b) = false.

(** An [int] that reads unsigned decimal numbers and nothing else, and the
    base name of a name without directory: stand-ins to evaluate the loader
    on examples. *)
Definition digit_value (c : ascii) : option Z :=
  let n := nat_of_ascii c in
  if ((48 <=? n) && (n <=? 57))%nat then Some (Z.of_nat (n - 48)) else None.

Fixpoint decimal_digits (s : string) (acc : Z) : option Z :=
  match s with
  | EmptyString => Some acc
  | String c s' =>
      match digit_value c with
      | Some d => decimal_digits s' (acc * 10 + d)
      | None => None
      end
  end.

Definition decimal_int (s : string) : option Z :=
  match s with
  | EmptyString => None
  | _ => decimal_digits s 0
  end.

Definition example_builtins : loader.Builtins :=
  {| loader.py_int := decimal_int; loader.basename := fun s => s |}.

End naming.

(** ** Vocabulary for the colour map *)

Module palette.

(** The colour [c] at intensity [i]. *)
Definition scaled (c : plot.color) (i : Q) : plot.color :=
  let '(r, g, b) := c in (r * i, g * i, b * i).

Definition grey : plot.color := (1 # 2, 1 # 2, 1 # 2).

(** The base colour of a dataset: its predefined colour, or grey. *)
Definition base_of (dataset_name : string) : plot.color :=
  match plot.dict_get dataset_name plot.predefined with
  | Some (base, _) => base
  | None => grey
  end.

(** The entry of [dataset_colors] for a dataset: the predefined one, or grey
    under the name of the dataset. *)
Definition legend_of (dataset_name : string) : plot.color * string :=
  match plot.dict_get dataset_name plot.predefined with
  | Some entry => entry
  | None => (grey, dataset_name)
  end.

(** Session [a] was recorded before session [b]. *)
Definition older (a b : datetime) : Prop := loader.datetime_ltb a b = true.

(** The keys of a dictionary. *)
Definition keys {V : Type} (d : plot.dict V) : list string := map fst d.

End palette.

(** * Example inputs *)

(** The intensities and the proportions of the five levels (400, 0.5),
    (450, 0.6), (500, 0.75), (550, 0.9), (600, 0.95).  Lines 267-299 do not
    read the trial counts. *)
Definition scenario_x : list Q := [400; 450; 500; 550; 600].
Definition scenario_y : list Q := [5 # 10; 6 # 10; 75 # 100; 9 # 10; 95 # 100].

(** A trial table with the proportions of the scenario: [k] correct trials
    out of [n] at intensity [v]. *)
Definition block (v : Q) (k n : nat) : list Q * list bool :=
  (repeat v n, repeat true k ++ repeat false (n - k)).

(** Twenty trials per level: 0.75 of ten trials is not a whole number of
    correct answers. *)
Definition scenario_table : list Q * list bool :=
  let blocks := [block 400 10 20; block 450 12 20; block 500 15 20;
                 block 550 18 20; block 600 19 20] in
  (flat_map fst blocks, flat_map snd blocks).

(** Stand-ins for the library functions and for the optimizer, to evaluate
    the model on examples. *)
Definition example_lib : SciPy :=
  {| np_exp := fun _ => 1;
     np_log := fun _ => 0;
     np_sqrt := fun v => v;
     norm_cdf := fun _ _ _ => Num (1 # 2);
     norm_ppf := fun _ mu _ => Num mu |}.

(** A trial table whose third level has the proportion 707/1000, which is
    the default target: two trials at 0, four at 1 and a thousand at 7. *)
Definition rounding_cmpPx : list Q := [0; 0; 1; 1; 1; 1] ++ repeat 7 1000.
Definition rounding_correct : list bool :=
  [false; false; true; false; false; false]
  ++ repeat true 707 ++ repeat false 293.

(** Five levels of two trials each. *)
Definition example_cmpPx : list Q := [1; 1; 2; 2; 3; 3; 4; 4; 5; 5].
Definition example_correct : list bool :=
  [true; false; true; true; true; true; true; false; true; true].

(** The logistic call that the fit makes on [example_cmpPx] and
    [example_correct]. *)
Definition example_logistic_args : CurveFitArgs :=
  {| cf_f := LogisticModel; cf_xdata := [1; 2; 3; 4; 5];
     cf_ydata := [1 # 2; 2 # 2; 2 # 2; 1 # 2; 2 # 2];
     cf_p0 := [1 # 2; 4 / (5 - 1); 2; 2 # 2];
     cf_bounds := Some ([4 # 10; 1 # 1000; 1; 1 # 2],
                        [6 # 10; 100 / (5 - 1); 5; 1]);
     cf_sigma := map (fun w => 1 / w)
                   (logistic_weights example_lib
                      [1 # 2; 2 # 2; 2 # 2; 1 # 2; 2 # 2]
                      [2%Z; 2%Z; 2%Z; 2%Z; 2%Z]);
     cf_maxfev := Some 5000%Z |}.

(** An optimizer that answers every call with the same parameters. *)
Definition answer_with (popt : list Q) : CurveFitArgs -> Response :=
  fun _ => Ok (popt, []).

(** An optimizer that does not converge. *)
Definition no_convergence : CurveFitArgs -> Response :=
  fun _ => Raise RuntimeError.

(** The time stamp of [2AFC_P_20251020_003915.csv]. *)
Definition example_datetime : datetime :=
  {| year := 2025; month := 10; day := 20; hour := 0; minute := 39; second := 15 |}.

(** One session holding the trials of [example_cmpPx] and
    [example_correct]. *)
Definition example_dataset : list (string * Session) :=
  [("2AFC_P_20251020_003915.csv"%string,
    {| data := map (fun '(v, c) => {| cmpPx := v; correct := c |})
                   (combine example_cmpPx example_correct);
       session_datetime := example_datetime |})].

(** One session of three trials at three different intensities. *)
Definition singles_dataset : list (string * Session) :=
  [("2AFC_P_20251020_003915.csv"%string,
    {| data := [{| cmpPx := 1; correct := true |};
                {| cmpPx := 2; correct := false |};
                {| cmpPx := 3; correct := true |}];
       session_datetime := example_datetime |})].

(** Three sessions of one dataset, and a second dataset with a file of the
    same name as one of them. *)
Definition example_times : plot.dict datetime :=
  [("2AFC_P_20251020_003915.csv"%string, example_datetime);
   ("2AFC_P_20251019_235959.csv"%string,
    {| year := 2025; month := 10; day := 19;
       hour := 23; minute := 59; second := 59 |});
   ("2AFC_P_20251021_101500.csv"%string,
    {| year := 2025; month := 10; day := 21;
       hour := 10; minute := 15; second := 0 |})].

Definition example_all_data : plot.dict (plot.dict datetime) :=
  [("bricks004"%string, example_times);
   ("gravel"%string,
    [("2AFC_P_20251020_003915.csv"%string, example_datetime)])].

(** * Properties *)

(** ** Comparisons and the error monad *)

Lemma Qlt_bool_iff (a b : Q) : Qlt_bool a b = true <-> a < b.
Proof.
  unfold Qlt_bool. rewrite negb_true_iff. split.
  - intros H. apply Qnot_le_lt. intros Hle.
    apply Qle_bool_iff in Hle. congruence.
  - intros H. destruct (Qle_bool b a) eqn:E; [|reflexivity].
    apply Qle_bool_iff in E. exfalso. exact (Qlt_not_le _ _ H E).
Qed.

Lemma Qge_bool_iff (a b : Q) : Qge_bool a b = true <-> b <= a.
Proof. unfold Qge_bool. apply Qle_bool_iff. Qed.

Lemma Qge_bool_false (a b : Q) : Qge_bool a b = false <-> a < b.
Proof.
  rewrite <- Qlt_bool_iff. unfold Qlt_bool, Qge_bool.
  destruct (Qle_bool b a); simpl; intuition congruence.
Qed.

Lemma Qlt_bool_false (a b : Q) : Qlt_bool a b = false <-> b <= a.
Proof.
  rewrite <- Qge_bool_iff. unfold Qlt_bool, Qge_bool.
  destruct (Qle_bool b a); simpl; intuition congruence.
Qed.

Lemma bind_ok {A B : Type} (m : res A) (k : A -> res B) (b : B) :
  bind m k = Ok b -> exists a, m = Ok a /\ k a = Ok b.
Proof. destruct m as [a|e]; simpl; [eauto | discriminate]. Qed.

(** Splits every successful [bind] among the hypotheses. *)
Ltac inv_bind :=
  repeat match goal with
  | H : bind _ _ = Ok _ |- _ =>
      let a := fresh "v" in
      let E := fresh "E" in
      apply bind_ok in H; destruct H as (a & E & H)
  | H : Ok _ = Ok _ |- _ => injection H as H; subst
  | H : Raise _ = Ok _ |- _ => discriminate H
  end.

(** ** Counting *)

Lemma sum_from (m : list bool) (acc : Z) :
  fold_left (fun (a : Z) (b : bool) => if b then (a + 1)%Z else a) m acc
  = (acc + Z.of_nat (length (filter (fun b => b) m)))%Z.
Proof.
  revert acc. induction m as [|b m IH]; intros acc; simpl.
  - lia.
  - rewrite IH. destruct b; simpl length; lia.
Qed.

Lemma sum_filter (m : list bool) :
  np.sum m = Z.of_nat (length (filter (fun b => b) m)).
Proof. unfold np.sum. rewrite sum_from. lia. Qed.

Lemma sum_eq_mask (cmpPx_values : list Q) (v : Q) :
  np.sum (np.eq_mask cmpPx_values v) = trial_count cmpPx_values v.
Proof.
  rewrite sum_filter. unfold trial_count, np.eq_mask. f_equal.
  induction cmpPx_values as [|w l IH]; simpl; [reflexivity|].
  destruct (Qeq_bool w v); simpl; congruence.
Qed.

Lemma sum_select (cmpPx_values : list Q) (correct_responses : list bool) (v : Q) :
  np.sum (np.select correct_responses (np.eq_mask cmpPx_values v))
  = correct_count cmpPx_values correct_responses v.
Proof.
  rewrite sum_filter. unfold correct_count, np.eq_mask. f_equal.
  revert correct_responses.
  induction cmpPx_values as [|w l IH]; intros [|c cs]; simpl; try reflexivity.
  destruct (Qeq_bool w v); simpl; [|apply IH].
  destruct c; simpl; rewrite IH; reflexivity.
Qed.

(** ** [np.unique] and [np.sort] *)

Lemma insert_unique_Forall (P : Q -> Prop) (v : Q) (l : list Q) :
  P v -> Forall P l -> Forall P (np.insert_unique v l).
Proof.
  intros Hv Hl. induction Hl as [|h t Hh Ht IH]; simpl.
  - constructor; [assumption | constructor].
  - destruct (v ?= h); repeat constructor; assumption.
Qed.

Lemma insert_unique_ascending (v : Q) (l : list Q) :
  StronglySorted Qlt l -> StronglySorted Qlt (np.insert_unique v l).
Proof.
  induction 1 as [|h t Hs IH Hh]; simpl.
  - repeat constructor.
  - destruct (v ?= h) eqn:E.
    + constructor; assumption.
    + apply Qlt_alt in E.
      constructor; [constructor; assumption|].
      constructor; [assumption|].
      eapply Forall_impl; [|exact Hh].
      intros w Hw. eapply Qlt_trans; eassumption.
    + apply Qgt_alt in E.
      constructor; [assumption|].
      apply insert_unique_Forall; assumption.
Qed.

Lemma unique_ascending (a : list Q) : StronglySorted Qlt (np.unique a).
Proof.
  unfold np.unique.
  assert (G : forall acc, StronglySorted Qlt acc ->
            StronglySorted Qlt (fold_left (fun acc v => np.insert_unique v acc) a acc)).
  { induction a as [|v a IH]; intros acc Hacc; simpl; [assumption|].
    apply IH, insert_unique_ascending, Hacc. }
  apply G. constructor.
Qed.

Lemma sort_ascending_id (l : list Q) : StronglySorted Qlt l -> np.sort l = l.
Proof.
  induction 1 as [|h t Hs IH Hh]; [reflexivity|].
  change (np.sort (h :: t)) with (np.insert h (np.sort t)). rewrite IH.
  destruct Hh as [|h' t' Hlt _]; simpl; [reflexivity|].
  apply Qlt_le_weak, Qle_bool_iff in Hlt. rewrite Hlt. reflexivity.
Qed.

Lemma sort_unique_ascending (a : list Q) :
  StronglySorted Qlt (np.sort (np.unique a)).
Proof.
  rewrite sort_ascending_id; apply unique_ascending.
Qed.

Lemma filter_ascending (f : Q -> bool) (l : list Q) :
  StronglySorted Qlt l -> StronglySorted Qlt (filter f l).
Proof.
  induction 1 as [|h t Hs IH Hh]; simpl; [constructor|].
  destruct (f h); [|assumption].
  constructor; [assumption|].
  apply Forall_forall. intros w Hw. apply filter_In in Hw.
  rewrite Forall_forall in Hh. apply Hh, Hw.
Qed.

(** In an ascending array a later entry is larger. *)
Lemma ascending_nth (l : list Q) (i j : nat) (a b : Q) :
  StronglySorted Qlt l -> (i < j)%nat ->
  nth_error l i = Some a -> nth_error l j = Some b -> a < b.
Proof.
  intros Hs. revert i j.
  induction Hs as [|h t Hs IH Hh]; intros i j Hij Hi Hj.
  - destruct i; discriminate.
  - destruct j as [|j]; [lia|]. simpl in Hj.
    destruct i as [|i]; simpl in Hi.
    + injection Hi as <-. rewrite Forall_forall in Hh.
      apply Hh. eapply nth_error_In; eassumption.
    + apply (IH i j); [lia | assumption | assumption].
Qed.

(** ** [np.min] and [np.max] *)

Lemma Qmin_case (a b : Q) : (Qmin a b = a /\ a <= b) \/ (Qmin a b = b /\ b <= a).
Proof.
  unfold Qmin, GenericMinMax.gmin. destruct (a ?= b) eqn:E.
  - left. split; [reflexivity|]. apply Qeq_alt in E. rewrite E. apply Qle_refl.
  - left. split; [reflexivity|]. apply Qlt_alt in E. apply Qlt_le_weak, E.
  - right. split; [reflexivity|]. apply Qgt_alt in E. apply Qlt_le_weak, E.
Qed.

Lemma Qmax_case (a b : Q) : (Qmax a b = a /\ b <= a) \/ (Qmax a b = b /\ a <= b).
Proof.
  unfold Qmax, GenericMinMax.gmax. destruct (a ?= b) eqn:E.
  - left. split; [reflexivity|]. apply Qeq_alt in E. rewrite E. apply Qle_refl.
  - right. split; [reflexivity|]. apply Qlt_alt in E. apply Qlt_le_weak, E.
  - left. split; [reflexivity|]. apply Qgt_alt in E. apply Qlt_le_weak, E.
Qed.

Lemma fold_min_least (t : list Q) (h : Q) :
  In (fold_left Qmin t h) (h :: t) /\ Forall (Qle (fold_left Qmin t h)) (h :: t).
Proof.
  revert h. induction t as [|a t IH]; intros h; simpl fold_left.
  - split; [left; reflexivity|]. constructor; [apply Qle_refl | constructor].
  - destruct (IH (Qmin h a)) as [Hin Hall].
    inversion Hall as [|? ? Hm Ht]; subst.
    destruct (Qmin_case h a) as [[E Hle]|[E Hle]]; rewrite E in *.
    + split.
      * destruct Hin as [Hin|Hin]; [left; exact Hin | right; right; exact Hin].
      * constructor; [exact Hm|]. constructor; [|exact Ht].
        eapply Qle_trans; eassumption.
    + split.
      * destruct Hin as [Hin|Hin]; [right; left; exact Hin | right; right; exact Hin].
      * constructor; [eapply Qle_trans; eassumption|].
        constructor; assumption.
Qed.

Lemma fold_max_greatest (t : list Q) (h : Q) :
  In (fold_left Qmax t h) (h :: t)
  /\ Forall (fun v => v <= fold_left Qmax t h) (h :: t).
Proof.
  revert h. induction t as [|a t IH]; intros h; simpl fold_left.
  - split; [left; reflexivity|]. constructor; [apply Qle_refl | constructor].
  - destruct (IH (Qmax h a)) as [Hin Hall].
    inversion Hall as [|? ? Hm Ht]; subst.
    destruct (Qmax_case h a) as [[E Hle]|[E Hle]]; rewrite E in *.
    + split.
      * destruct Hin as [Hin|Hin]; [left; exact Hin | right; right; exact Hin].
      * constructor; [exact Hm|]. constructor; [|exact Ht].
        eapply Qle_trans; eassumption.
    + split.
      * destruct Hin as [Hin|Hin]; [right; left; exact Hin | right; right; exact Hin].
      * constructor; [eapply Qle_trans; eassumption|].
        constructor; assumption.
Qed.

Lemma min_least (a : list Q) (m : Q) : np.min a = Ok m -> least m a.
Proof.
  destruct a as [|h t]; simpl; [discriminate|].
  intros H. injection H as <-. apply fold_min_least.
Qed.

Lemma max_greatest (a : list Q) (m : Q) : np.max a = Ok m -> greatest m a.
Proof.
  destruct a as [|h t]; simpl; [discriminate|].
  intros H. injection H as <-. apply fold_max_greatest.
Qed.

Lemma min_defined (a : list Q) : a <> [] -> exists m, np.min a = Ok m.
Proof. destruct a; [congruence | simpl; eauto]. Qed.

Lemma max_defined (a : list Q) : a <> [] -> exists m, np.max a = Ok m.
Proof. destruct a; [congruence | simpl; eauto]. Qed.

(** ** The aggregation loop *)

Lemma loop_ok (cmpPx_values : list Q) (correct_responses : list bool) (l : list Q) :
  forall xs ys ns x y n,
    for_each (simple.level_body cmpPx_values correct_responses) l (xs, ys, ns)
    = Ok (x, y, n) ->
    x = xs ++ filter (qualifies cmpPx_values) l
    /\ y = ys ++ map (proportion cmpPx_values correct_responses)
                     (filter (qualifies cmpPx_values) l)
    /\ n = ns ++ map (trial_count cmpPx_values) (filter (qualifies cmpPx_values) l).
Proof.
  induction l as [|v l IH]; intros xs ys ns x y n H; simpl in H.
  - injection H as <- <- <-. rewrite !app_nil_r. auto.
  - apply bind_ok in H. destruct H as (acc & Hb & Hrest).
    unfold simple.level_body in Hb. cbv zeta in Hb.
    rewrite sum_eq_mask in Hb.
    change (2 <=? trial_count cmpPx_values v)%Z
      with (qualifies cmpPx_values v) in Hb.
    simpl filter. destruct (qualifies cmpPx_values v).
    + apply bind_ok in Hb. destruct Hb as (sel & Hsel & Hb).
      injection Hb as <-.
      unfold np.index_mask in Hsel.
      destruct (Nat.eqb _ _); [|discriminate]. injection Hsel as <-.
      rewrite sum_select in Hrest.
      apply IH in Hrest. destruct Hrest as (-> & -> & ->).
      simpl map. rewrite <- !app_assoc. auto.
    + injection Hb as <-. apply IH in Hrest. exact Hrest.
Qed.

Lemma level_body_total (cmpPx_values : list Q) (correct_responses : list bool) :
  length cmpPx_values = length correct_responses ->
  forall acc v,
    exists lv, simple.level_body cmpPx_values correct_responses acc v = Ok lv.
Proof.
  intros Hlen [[xs ys] ns] v. unfold simple.level_body. cbv zeta.
  destruct (2 <=? _)%Z; [|eauto].
  unfold np.index_mask, np.eq_mask.
  rewrite length_map, <- Hlen, Nat.eqb_refl. simpl. eauto.
Qed.

Lemma loop_total (cmpPx_values : list Q) (correct_responses : list bool) :
  length cmpPx_values = length correct_responses ->
  forall l acc,
    exists lv, for_each (simple.level_body cmpPx_values correct_responses) l acc = Ok lv.
Proof.
  intros Hlen. induction l as [|v l IH]; intros acc; simpl.
  - eauto.
  - destruct (level_body_total _ _ Hlen acc v) as (acc' & ->). simpl. apply IH.
Qed.

Lemma levels_ok (cmpPx_values : list Q) (correct_responses : list bool)
    (x y : list Q) (n : list Z) :
  simple.levels cmpPx_values correct_responses = Ok (x, y, n) ->
  x = filter (qualifies cmpPx_values) (np.sort (np.unique cmpPx_values))
  /\ y = map (proportion cmpPx_values correct_responses) x
  /\ n = map (trial_count cmpPx_values) x.
Proof.
  unfold simple.levels. intros H. apply loop_ok in H. simpl in H.
  destruct H as (-> & -> & ->). auto.
Qed.

Lemma levels_total (cmpPx_values : list Q) (correct_responses : list bool) :
  length cmpPx_values = length correct_responses ->
  exists x y n, simple.levels cmpPx_values correct_responses = Ok (x, y, n).
Proof.
  intros Hlen. unfold simple.levels.
  destruct (loop_total _ _ Hlen (np.sort (np.unique cmpPx_values)) ([], [], []))
    as ([[x y] n] & H).
  eauto.
Qed.

Lemma levels_ascending (cmpPx_values : list Q) (correct_responses : list bool)
    (x y : list Q) (n : list Z) :
  simple.levels cmpPx_values correct_responses = Ok (x, y, n) ->
  StronglySorted Qlt x.
Proof.
  intros H. apply levels_ok in H. destruct H as (-> & _).
  apply filter_ascending, sort_unique_ascending.
Qed.

Lemma levels_length (cmpPx_values : list Q) (correct_responses : list bool)
    (x y : list Q) (n : list Z) :
  simple.levels cmpPx_values correct_responses = Ok (x, y, n) ->
  length y = length x /\ length n = length x.
Proof.
  intros H. apply levels_ok in H. destruct H as (_ & -> & ->).
  rewrite !length_map. auto.
Qed.

(** The two inlined loops are the same computation. *)
Lemma fit_levels_simple (cmpPx_values : list Q) (correct_responses : list bool) :
  fit.levels (np.sort (np.unique cmpPx_values)) cmpPx_values correct_responses
  = simple.levels cmpPx_values correct_responses.
Proof. reflexivity. Qed.

(** The levels that the loop emits from two columns of one length. *)
Lemma levels_invariant (cmpPx_values : list Q) (correct_responses : list bool) :
  length cmpPx_values = length correct_responses ->
  exists x y n,
    simple.levels cmpPx_values correct_responses = Ok (x, y, n)
    /\ StronglySorted Qlt x
    /\ length y = length x /\ length n = length x
    /\ forall i xi yi ni,
         nth_error x i = Some xi -> nth_error y i = Some yi ->
         nth_error n i = Some ni ->
         (2 <= ni)%Z
         /\ ni = trial_count cmpPx_values xi
         /\ yi = inject_Z (correct_count cmpPx_values correct_responses xi)
                 / inject_Z ni.
Proof.
  intros Hlen.
  destruct (levels_total _ _ Hlen) as (x & y & n & H).
  exists x, y, n.
  pose proof (levels_ascending _ _ _ _ _ H) as Hasc.
  pose proof (levels_length _ _ _ _ _ H) as [Hy Hn].
  split; [exact H|]. split; [exact Hasc|]. split; [exact Hy|]. split; [exact Hn|].
  intros i xi yi ni Hi Hyi Hni.
  apply levels_ok in H. destruct H as (Hx & -> & ->).
  rewrite nth_error_map, Hi in Hyi, Hni. simpl in Hyi, Hni.
  injection Hyi as <-. injection Hni as <-.
  split; [|split; reflexivity].
  apply nth_error_In in Hi. rewrite Hx in Hi. apply filter_In in Hi.
  destruct Hi as [_ Hq]. unfold qualifies in Hq. lia.
Qed.

Lemma ascending_distinct (x : list Q) :
  StronglySorted Qlt x ->
  forall i j xi xj, i <> j -> nth_error x i = Some xi ->
    nth_error x j = Some xj -> ~ xi == xj.
Proof.
  intros Hasc i j xi xj Hij Hi Hj Heq.
  destruct (Nat.lt_total i j) as [Hlt|[->|Hlt]]; [| congruence |].
  - pose proof (ascending_nth _ _ _ _ _ Hasc Hlt Hi Hj) as L.
    rewrite Heq in L. exact (Qlt_irrefl _ L).
  - pose proof (ascending_nth _ _ _ _ _ Hasc Hlt Hj Hi) as L.
    rewrite Heq in L. exact (Qlt_irrefl _ L).
Qed.

Lemma trial_count_trials (trials : list Trial) (v : Q) :
  trial_count (map cmpPx trials) v = Z.of_nat (length (trials_at trials v)).
Proof.
  unfold trial_count, trials_at. f_equal.
  induction trials as [|t l IH]; simpl; [reflexivity|].
  destruct (Qeq_bool (cmpPx t) v); simpl; congruence.
Qed.

Lemma correct_count_trials (trials : list Trial) (v : Q) :
  correct_count (map cmpPx trials) (map correct trials) v
  = Z.of_nat (length (filter correct (trials_at trials v))).
Proof.
  unfold correct_count, trials_at. f_equal.
  induction trials as [|t l IH]; simpl; [reflexivity|].
  destruct (Qeq_bool (cmpPx t) v); simpl; [|exact IH].
  destruct (correct t); simpl; congruence.
Qed.

(** C5: for every list of trials the aggregation step, in
    [simple_threshold_estimate] and in [fit_psychophysical_curve] alike,
    emits levels whose intensities are strictly ascending, hence pairwise
    different; every level has at least two trials; its trial count is the
    number of trials at its intensity, and its proportion is the number of
    correct trials among them divided by that count. *)
Theorem levels_ascending_counted (trials : list Trial) :
  exists x y n,
    simple.levels (map cmpPx trials) (map correct trials) = Ok (x, y, n)
    /\ fit.levels (np.sort (np.unique (map cmpPx trials)))
         (map cmpPx trials) (map correct trials) = Ok (x, y, n)
    /\ StronglySorted Qlt x
    /\ (forall i j xi xj, i <> j -> nth_error x i = Some xi ->
          nth_error x j = Some xj -> ~ xi == xj)
    /\ length y = length x /\ length n = length x
    /\ forall i xi yi ni,
         nth_error x i = Some xi -> nth_error y i = Some yi ->
         nth_error n i = Some ni ->
         (2 <= ni)%Z
         /\ ni = Z.of_nat (length (trials_at trials xi))
         /\ yi = inject_Z (Z.of_nat (length (filter correct (trials_at trials xi))))
                 / inject_Z ni.
Proof.
  destruct (levels_invariant (map cmpPx trials) (map correct trials))
    as (x & y & n & H & Hasc & Hy & Hn & Hlevel).
  { rewrite !length_map. reflexivity. }
  exists x, y, n.
  split; [exact H|]. split; [rewrite fit_levels_simple; exact H|].
  split; [exact Hasc|]. split; [apply ascending_distinct, Hasc|].
  split; [exact Hy|]. split; [exact Hn|].
  intros i xi yi ni Hi Hyi Hni.
  destruct (Hlevel i xi yi ni Hi Hyi Hni) as (Htwo & Hcount & Hprop).
  rewrite trial_count_trials in Hcount. rewrite correct_count_trials in Hprop.
  auto.
Qed.

Lemma levels_ascending_counted_example :
  exists x y n,
    simple.levels [3; 1; 3; 2; 1; 3] [true; false; true; true; true; false]
    = Ok (x, y, n)
    /\ x = [1; 3] /\ n = [2%Z; 3%Z] /\ y = [1 # 2; 2 # 3].
Proof.
  destruct (levels_ascending_counted
              [{| cmpPx := 3; correct := true |}; {| cmpPx := 1; correct := false |};
               {| cmpPx := 3; correct := true |}; {| cmpPx := 2; correct := true |};
               {| cmpPx := 1; correct := true |}; {| cmpPx := 3; correct := false |}])
    as (x & y & n & H & _).
  exists x, y, n. split; [exact H|].
  vm_compute in H. injection H as <- <- <-. repeat split; reflexivity.
Defined.

(** ** The interpolated threshold *)

Lemma any_map_false {A : Type} (f : A -> bool) (l : list A) :
  np.any (map f l) = false -> Forall (fun v => f v = false) l.
Proof.
  unfold np.any. induction l as [|a l IH]; simpl; intros H; [constructor|].
  apply orb_false_iff in H. destruct H as [Ha Hl].
  constructor; [exact Ha | apply IH, Hl].
Qed.

Lemma any_map_true {A : Type} (f : A -> bool) (l : list A) :
  np.any (map f l) = true <-> Exists (fun v => f v = true) l.
Proof.
  unfold np.any. induction l as [|a l IH]; simpl.
  - split; [discriminate | intros H; inversion H].
  - rewrite orb_true_iff, IH. split.
    + intros [H|H]; [left | right]; exact H.
    + intros H. inversion H; subst; [left | right]; assumption.
Qed.

Lemma all_map_true {A : Type} (f : A -> bool) (l : list A) :
  np.all (map f l) = true <-> Forall (fun v => f v = true) l.
Proof.
  unfold np.all. induction l as [|a l IH]; simpl.
  - split; [constructor | reflexivity].
  - rewrite andb_true_iff, IH. split.
    + intros [Ha Hl]. constructor; assumption.
    + intros H. inversion H; subst. split; assumption.
Qed.

Lemma first_true_spec (m : list bool) (i : nat) :
  np.first_true m = Ok i ->
  nth_error m i = Some true
  /\ forall j, (j < i)%nat -> nth_error m j = Some false.
Proof.
  revert i. induction m as [|b m IH]; intros i H; simpl in H; [discriminate|].
  destruct b.
  - injection H as <-. split; [reflexivity | intros j Hj; lia].
  - apply bind_ok in H. destruct H as (k & Hk & H). injection H as <-.
    destruct (IH k Hk) as [Hnth Hbefore]. split; [exact Hnth|].
    intros [|j] Hj; simpl; [reflexivity | apply Hbefore; lia].
Qed.

Lemma any_first_true (m : list bool) :
  np.any m = true -> exists i, np.first_true m = Ok i.
Proof.
  unfold np.any. induction m as [|b m IH]; simpl; [discriminate|].
  destruct b; simpl; [eauto|].
  intros H. destruct (IH H) as (i & ->). simpl. eauto.
Qed.

Lemma first_true_at_or_above (y : list Q) (target : Q) (i : nat) :
  np.first_true (map (fun v => Qge_bool v target) y) = Ok i ->
  first_at_or_above y target i.
Proof.
  intros H. apply first_true_spec in H. destruct H as [Hi Hbefore]. split.
  - rewrite nth_error_map in Hi. destruct (nth_error y i) as [yi|]; [|discriminate].
    simpl in Hi. injection Hi as Hi. apply Qge_bool_iff in Hi. eauto.
  - intros j yj Hj Hyj. specialize (Hbefore j Hj).
    rewrite nth_error_map, Hyj in Hbefore. simpl in Hbefore.
    injection Hbefore as Hb. apply Qge_bool_false, Hb.
Qed.

Lemma item_ok {A : Type} (a : list A) (i : nat) (v : A) :
  np.item a i = Ok v <-> nth_error a i = Some v.
Proof.
  unfold np.item. destruct (nth_error a i); split; intros H;
    try discriminate; injection H as <-; reflexivity.
Qed.

Lemma item_defined {A : Type} (a : list A) (i : nat) :
  (i < length a)%nat -> exists v, np.item a i = Ok v.
Proof.
  intros H. unfold np.item. destruct (nth_error a i) eqn:E; [eauto|].
  apply nth_error_None in E. lia.
Qed.

Lemma threshold_branch_cases (x y : list Q) (target : Q) (b : Branch) (th : Q) :
  threshold_branch x y target = Ok (b, th) -> branch_spec x y target b th.
Proof.
  unfold threshold_branch. cbv zeta.
  destruct (negb (np.any (map (fun v => Qlt_bool v target) y))
            || negb (np.any (map (fun v => Qge_bool v target) y))) eqn:Hside.
  - destruct (np.all (map (fun v => Qge_bool v target) y)) eqn:Hall.
    + intros H. inv_bind. simpl. split; [|eauto].
      apply all_map_true in Hall. eapply Forall_impl; [|exact Hall].
      intros w Hw. apply Qge_bool_iff, Hw.
    + intros H. inv_bind. simpl. split; [|eauto].
      apply orb_true_iff in Hside. destruct Hside as [Hb|Ha].
      * apply negb_true_iff, any_map_false in Hb.
        assert (np.all (map (fun v => Qge_bool v target) y) = true) as C.
        { apply all_map_true. eapply Forall_impl; [|exact Hb].
          intros w Hw. apply Qge_bool_iff, Qlt_bool_false, Hw. }
        congruence.
      * apply negb_true_iff, any_map_false in Ha.
        eapply Forall_impl; [|exact Ha].
        intros w Hw. apply Qge_bool_false, Hw.
  - intros H. apply bind_ok in H. destruct H as (i & Hi & H).
    pose proof (first_true_at_or_above _ _ _ Hi) as Hfirst.
    destruct i as [|p].
    + inv_bind. split; [exact Hfirst|]. apply (proj1 (item_ok x 0%nat th)). assumption.
    + apply bind_ok in H. destruct H as (x1 & Hx1 & H).
      apply bind_ok in H. destruct H as (y1 & Hy1 & H).
      apply bind_ok in H. destruct H as (x2 & Hx2 & H).
      apply bind_ok in H. destruct H as (y2 & Hy2 & H).
      apply item_ok in Hx1, Hy1, Hx2, Hy2.
      assert (y1 < target) as Hlow.
      { destruct Hfirst as [_ Hbefore]. apply (Hbefore p y1); [lia | exact Hy1]. }
      assert (target <= y2) as Hhigh.
      { destruct Hfirst as [(yi & Hyi & Hle) _]. congruence. }
      destruct (Qeq_bool y2 y1) eqn:Heq; simpl in H.
      * apply Qeq_bool_iff in Heq. exfalso.
        rewrite Heq in Hhigh. exact (Qlt_not_le _ _ Hlow Hhigh).
      * injection H as <- <-. simpl.
        exists p, x1, y1, x2, y2. repeat split; try assumption;
          try (apply Hfirst); reflexivity.
Qed.

Lemma threshold_branch_total (x y : list Q) (target : Q) :
  length x = length y -> x <> [] ->
  exists b th, threshold_branch x y target = Ok (b, th).
Proof.
  intros Hlen Hx. unfold threshold_branch. cbv zeta.
  destruct (negb (np.any (map (fun v => Qlt_bool v target) y))
            || negb (np.any (map (fun v => Qge_bool v target) y))) eqn:Hside.
  - destruct (np.all _).
    + destruct (min_defined x Hx) as (m & ->). simpl. eauto.
    + destruct (max_defined x Hx) as (m & ->). simpl. eauto.
  - apply orb_false_iff in Hside. destruct Hside as [_ Ha].
    apply negb_false_iff in Ha.
    destruct (any_first_true _ Ha) as (i & Hi). rewrite Hi. simpl.
    apply first_true_spec in Hi. destruct Hi as [Hi _].
    assert (i < length y)%nat as Hlt.
    { rewrite <- (length_map (fun v => Qge_bool v target)).
      apply nth_error_Some. congruence. }
    destruct i as [|p].
    + destruct (item_defined x 0) as (x0 & ->); [lia|]. simpl. eauto.
    + destruct (item_defined x p) as (x1 & ->); [lia|].
      destruct (item_defined y p) as (y1 & ->); [lia|].
      destruct (item_defined x (S p)) as (x2 & ->); [lia|].
      destruct (item_defined y (S p)) as (y2 & ->); [lia|].
      simpl. destruct (negb (Qeq_bool y2 y1)); eauto.
Qed.

(** The whole function, once its loop has produced at least three levels. *)
Lemma simple_threshold_estimate_levels (cmpPx_values : list Q)
    (correct_responses : list bool) (target : Q)
    (x y : list Q) (n : list Z) (b : Branch) (th : Q) :
  simple.levels cmpPx_values correct_responses = Ok (x, y, n) ->
  (3 <= length x)%nat ->
  threshold_branch x y target = Ok (b, th) ->
  simple_threshold_estimate cmpPx_values correct_responses target
  = Ok (Num th, x, y, n).
Proof.
  intros Hlv Hlen Hb. unfold simple_threshold_estimate, threshold_of_levels.
  rewrite Hlv. simpl.
  destruct (Nat.ltb_spec (length x) 3) as [C|_]; [lia|].
  rewrite Hb. reflexivity.
Qed.

(** The interpolated value lies between the two intensities. *)
Lemma linear_between (x1 y1 x2 y2 target : Q) :
  x1 < x2 -> y1 < target -> target <= y2 ->
  x1 <= x1 + (target - y1) * (x2 - x1) / (y2 - y1)
  /\ x1 + (target - y1) * (x2 - x1) / (y2 - y1) <= x2.
Proof.
  intros Hx Hlow Hhigh.
  assert (0 < y2 - y1) as Hd by lra.
  assert (0 <= (target - y1) * (x2 - x1) / (y2 - y1)) as H0.
  { apply Qle_shift_div_l; [exact Hd|].
    assert (0 <= (target - y1) * (x2 - x1)) by (apply Qmult_le_0_compat; lra).
    lra. }
  assert ((target - y1) * (x2 - x1) / (y2 - y1) <= x2 - x1) as H1.
  { apply Qle_shift_div_r; [exact Hd|].
    rewrite (Qmult_comm (target - y1)).
    apply Qmult_le_l; lra. }
  split; lra.
Qed.

Lemma any_map_none {A : Type} (f : A -> bool) (l : list A) :
  Forall (fun v => f v = false) l -> np.any (map f l) = false.
Proof.
  intros H. destruct (np.any (map f l)) eqn:E; [|reflexivity].
  apply any_map_true in E. apply Exists_exists in E.
  destruct E as (v & Hin & Hv). rewrite Forall_forall in H.
  specialize (H v Hin). congruence.
Qed.

Lemma branch_all_above (x y : list Q) (target m : Q) :
  Forall (fun v => target <= v) y -> np.min x = Ok m ->
  threshold_branch x y target = Ok (AllAbove, m - m * (1 # 10)).
Proof.
  intros Hall Hmin. unfold threshold_branch. cbv zeta.
  rewrite (any_map_none (fun v => Qlt_bool v target)).
  - simpl.
    replace (np.all (map (fun v => Qge_bool v target) y)) with true.
    + rewrite Hmin. reflexivity.
    + symmetry. apply all_map_true. eapply Forall_impl; [|exact Hall].
      intros w Hw. apply Qge_bool_iff, Hw.
  - eapply Forall_impl; [|exact Hall].
    intros w Hw. apply Qlt_bool_false, Hw.
Qed.

Lemma branch_all_below (x y : list Q) (target m : Q) :
  y <> [] -> Forall (fun v => v < target) y -> np.max x = Ok m ->
  threshold_branch x y target = Ok (AllBelow, m + m * (1 # 10)).
Proof.
  intros Hy Hall Hmax. unfold threshold_branch. cbv zeta.
  rewrite (any_map_none (fun v => Qge_bool v target)).
  - rewrite orb_true_r.
    replace (np.all (map (fun v => Qge_bool v target) y)) with false.
    + rewrite Hmax. reflexivity.
    + destruct y as [|a y']; [congruence|].
      inversion Hall as [|? ? Ha _]; subst.
      apply Qge_bool_false in Ha. unfold np.all. simpl. rewrite Ha. reflexivity.
  - eapply Forall_impl; [|exact Hall].
    intros w Hw. apply Qge_bool_false, Hw.
Qed.

(** C3, as stated, fails on negative intensities: with every level above the
    target the returned value is not below the least intensity, and with
    every level below the target it is not above the greatest one. *)
Lemma negative_intensities_extrapolate_inwards :
  (exists th,
     simple_threshold_estimate [-3; -3; -2; -2; -1; -1]
       [true; true; true; true; true; true] default_target
     = Ok (Num th, [-3; -2; -1],
           [inject_Z 2 / inject_Z 2; inject_Z 2 / inject_Z 2; inject_Z 2 / inject_Z 2],
           [2%Z; 2%Z; 2%Z])
     /\ np.min [-3; -2; -1] = Ok (-3) /\ ~ th < -3)
  /\ (exists th,
     simple_threshold_estimate [-3; -3; -2; -2; -1; -1]
       [false; false; false; false; false; false] default_target
     = Ok (Num th, [-3; -2; -1],
           [inject_Z 0 / inject_Z 2; inject_Z 0 / inject_Z 2; inject_Z 0 / inject_Z 2],
           [2%Z; 2%Z; 2%Z])
     /\ np.max [-3; -2; -1] = Ok (-1) /\ ~ -1 < th).
Proof.
  split.
  - exists (-3 - -3 * (1 # 10)). split; [reflexivity|]. split; [reflexivity|].
    intros H. vm_compute in H. discriminate H.
  - exists (-1 + -1 * (1 # 10)). split; [reflexivity|]. split; [reflexivity|].
    intros H. vm_compute in H. discriminate H.
Qed.

(** C3 (as amended): when the aggregated sequence has at least three levels
    and every proportion is at or above the target, the function returns
    [min - 0.1 * min] for the least intensity [min], which is strictly less
    than [min] when [min] is positive; when every proportion is strictly
    below the target it returns [max + 0.1 * max] for the greatest intensity
    [max], which is strictly greater than [max] when [max] is positive. *)
Theorem extrapolated_beyond_positive_range (cmpPx_values : list Q)
    (correct_responses : list bool) (target : Q)
    (x y : list Q) (n : list Z)
    (Hlv : simple.levels cmpPx_values correct_responses = Ok (x, y, n))
    (Hthree : (3 <= length x)%nat) :
  (Forall (fun v => target <= v) y ->
   exists m,
     np.min x = Ok m /\ least m x
     /\ simple_threshold_estimate cmpPx_values correct_responses target
        = Ok (Num (m - m * (1 # 10)), x, y, n)
     /\ (0 < m -> m - m * (1 # 10) < m))
  /\ (Forall (fun v => v < target) y ->
   exists m,
     np.max x = Ok m /\ greatest m x
     /\ simple_threshold_estimate cmpPx_values correct_responses target
        = Ok (Num (m + m * (1 # 10)), x, y, n)
     /\ (0 < m -> m < m + m * (1 # 10))).
Proof.
  pose proof (levels_length _ _ _ _ _ Hlv) as [Hy _].
  assert (x <> []) as Hne by (destruct x; [simpl in Hthree; lia | discriminate]).
  assert (y <> []) as Hyne by (destruct y; [simpl in Hy; lia | discriminate]).
  split; intros Hall.
  - destruct (min_defined x Hne) as (m & Hm). exists m.
    split; [exact Hm|]. split; [apply min_least, Hm|]. split.
    + eapply simple_threshold_estimate_levels; [exact Hlv | exact Hthree|].
      apply branch_all_above; assumption.
    + intros H. lra.
  - destruct (max_defined x Hne) as (m & Hm). exists m.
    split; [exact Hm|]. split; [apply max_greatest, Hm|]. split.
    + eapply simple_threshold_estimate_levels; [exact Hlv | exact Hthree|].
      apply branch_all_below; assumption.
    + intros H. lra.
Qed.

Lemma extrapolated_beyond_positive_range_witness :
  (exists m,
     np.min [1; 2; 3] = Ok m /\ least m [1; 2; 3]
     /\ simple_threshold_estimate [1; 1; 2; 2; 3; 3]
          [true; true; true; true; true; true] (707 # 1000)
        = Ok (Num (m - m * (1 # 10)), [1; 2; 3], [2 # 2; 2 # 2; 2 # 2],
              [2%Z; 2%Z; 2%Z])
     /\ (0 < m -> m - m * (1 # 10) < m))
  /\ (exists m,
     np.max [1; 2; 3] = Ok m /\ greatest m [1; 2; 3]
     /\ simple_threshold_estimate [1; 1; 2; 2; 3; 3]
          [false; false; false; false; false; false] (707 # 1000)
        = Ok (Num (m + m * (1 # 10)), [1; 2; 3], [0 # 2; 0 # 2; 0 # 2],
              [2%Z; 2%Z; 2%Z])
     /\ (0 < m -> m < m + m * (1 # 10))).
Proof.
  split.
  - apply (extrapolated_beyond_positive_range
             [1; 1; 2; 2; 3; 3] [true; true; true; true; true; true]
             (707 # 1000) [1; 2; 3] [2 # 2; 2 # 2; 2 # 2] [2%Z; 2%Z; 2%Z]
             eq_refl).
    + simpl. lia.
    + repeat constructor; vm_compute; discriminate.
  - apply (extrapolated_beyond_positive_range
             [1; 1; 2; 2; 3; 3] [false; false; false; false; false; false]
             (707 # 1000) [1; 2; 3] [0 # 2; 0 # 2; 0 # 2] [2%Z; 2%Z; 2%Z]
             eq_refl).
    + simpl. lia.
    + repeat constructor; vm_compute; reflexivity.
Defined.

(** ** The scenario of five levels *)

(** C4, as stated, fails: the threshold of the scenario is not between 500
    and 550. *)
Lemma scenario_threshold_not_above_500 :
  exists th,
    threshold_of_levels scenario_x scenario_y (707 # 1000) = Ok (Num th)
    /\ ~ (500 < th /\ th < 550).
Proof.
  eexists. split; [reflexivity|].
  intros [H _]. vm_compute in H. discriminate H.
Qed.

(** C4 (as amended): for the levels (400, 0.5, 10), (450, 0.6, 10),
    (500, 0.75, 10), (550, 0.9, 10), (600, 0.95, 10) and target 0.707 the
    first level at or above the target is (500, 0.75), so the threshold is
    interpolated between 450 and 500: it is
    450 + (0.707 - 0.6) * (500 - 450) / (0.75 - 0.6) = 1457/3, strictly
    between 450 and 500.  A trial table with these proportions gives the same
    value through [simple_threshold_estimate]. *)
Theorem scenario_threshold :
  exists th,
    threshold_of_levels scenario_x scenario_y (707 # 1000) = Ok (Num th)
    /\ threshold_branch scenario_x scenario_y (707 # 1000) = Ok (Linear, th)
    /\ th = 450 + ((707 # 1000) - (6 # 10)) * (500 - 450) / ((75 # 100) - (6 # 10))
    /\ th == 1457 # 3
    /\ 450 < th /\ th < 500
    /\ exists th' y' n',
         simple_threshold_estimate (fst scenario_table) (snd scenario_table)
           (707 # 1000) = Ok (Num th', scenario_x, y', n')
         /\ Forall2 Qeq y' scenario_y /\ th' == th.
Proof.
  eexists. split; [reflexivity|]. split; [reflexivity|]. split; [reflexivity|].
  split; [reflexivity|]. split; [reflexivity|]. split; [reflexivity|].
  eexists. eexists. eexists. split; [vm_compute; reflexivity|].
  split; [repeat constructor|reflexivity].
Qed.

(** C9: whenever lines 270-299 return a threshold, it does not come from the
    midpoint fallback; and when it comes from the interpolation formula, the
    first level at or above the target is not the first level, its
    predecessor's proportion [y1] is strictly below the target and its own
    proportion [y2] is at or above it, so that the divisor [y2 - y1] is
    strictly positive and the test [y2 != y1] holds. *)
Theorem midpoint_unreachable (x y : list Q) (target : Q) (b : Branch) (th : Q)
    (H : threshold_branch x y target = Ok (b, th)) :
  b <> Midpoint
  /\ (b = Linear ->
      exists p x1 y1 x2 y2,
        first_at_or_above y target (S p)
        /\ nth_error x p = Some x1 /\ nth_error y p = Some y1
        /\ nth_error x (S p) = Some x2 /\ nth_error y (S p) = Some y2
        /\ y1 < target /\ target <= y2
        /\ 0 < y2 - y1 /\ Qeq_bool y2 y1 = false
        /\ th = x1 + (target - y1) * (x2 - x1) / (y2 - y1)).
Proof.
  apply threshold_branch_cases in H. split.
  - intros ->. exact H.
  - intros ->. simpl in H.
    destruct H as (p & x1 & y1 & x2 & y2 & Hfirst & Hx1 & Hy1 & Hx2 & Hy2
                   & Hlow & Hhigh & Hth).
    exists p, x1, y1, x2, y2. repeat split; try assumption; try apply Hfirst.
    + lra.
    + destruct (Qeq_bool y2 y1) eqn:E; [|reflexivity].
      apply Qeq_bool_iff in E. lra.
Qed.

Lemma midpoint_unreachable_witness :
  Linear <> Midpoint
  /\ (Linear = Linear ->
      exists p x1 y1 x2 y2,
        first_at_or_above scenario_y (707 # 1000) (S p)
        /\ nth_error scenario_x p = Some x1 /\ nth_error scenario_y p = Some y1
        /\ nth_error scenario_x (S p) = Some x2
        /\ nth_error scenario_y (S p) = Some y2
        /\ y1 < 707 # 1000 /\ 707 # 1000 <= y2
        /\ 0 < y2 - y1 /\ Qeq_bool y2 y1 = false
        /\ 450 + ((707 # 1000) - (6 # 10)) * (500 - 450) / ((75 # 100) - (6 # 10))
           = x1 + ((707 # 1000) - y1) * (x2 - x1) / (y2 - y1)).
Proof.
  apply (midpoint_unreachable scenario_x scenario_y (707 # 1000) Linear).
  reflexivity.
Defined.

(** ** The parametric fit *)

Lemma run_pbind {A B : Type} (curve_fit : CurveFitArgs -> Response)
    (m : Prog A) (k : A -> Prog B) :
  run curve_fit (pbind m k) = run curve_fit (k (run curve_fit m)).
Proof.
  induction m as [a|args k' IH]; simpl; [reflexivity | apply IH].
Qed.

Lemma calls_pbind {A B : Type} (curve_fit : CurveFitArgs -> Response)
    (m : Prog A) (k : A -> Prog B) :
  calls curve_fit (pbind m k)
  = calls curve_fit m ++ calls curve_fit (k (run curve_fit m)).
Proof.
  induction m as [a|args k' IH]; simpl; [reflexivity | rewrite IH; reflexivity].
Qed.

Lemma threshold_of_levels_total (x y : list Q) (target : Q) :
  length x = length y -> exists th, threshold_of_levels x y target = Ok th.
Proof.
  intros Hlen. unfold threshold_of_levels.
  destruct (Nat.ltb_spec (length x) 3) as [_|Hge]; [eauto|].
  assert (x <> []) as Hne by (destruct x; [simpl in Hge; lia | discriminate]).
  destruct (threshold_branch_total x y target Hlen Hne) as (b & th & ->).
  simpl. eauto.
Qed.

Lemma simple_threshold_estimate_of_levels (cmpPx_values : list Q)
    (correct_responses : list bool) (target : Q) (x y : list Q) (n : list Z) :
  simple.levels cmpPx_values correct_responses = Ok (x, y, n) ->
  exists th,
    simple_threshold_estimate cmpPx_values correct_responses target
    = Ok (th, x, y, n).
Proof.
  intros Hlv. unfold simple_threshold_estimate. rewrite Hlv. simpl.
  apply levels_length in Hlv. destruct Hlv as [Hy _].
  destruct (threshold_of_levels_total x y target (eq_sym Hy)) as (th & ->).
  simpl. eauto.
Qed.

Lemma simple_threshold_estimate_total (cmpPx_values : list Q)
    (correct_responses : list bool) (target : Q) :
  length cmpPx_values = length correct_responses ->
  exists th x y n,
    simple_threshold_estimate cmpPx_values correct_responses target
    = Ok (th, x, y, n).
Proof.
  intros Hlen. destruct (levels_total _ _ Hlen) as (x & y & n & Hlv).
  destruct (simple_threshold_estimate_of_levels _ _ target _ _ _ Hlv) as (th & H).
  eauto.
Qed.

(** A fit is returned only after the loop has produced at least four levels
    and the optimizer has answered the call of the selected method. *)
Lemma fitted_inv (lib : SciPy) (curve_fit : CurveFitArgs -> Response)
    (cmpPx_values : list Q) (correct_responses : list bool) (method : string)
    (f : Fit) :
  run curve_fit (fit_psychophysical_curve lib cmpPx_values correct_responses method)
  = Ok (Fitted f) ->
  exists x y n,
    simple.levels cmpPx_values correct_responses = Ok (x, y, n)
    /\ (4 <= length x)%nat
    /\ ((method = "logistic"%string
         /\ exists args, logistic_call lib x y n = Ok args
              /\ logistic_result lib x y n (curve_fit args) = Ok (Fitted f))
        \/ (method = "cumulative_normal"%string
            /\ exists args, normal_call lib x y n = Ok args
                 /\ normal_result lib x y n (curve_fit args) = Ok (Fitted f))).
Proof.
  unfold fit_psychophysical_curve. cbv zeta.
  destruct (Nat.ltb _ 4); [discriminate|].
  rewrite fit_levels_simple.
  destruct (simple.levels cmpPx_values correct_responses) as [[[x y] n]|e];
    [|discriminate].
  destruct (Nat.ltb_spec (length x) 4) as [_|Hfour]; [discriminate|].
  rewrite run_pbind. simpl. intros H. injection H as H.
  exists x, y, n. split; [reflexivity|]. split; [exact Hfour|].
  unfold try_block in H.
  destruct (String.eqb_spec method "logistic") as [->|_].
  - left. split; [reflexivity|].
    destruct (logistic_call lib x y n) as [args|e]; [|discriminate].
    exists args. split; [reflexivity|]. simpl in H.
    destruct (logistic_result lib x y n (curve_fit args)); simpl in H;
      congruence.
  - destruct (String.eqb_spec method "cumulative_normal") as [->|_];
      [|discriminate].
    right. split; [reflexivity|].
    destruct (normal_call lib x y n) as [args|e]; [|discriminate].
    exists args. split; [reflexivity|]. simpl in H.
    destruct (normal_result lib x y n (curve_fit args)); simpl in H;
      congruence.
Qed.

Lemma logistic_result_inv (lib : SciPy) (x y : list Q) (n : list Z)
    (answer : Response) (f : Fit) :
  logistic_result lib x y n answer = Ok (Fitted f) ->
  exists a b c d,
    popt f = [a; b; c; d]
    /\ logistic_threshold lib a b c d x = Ok (threshold_707 f)
    /\ x_data f = x /\ y_data f = y /\ n_trials f = n.
Proof.
  unfold logistic_result. intros H.
  apply bind_ok in H. destruct H as ([po pc] & _ & H).
  apply bind_ok in H. destruct H as (pred & _ & H).
  apply bind_ok in H. destruct H as ([[[a b] c] d] & Hun & H).
  apply bind_ok in H. destruct H as (th & Hth & H).
  injection H as <-. simpl.
  exists a, b, c, d. repeat split; try assumption.
  unfold unpack4 in Hun.
  destruct po as [|a' [|b' [|c' [|d' [|? ?]]]]]; try discriminate.
  injection Hun as -> -> -> ->. reflexivity.
Qed.

Lemma normal_result_inv (lib : SciPy) (x y : list Q) (n : list Z)
    (answer : Response) (f : Fit) :
  normal_result lib x y n answer = Ok (Fitted f) ->
  exists mu sigma,
    popt f = [mu; sigma]
    /\ threshold_707 f = norm_ppf lib (707 # 1000) mu sigma
    /\ x_data f = x /\ y_data f = y /\ n_trials f = n.
Proof.
  unfold normal_result. intros H.
  apply bind_ok in H. destruct H as ([po pc] & _ & H).
  apply bind_ok in H. destruct H as (pred & Hpred & H).
  apply bind_ok in H. destruct H as (mu & Hmu & H).
  apply bind_ok in H. destruct H as (sigma & Hsigma & H).
  injection H as <-. simpl.
  unfold normal_predict in Hpred.
  destruct po as [|mu' [|sigma' [|? ?]]]; try discriminate.
  simpl in Hmu, Hsigma. injection Hmu as <-. injection Hsigma as <-.
  exists mu', sigma'. repeat split; reflexivity.
Qed.



(** C6: when fewer than four unique intensities occur, or the loop keeps
    fewer than four levels, [fit_psychophysical_curve] is the program that
    returns the tuple of seven [None] at once: whatever the optimizer is, no
    call to it is made. *)
Theorem insufficient_levels_no_fit (lib : SciPy)
    (cmpPx_values : list Q) (correct_responses : list bool) (method : string)
    (H : (length (np.sort (np.unique cmpPx_values)) < 4)%nat
         \/ exists x y n,
              fit.levels (np.sort (np.unique cmpPx_values))
                cmpPx_values correct_responses = Ok (x, y, n)
              /\ (length x < 4)%nat) :
  fit_psychophysical_curve lib cmpPx_values correct_responses method
  = Return (Ok AllNone)
  /\ forall curve_fit,
       calls curve_fit
         (fit_psychophysical_curve lib cmpPx_values correct_responses method) = []
       /\ run curve_fit
            (fit_psychophysical_curve lib cmpPx_values correct_responses method)
          = Ok AllNone.
Proof.
  assert (fit_psychophysical_curve lib cmpPx_values correct_responses method
          = Return (Ok AllNone)) as E.
  { unfold fit_psychophysical_curve. cbv zeta.
    destruct (Nat.ltb_spec (length (np.sort (np.unique cmpPx_values))) 4)
      as [_|Hge]; [reflexivity|].
    destruct H as [Hlt|(x & y & n & Hlv & Hlt)]; [lia|].
    rewrite Hlv.
    destruct (Nat.ltb_spec (length x) 4) as [_|Hge']; [reflexivity | lia]. }
  split; [exact E|]. intros curve_fit. rewrite E. split; reflexivity.
Qed.

Lemma insufficient_levels_no_fit_witness :
  fit_psychophysical_curve example_lib
    [1; 1; 2; 2; 3; 3; 4; 5] [true; true; false; true; true; true; true; true]
    "logistic" = Return (Ok AllNone)
  /\ fit_psychophysical_curve example_lib
       [1; 1; 2; 2; 3; 3] [true; true; false; true; true; true]
       "logistic" = Return (Ok AllNone).
Proof.
  split.
  - apply (insufficient_levels_no_fit example_lib
             [1; 1; 2; 2; 3; 3; 4; 5]
             [true; true; false; true; true; true; true; true] "logistic").
    right. exists [1; 2; 3], [2 # 2; 1 # 2; 2 # 2], [2%Z; 2%Z; 2%Z].
    split; [reflexivity | simpl; lia].
  - apply (insufficient_levels_no_fit example_lib
             [1; 1; 2; 2; 3; 3] [true; true; false; true; true; true] "logistic").
    left. vm_compute. lia.
Defined.



(** C10: the loop of [fit_psychophysical_curve] and the loop of
    [simple_threshold_estimate] compute the same three arrays from every pair
    of input arrays; and whenever [fit_psychophysical_curve] returns a fit,
    the arrays in it are the ones that [simple_threshold_estimate] returns. *)
Theorem aggregation_copies_agree (cmpPx_values : list Q)
    (correct_responses : list bool) :
  fit.levels (np.sort (np.unique cmpPx_values)) cmpPx_values correct_responses
  = simple.levels cmpPx_values correct_responses
  /\ forall lib curve_fit method f target,
       run curve_fit
         (fit_psychophysical_curve lib cmpPx_values correct_responses method)
       = Ok (Fitted f) ->
       exists th,
         simple_threshold_estimate cmpPx_values correct_responses target
         = Ok (th, x_data f, y_data f, n_trials f).
Proof.
  split; [reflexivity|].
  intros lib curve_fit method f target H.
  apply fitted_inv in H.
  destruct H as (x & y & n & Hlv & _ & [[_ (args & _ & Hres)]|[_ (args & _ & Hres)]]).
  - apply logistic_result_inv in Hres.
    destruct Hres as (_ & _ & _ & _ & _ & _ & -> & -> & ->).
    apply simple_threshold_estimate_of_levels, Hlv.
  - apply normal_result_inv in Hres.
    destruct Hres as (_ & _ & _ & _ & -> & -> & ->).
    apply simple_threshold_estimate_of_levels, Hlv.
Qed.

Lemma aggregation_copies_agree_witness :
  exists f th,
    run (answer_with [1 # 2; 1; 2; 1])
      (fit_psychophysical_curve example_lib example_cmpPx example_correct
         "logistic") = Ok (Fitted f)
    /\ simple_threshold_estimate example_cmpPx example_correct default_target
       = Ok (th, x_data f, y_data f, n_trials f)
    /\ x_data f = [1; 2; 3; 4; 5].
Proof.
  eexists.
  assert (H : run (answer_with [1 # 2; 1; 2; 1])
                (fit_psychophysical_curve example_lib example_cmpPx
                   example_correct "logistic") = Ok (Fitted _))
    by (vm_compute; reflexivity).
  destruct (proj2 (aggregation_copies_agree example_cmpPx example_correct)
              example_lib (answer_with [1 # 2; 1; 2; 1]) "logistic"%string _
              default_target H) as (th & Hth).
  exists th. split; [exact H|]. split; [exact Hth | reflexivity].
Defined.

(** ** The driver *)

Lemma all_columns_length (dataset_data : list (string * Session)) :
  length (all_cmpPx dataset_data) = length (all_correct dataset_data).
Proof.
  unfold all_cmpPx, all_correct.
  induction dataset_data as [|[filename info] ds IH]; simpl; [reflexivity|].
  rewrite !length_app, !length_map, IH. reflexivity.
Qed.

(** An exception of the optimizer is turned into the tuple of seven [None]. *)
Lemma optimizer_error_all_none (lib : SciPy)
    (curve_fit : CurveFitArgs -> Response)
    (cmpPx_values : list Q) (correct_responses : list bool) (method : string) :
  method = "logistic"%string \/ method = "cumulative_normal"%string ->
  (forall args, exists e, curve_fit args = Raise e) ->
  length cmpPx_values = length correct_responses ->
  run curve_fit (fit_psychophysical_curve lib cmpPx_values correct_responses method)
  = Ok AllNone.
Proof.
  intros Hm Hcf Hlen. unfold fit_psychophysical_curve. cbv zeta.
  destruct (Nat.ltb _ 4); [reflexivity|].
  rewrite fit_levels_simple.
  destruct (levels_total _ _ Hlen) as (x & y & n & ->).
  destruct (Nat.ltb (length x) 4); [reflexivity|].
  rewrite run_pbind. simpl. f_equal. unfold try_block.
  destruct Hm as [-> | ->]; simpl.
  - destruct (logistic_call lib x y n) as [args|e]; [|reflexivity].
    simpl. destruct (Hcf args) as (e & ->). reflexivity.
  - destruct (normal_call lib x y n) as [args|e]; [|reflexivity].
    simpl. destruct (Hcf args) as (e & ->). reflexivity.
Qed.

(** C7, as stated, fails on a dataset without trials: the fit signals
    insufficient data, and [analyze_dataset] raises the [ValueError] of
    [np.min] on an empty array instead of returning a record. *)
Lemma empty_dataset_raises :
  run no_convergence
    (fit_psychophysical_curve example_lib (all_cmpPx []) (all_correct [])
       "logistic") = Ok AllNone
  /\ run no_convergence (analyze_dataset example_lib "bricks004" [] "logistic")
     = Raise ValueError
  /\ run no_convergence
       (analyze_dataset example_lib "bricks004"
          [("2AFC_P_20251020_003915.csv"%string,
            {| data := []; session_datetime := example_datetime |})]
          "logistic")
     = Raise ValueError.
Proof. repeat split. Qed.

(** C7 (as amended): for every dataset with at least one trial on which the
    fit returns the tuple of seven [None] (insufficient data, or an exception
    of the optimizer), [analyze_dataset] returns a record: it carries the
    interpolated threshold and the level arrays of
    [simple_threshold_estimate], the number of trials, the overall accuracy,
    the least and greatest intensity and the per-session metadata; its fit
    parameters and R-squared are [None] and its fitted threshold is [nan]. *)
Theorem fit_failure_still_reports (lib : SciPy)
    (curve_fit : CurveFitArgs -> Response)
    (dataset_name : string) (dataset_data : list (string * Session))
    (method : string)
    (Htrials : all_cmpPx dataset_data <> [])
    (Hfail : run curve_fit
               (fit_psychophysical_curve lib (all_cmpPx dataset_data)
                  (all_correct dataset_data) method)
             = Ok AllNone) :
  exists lo hi th x y n,
    np.min (all_cmpPx dataset_data) = Ok lo
    /\ np.max (all_cmpPx dataset_data) = Ok hi
    /\ simple_threshold_estimate (all_cmpPx dataset_data)
         (all_correct dataset_data) default_target = Ok (th, x, y, n)
    /\ run curve_fit (analyze_dataset lib dataset_name dataset_data method)
       = Ok {| ar_dataset := dataset_name;
               ar_n_trials := length (all_cmpPx dataset_data);
               ar_overall_accuracy := np.mean_bool (all_correct dataset_data);
               ar_stimulus_range := (lo, hi);
               ar_simple_threshold := th;
               ar_fit_params := None;
               ar_r_squared := None;
               ar_threshold_707 := NaN;
               ar_x_data := x;
               ar_y_data := y;
               ar_n_trials_per_level := n;
               ar_session_info := session_info dataset_data;
               ar_method := method |}.
Proof.
  destruct (min_defined _ Htrials) as (lo & Hlo).
  destruct (max_defined _ Htrials) as (hi & Hhi).
  destruct (simple_threshold_estimate_total _ _ default_target
              (all_columns_length dataset_data)) as (th & x & y & n & Hsimple).
  exists lo, hi, th, x, y, n.
  split; [exact Hlo|]. split; [exact Hhi|]. split; [exact Hsimple|].
  unfold analyze_dataset. cbv zeta.
  rewrite Hlo, Hhi, Hsimple. simpl bind. cbv beta iota.
  rewrite run_pbind, Hfail. reflexivity.
Qed.

Lemma fit_failure_still_reports_witness :
  exists lo hi th x y n,
    np.min (all_cmpPx example_dataset) = Ok lo
    /\ np.max (all_cmpPx example_dataset) = Ok hi
    /\ simple_threshold_estimate (all_cmpPx example_dataset)
         (all_correct example_dataset) default_target = Ok (th, x, y, n)
    /\ run no_convergence
         (analyze_dataset example_lib "bricks004" example_dataset "logistic")
       = Ok {| ar_dataset := "bricks004";
               ar_n_trials := length (all_cmpPx example_dataset);
               ar_overall_accuracy := np.mean_bool (all_correct example_dataset);
               ar_stimulus_range := (lo, hi);
               ar_simple_threshold := th;
               ar_fit_params := None;
               ar_r_squared := None;
               ar_threshold_707 := NaN;
               ar_x_data := x;
               ar_y_data := y;
               ar_n_trials_per_level := n;
               ar_session_info := session_info example_dataset;
               ar_method := "logistic" |}.
Proof.
  apply (fit_failure_still_reports example_lib no_convergence "bricks004"
           example_dataset "logistic").
  - vm_compute. discriminate.
  - vm_compute. reflexivity.
Defined.

(** * Further properties of the aggregation *)

Lemma correct_le_trials (cmpPx_values : list Q) (correct_responses : list bool) (v : Q) :
  (0 <= correct_count cmpPx_values correct_responses v <= trial_count cmpPx_values v)%Z.
Proof.
  unfold correct_count, trial_count. split; [lia|]. apply inj_le.
  revert correct_responses.
  induction cmpPx_values as [|w l IH]; intros [|c cs]; simpl; try lia.
  specialize (IH cs).
  destruct (Qeq_bool w v), c; simpl; lia.
Qed.

Lemma proportion_unit (cmpPx_values : list Q) (correct_responses : list bool) (v : Q) :
  qualifies cmpPx_values v = true ->
  0 <= proportion cmpPx_values correct_responses v
  /\ proportion cmpPx_values correct_responses v <= 1.
Proof.
  unfold qualifies, proportion. intros Hq. apply Z.leb_le in Hq.
  pose proof (correct_le_trials cmpPx_values correct_responses v) as [H0 H1].
  assert (0 < inject_Z (trial_count cmpPx_values v)) as Hpos.
  { change 0 with (inject_Z 0). rewrite <- Zlt_Qlt. lia. }
  split.
  - apply Qle_shift_div_l; [exact Hpos|]. rewrite Qmult_0_l.
    change 0 with (inject_Z 0). rewrite <- Zle_Qle. exact H0.
  - apply Qle_shift_div_r; [exact Hpos|]. rewrite Qmult_1_l.
    rewrite <- Zle_Qle. exact H1.
Qed.

(** X1: every proportion that the aggregation loop emits lies between 0 and
    1. *)
Theorem proportions_in_unit_interval (cmpPx_values : list Q)
    (correct_responses : list bool) (x y : list Q) (n : list Z)
    (H : simple.levels cmpPx_values correct_responses = Ok (x, y, n)) :
  Forall (fun p => 0 <= p /\ p <= 1) y.
Proof.
  apply levels_ok in H. destruct H as (Hx & -> & _).
  apply Forall_forall. intros p Hp. apply in_map_iff in Hp.
  destruct Hp as (v & <- & Hv). apply proportion_unit.
  rewrite Hx in Hv. apply filter_In in Hv. apply Hv.
Qed.

Lemma proportions_in_unit_interval_witness :
  Forall (fun p => 0 <= p /\ p <= 1) [1 # 2; 2 # 2; 2 # 3].
Proof.
  apply (proportions_in_unit_interval [1; 1; 2; 2; 3; 3; 3]
           [true; false; true; true; true; true; false]
           [1; 2; 3] [1 # 2; 2 # 2; 2 # 3] [2%Z; 2%Z; 3%Z]).
  reflexivity.
Defined.

Lemma insert_unique_In (v u : Q) (l : list Q) :
  In u (np.insert_unique v l) -> u = v \/ In u l.
Proof.
  induction l as [|h t IH]; simpl.
  - intros [<-|[]]. left. reflexivity.
  - destruct (v ?= h); simpl.
    + intros H. right. exact H.
    + intros [<-|H]; [left; reflexivity | right; exact H].
    + intros [<-|H]; [right; left; reflexivity|].
      destruct (IH H) as [->|Hin]; [left; reflexivity | right; right; exact Hin].
Qed.

Lemma insert_unique_keeps (v u : Q) (l : list Q) :
  In u l -> In u (np.insert_unique v l).
Proof.
  induction l as [|h t IH]; simpl; [intros []|].
  intros Hin. destruct (v ?= h); simpl.
  - exact Hin.
  - right. exact Hin.
  - destruct Hin as [<-|Hin]; [left; reflexivity | right; apply IH, Hin].
Qed.

Lemma insert_unique_has (v : Q) (l : list Q) :
  exists u, In u (np.insert_unique v l) /\ u == v.
Proof.
  induction l as [|h t IH]; simpl.
  - exists v. split; [left; reflexivity | reflexivity].
  - destruct (v ?= h) eqn:E.
    + apply Qeq_alt in E. exists h. split; [left; reflexivity | symmetry; exact E].
    + exists v. split; [left; reflexivity | reflexivity].
    + destruct IH as (u & Hu & Heq). exists u. split; [right; exact Hu | exact Heq].
Qed.

Lemma unique_from (a acc : list Q) (u : Q) :
  In u (fold_left (fun acc v => np.insert_unique v acc) a acc) ->
  In u a \/ In u acc.
Proof.
  revert acc. induction a as [|v a IH]; intros acc; simpl; [auto|].
  intros H. destruct (IH _ H) as [Hin|Hin]; [left; right; exact Hin|].
  destruct (insert_unique_In _ _ _ Hin) as [->|Hacc]; [left; left; reflexivity|].
  right. exact Hacc.
Qed.

Lemma unique_keeps (a acc : list Q) (u : Q) :
  In u acc -> In u (fold_left (fun acc v => np.insert_unique v acc) a acc).
Proof.
  revert acc. induction a as [|v a IH]; intros acc Hin; simpl; [exact Hin|].
  apply IH, insert_unique_keeps, Hin.
Qed.

Lemma unique_has (a acc : list Q) (v : Q) :
  In v a ->
  exists u, In u (fold_left (fun acc v => np.insert_unique v acc) a acc) /\ u == v.
Proof.
  revert acc. induction a as [|w a IH]; intros acc; simpl; [intros []|].
  intros [->|Hin]; [|apply IH, Hin].
  destruct (insert_unique_has v acc) as (u & Hu & Heq).
  exists u. split; [apply unique_keeps, Hu | exact Heq].
Qed.

Lemma trial_count_proper (cmpPx_values : list Q) (v w : Q) :
  v == w -> trial_count cmpPx_values v = trial_count cmpPx_values w.
Proof.
  intros Heq. unfold trial_count. do 2 f_equal.
  apply filter_ext. intros u. rewrite Heq. reflexivity.
Qed.

Lemma trial_count_occurs (cmpPx_values : list Q) (v : Q) :
  (0 < trial_count cmpPx_values v)%Z ->
  exists w, In w cmpPx_values /\ w == v.
Proof.
  unfold trial_count. intros H.
  destruct (filter (fun w => Qeq_bool w v) cmpPx_values) as [|w l] eqn:E;
    [simpl in H; lia|].
  assert (In w (filter (fun w => Qeq_bool w v) cmpPx_values)) as Hin
    by (rewrite E; left; reflexivity).
  apply filter_In in Hin. destruct Hin as [Hin Hw].
  exists w. split; [exact Hin | apply Qeq_bool_iff, Hw].
Qed.

(** X2: the aggregation loop emits a level for exactly the intensities that
    occur in at least two trials: every emitted intensity is a value of the
    input column, and a value has a level equal to it if and only if at least
    two trials have that intensity. *)
Theorem levels_are_repeated_intensities (cmpPx_values : list Q)
    (correct_responses : list bool) (x y : list Q) (n : list Z)
    (H : simple.levels cmpPx_values correct_responses = Ok (x, y, n)) :
  (forall xi, In xi x -> In xi cmpPx_values)
  /\ forall v, (exists xi, In xi x /\ xi == v)
               <-> (2 <= trial_count cmpPx_values v)%Z.
Proof.
  apply levels_ok in H. destruct H as (Hx & _ & _).
  rewrite sort_ascending_id in Hx by apply unique_ascending.
  split.
  - intros xi Hxi. rewrite Hx in Hxi. apply filter_In in Hxi.
    destruct Hxi as [Hu _]. unfold np.unique in Hu.
    apply unique_from in Hu. destruct Hu as [Hu|[]]. exact Hu.
  - intros v. split.
    + intros (xi & Hxi & Heq). rewrite Hx in Hxi. apply filter_In in Hxi.
      destruct Hxi as [_ Hq]. unfold qualifies in Hq. apply Z.leb_le in Hq.
      rewrite <- (trial_count_proper _ _ _ Heq). exact Hq.
    + intros Htwo.
      destruct (trial_count_occurs cmpPx_values v) as (w & Hw & Hwv); [lia|].
      destruct (unique_has cmpPx_values [] w Hw) as (u & Hu & Huw).
      exists u. split; [|rewrite Huw; exact Hwv].
      rewrite Hx. apply filter_In. split; [exact Hu|].
      unfold qualifies. apply Z.leb_le.
      rewrite (trial_count_proper _ u v); [exact Htwo|].
      rewrite Huw. exact Hwv.
Qed.

Lemma levels_are_repeated_intensities_witness :
  (forall xi, In xi [1; 3] -> In xi [3; 1; 3; 2; 1; 3])
  /\ forall v, (exists xi, In xi [1; 3] /\ xi == v)
               <-> (2 <= trial_count [3; 1; 3; 2; 1; 3]%Q v)%Z.
Proof.
  apply (levels_are_repeated_intensities [3; 1; 3; 2; 1; 3]
           [true; false; true; true; true; false]
           [1; 3] [1 # 2; 2 # 3] [2%Z; 3%Z]).
  reflexivity.
Defined.

(** * Further properties of the interpolated threshold *)

(** X3: on two columns of one length [simple_threshold_estimate] never
    raises, and the threshold it returns is [nan] exactly when fewer than
    three levels were kept. *)
Theorem estimate_nan_iff_few_levels (cmpPx_values : list Q)
    (correct_responses : list bool) (target : Q)
    (Hlen : length cmpPx_values = length correct_responses) :
  exists th x y n,
    simple_threshold_estimate cmpPx_values correct_responses target
    = Ok (th, x, y, n)
    /\ simple.levels cmpPx_values correct_responses = Ok (x, y, n)
    /\ (th = NaN <-> (length x < 3)%nat).
Proof.
  destruct (levels_total _ _ Hlen) as (x & y & n & Hlv).
  pose proof (levels_length _ _ _ _ _ Hlv) as [Hy _].
  unfold simple_threshold_estimate, threshold_of_levels. rewrite Hlv. simpl.
  destruct (Nat.ltb_spec (length x) 3) as [Hlt|Hge].
  - exists NaN, x, y, n. simpl. repeat split; auto.
  - assert (x <> []) as Hne by (destruct x; [simpl in Hge; lia | discriminate]).
    destruct (threshold_branch_total x y target (eq_sym Hy) Hne) as (b & th & ->).
    exists (Num th), x, y, n. simpl. repeat split; [discriminate | lia].
Qed.

Lemma estimate_nan_iff_few_levels_witness :
  exists th x y n,
    simple_threshold_estimate [1; 1; 2; 2] [false; false; true; true]
      default_target = Ok (th, x, y, n)
    /\ simple.levels [1; 1; 2; 2] [false; false; true; true] = Ok (x, y, n)
    /\ (th = NaN <-> (length x < 3)%nat).
Proof.
  apply (estimate_nan_iff_few_levels [1; 1; 2; 2] [false; false; true; true]).
  reflexivity.
Defined.

Lemma first_true_any (m : list bool) (i : nat) :
  np.first_true m = Ok i -> np.any m = true.
Proof.
  revert i. unfold np.any. induction m as [|b m IH]; intros i H; simpl in H;
    [discriminate|].
  destruct b; simpl; [reflexivity|].
  apply bind_ok in H. destruct H as (k & Hk & _). apply (IH k Hk).
Qed.

Lemma first_true_app (m m' : list bool) (i : nat) :
  np.first_true m = Ok i -> np.first_true (m ++ m') = Ok i.
Proof.
  revert i. induction m as [|b m IH]; intros i H; simpl in H; [discriminate|].
  destruct b; simpl; [exact H|].
  apply bind_ok in H. destruct H as (k & Hk & H). rewrite (IH k Hk). exact H.
Qed.

Lemma any_app (m m' : list bool) : np.any (m ++ m') = np.any m || np.any m'.
Proof. apply existsb_app. Qed.

Lemma item_app {A : Type} (a a' : list A) (i : nat) :
  (i < length a)%nat -> np.item (a ++ a') i = np.item a i.
Proof.
  intros Hi. unfold np.item. rewrite nth_error_app1 by exact Hi. reflexivity.
Qed.

Lemma at_or_above_first_true (y : list Q) (target : Q) (i : nat) :
  first_at_or_above y target i ->
  np.first_true (map (fun v => Qge_bool v target) y) = Ok i.
Proof.
  revert i. induction y as [|a y IH]; intros i [(yi & Hyi & Hle) Hbefore].
  - destruct i; discriminate.
  - destruct i as [|i]; simpl in Hyi.
    + injection Hyi as ->. apply Qge_bool_iff in Hle. simpl. rewrite Hle.
      reflexivity.
    + assert (Qge_bool a target = false) as Ha.
      { apply Qge_bool_false. apply (Hbefore 0%nat a); [lia | reflexivity]. }
      simpl. rewrite Ha. rewrite (IH i); [reflexivity|].
      split; [eauto|]. intros j yj Hj Hyj.
      apply (Hbefore (S j) yj); [lia | exact Hyj].
Qed.

(** X5: when the first level at or above the target is not the first level,
    the threshold depends only on the levels up to it: appending further
    levels, whatever their proportions, leaves the result unchanged. *)
Theorem later_levels_ignored (x y x' y' : list Q) (target : Q) (p : nat)
    (Hlen : length x = length y)
    (Hfirst : first_at_or_above y target (S p)) :
  threshold_branch (x ++ x') (y ++ y') target = threshold_branch x y target.
Proof.
  apply at_or_above_first_true in Hfirst.
  pose proof (first_true_any _ _ Hfirst) as Habove.
  pose proof (first_true_spec _ _ Hfirst) as [Hat Hbefore].
  assert (S p < length y)%nat as Hlt.
  { rewrite <- (length_map (fun v => Qge_bool v target)).
    apply nth_error_Some. congruence. }
  assert (np.any (map (fun v => Qlt_bool v target) y) = true) as Hbelow.
  { apply any_map_true. apply Exists_exists.
    specialize (Hbefore p (Nat.lt_succ_diag_r p)).
    rewrite nth_error_map in Hbefore.
    destruct (nth_error y p) as [yp|] eqn:Hyp; [|discriminate].
    simpl in Hbefore. injection Hbefore as Hb.
    exists yp. split; [eapply nth_error_In; exact Hyp|].
    apply Qlt_bool_iff, Qge_bool_false, Hb. }
  unfold threshold_branch. cbv zeta.
  rewrite !map_app, !any_app, Hbelow, Habove. simpl orb. simpl negb.
  rewrite (first_true_app _ _ _ Hfirst), Hfirst. simpl bind.
  rewrite !item_app by lia. reflexivity.
Qed.

Lemma later_levels_ignored_witness :
  threshold_branch ([400; 450; 500] ++ [550; 600])
    ([5 # 10; 6 # 10; 75 # 100] ++ [2 # 10; 1 # 10]) (707 # 1000)
  = threshold_branch [400; 450; 500] [5 # 10; 6 # 10; 75 # 100] (707 # 1000).
Proof.
  apply (later_levels_ignored [400; 450; 500] [5 # 10; 6 # 10; 75 # 100]
           [550; 600] [2 # 10; 1 # 10] (707 # 1000) 1).
  - reflexivity.
  - split.
    + exists (75 # 100). split; [reflexivity | vm_compute; discriminate].
    + intros j yj Hj Hyj.
      destruct j as [|[|j]]; simpl in Hyj; try lia;
        injection Hyj as <-; reflexivity.
Defined.

(** * The interpolated threshold in binary64 *)

(** ** Rounding *)

(** The rounding on some numbers: the literal [0.1], two ties between
    neighbouring integers above [2^53], and the halfway points between 0,
    the smallest subnormal number and the next one. *)
Lemma round_examples :
  binary64.round (1 # 10) == 3602879701896397 # 36028797018963968
  /\ binary64.round (inject_Z (2 ^ 53 + 1)) == inject_Z (2 ^ 53)
  /\ binary64.round (inject_Z (2 ^ 53 + 3)) == inject_Z (2 ^ 53 + 4)
  /\ binary64.round (binary64.pow2 (- 1075)) == 0
  /\ binary64.round (3 * binary64.pow2 (- 1075)) == binary64.pow2 (- 1073).
Proof. repeat split; vm_compute; reflexivity. Qed.

Lemma rne_bounds (s : Q) : (Qfloor s <= binary64.rne s <= Qfloor s + 1)%Z.
Proof.
  unfold binary64.rne. cbv zeta.
  destruct (Qcompare _ _); [destruct (Z.even _)| |]; lia.
Qed.

Lemma rne_Z (n : Z) : binary64.rne (inject_Z n) = n.
Proof.
  unfold binary64.rne. cbv zeta. rewrite Qfloor_Z.
  destruct (Qcompare_spec (inject_Z n - inject_Z n) (1 # 2)) as [E|L|G];
    [exfalso; lra|reflexivity|exfalso; lra].
Qed.

Lemma rne_mono (p q : Q) : p <= q -> (binary64.rne p <= binary64.rne q)%Z.
Proof.
  intros H. pose proof (Qfloor_resp_le _ _ H) as Hf.
  destruct (Z.eq_dec (Qfloor p) (Qfloor q)) as [E|N].
  - unfold binary64.rne. cbv zeta. rewrite E.
    destruct (Qcompare_spec (p - inject_Z (Qfloor q)) (1 # 2)),
      (Qcompare_spec (q - inject_Z (Qfloor q)) (1 # 2));
      try lia; try (destruct (Z.even _); lia); exfalso; lra.
  - pose proof (rne_bounds p). pose proof (rne_bounds q). lia.
Qed.

Lemma pow2_pos (e : Z) : 0 < binary64.pow2 e.
Proof. apply Qpower_0_lt. reflexivity. Qed.

Lemma pow2_add (a b : Z) : binary64.pow2 (a + b) == binary64.pow2 a * binary64.pow2 b.
Proof. apply Qpower_plus. discriminate. Qed.

Lemma pow2_le (a b : Z) : (a <= b)%Z -> binary64.pow2 a <= binary64.pow2 b.
Proof. intros H. apply Qpower_le_compat_l; [exact H|discriminate]. Qed.

Lemma pow2_lt (a b : Z) : (a < b)%Z -> binary64.pow2 a < binary64.pow2 b.
Proof. intros H. apply Qpower_lt_compat_l; [exact H|reflexivity]. Qed.

Lemma pow2_lt_inv (a b : Z) : binary64.pow2 a < binary64.pow2 b -> (a < b)%Z.
Proof. intros H. apply (Qpower_lt_compat_l_inv 2); [exact H|reflexivity]. Qed.

Lemma pow2_Z (e : Z) : (0 <= e)%Z -> binary64.pow2 e == inject_Z (2 ^ e).
Proof. intros H. symmetry. apply (Zpower_Qpower 2 e H). Qed.

Lemma ilog2_spec (q : Q) :
  0 < q -> binary64.pow2 (binary64.ilog2 q) <= q /\ q < binary64.pow2 (binary64.ilog2 q + 1).
Proof.
  intros Hq. destruct q as [n d].
  assert (0 < n)%Z as Hn by (unfold Qlt in Hq; simpl in Hq; lia).
  unfold binary64.ilog2. cbn [Qnum Qden].
  set (ln := Z.log2 n). set (ld := Z.log2 (Zpos d)).
  destruct (Z.log2_spec n Hn) as [Hn1 Hn2].
  destruct (Z.log2_spec (Zpos d) (Pos2Z.is_pos d)) as [Hd1 Hd2].
  fold ln in Hn1, Hn2. fold ld in Hd1, Hd2.
  pose proof (Z.log2_nonneg n) as Hln. pose proof (Z.log2_nonneg (Zpos d)) as Hld.
  fold ln in Hln. fold ld in Hld.
  assert ((n # d) * inject_Z (Zpos d) == inject_Z n) as Hnd
    by (unfold Qeq; simpl; lia).
  assert (binary64.pow2 (ln - ld - 1) <= n # d) as A.
  { apply (Qmult_le_r _ _ (binary64.pow2 (ld + 1))); [apply pow2_pos|].
    rewrite <- pow2_add. replace (ln - ld - 1 + (ld + 1))%Z with ln by lia.
    apply Qle_trans with (inject_Z n).
    - rewrite pow2_Z by lia. rewrite <- Zle_Qle. exact Hn1.
    - rewrite <- Hnd. apply Qmult_le_l; [exact Hq|].
      rewrite pow2_Z by lia. rewrite <- Zle_Qle.
      replace (ld + 1)%Z with (Z.succ ld) by lia. lia. }
  assert (n # d < binary64.pow2 (ln - ld + 1)) as B.
  { apply (Qmult_lt_r _ _ (binary64.pow2 ld)); [apply pow2_pos|].
    rewrite <- pow2_add. replace (ln - ld + 1 + ld)%Z with (Z.succ ln) by lia.
    apply Qle_lt_trans with (inject_Z n).
    - rewrite <- Hnd. apply Qmult_le_l; [exact Hq|].
      rewrite pow2_Z by lia. rewrite <- Zle_Qle. exact Hd1.
    - rewrite pow2_Z by lia. rewrite <- Zlt_Qlt. exact Hn2. }
  destruct (Qcompare_spec (n # d) (binary64.pow2 (ln - ld))) as [E|L|G].
  - split; [rewrite E; apply Qle_refl|]. rewrite E. apply pow2_lt. lia.
  - split; [exact A|]. replace (ln - ld - 1 + 1)%Z with (ln - ld)%Z by lia. exact L.
  - split; [apply Qlt_le_weak, G|exact B].
Qed.

Lemma ilog2_mono (p q : Q) : 0 < p -> p <= q -> (binary64.ilog2 p <= binary64.ilog2 q)%Z.
Proof.
  intros Hp Hpq.
  destruct (ilog2_spec p Hp) as [Hp1 _].
  destruct (ilog2_spec q (Qlt_le_trans _ _ _ Hp Hpq)) as [_ Hq2].
  assert (binary64.pow2 (binary64.ilog2 p) < binary64.pow2 (binary64.ilog2 q + 1)) as H
    by (eapply Qle_lt_trans; [exact Hp1|]; eapply Qle_lt_trans; eassumption).
  apply pow2_lt_inv in H. lia.
Qed.

Lemma round_pos_nonneg (q : Q) : 0 < q -> 0 <= binary64.round_pos q.
Proof.
  intros Hq. unfold binary64.round_pos. cbv zeta.
  apply Qmult_le_0_compat; [|apply Qlt_le_weak, pow2_pos].
  change 0 with (inject_Z 0). rewrite <- Zle_Qle.
  rewrite <- (rne_Z 0). apply rne_mono.
  apply Qmult_le_0_compat; [apply Qlt_le_weak, Hq|apply Qlt_le_weak, pow2_pos].
Qed.

Lemma round_pos_mono (p q : Q) : 0 < p -> p <= q -> binary64.round_pos p <= binary64.round_pos q.
Proof.
  intros Hp Hpq. pose proof (Qlt_le_trans _ _ _ Hp Hpq) as Hq.
  pose proof (ilog2_mono p q Hp Hpq) as Hlog.
  destruct (Z.eq_dec (binary64.exponent p) (binary64.exponent q)) as [E|N].
  - unfold binary64.round_pos. cbv zeta. rewrite E.
    apply Qmult_le_compat_r; [|apply Qlt_le_weak, pow2_pos].
    rewrite <- Zle_Qle. apply rne_mono.
    apply Qmult_le_compat_r; [exact Hpq|apply Qlt_le_weak, pow2_pos].
  - assert (binary64.exponent p < binary64.exponent q)%Z as Hlt by (unfold binary64.exponent in *; lia).
    assert (binary64.exponent q = binary64.ilog2 q - 52)%Z as Eq by (unfold binary64.exponent in *; lia).
    assert (binary64.ilog2 p - 52 <= binary64.exponent p)%Z as Ep by (unfold binary64.exponent; lia).
    destruct (ilog2_spec p Hp) as [_ Hp2]. destruct (ilog2_spec q Hq) as [Hq1 _].
    apply Qle_trans with (binary64.pow2 (binary64.exponent p + 53)).
    + unfold binary64.round_pos. cbv zeta.
      rewrite (Z.add_comm (binary64.exponent p) 53), pow2_add.
      apply Qmult_le_compat_r; [|apply Qlt_le_weak, pow2_pos].
      rewrite (pow2_Z 53) by lia. rewrite <- Zle_Qle.
      rewrite <- (rne_Z (2 ^ 53)). apply rne_mono.
      rewrite <- (pow2_Z 53) by lia.
      apply (Qmult_le_r _ _ (binary64.pow2 (binary64.exponent p))); [apply pow2_pos|].
      rewrite <- Qmult_assoc, <- !pow2_add.
      replace (- binary64.exponent p + binary64.exponent p)%Z with 0%Z by lia.
      change (binary64.pow2 0) with 1. rewrite Qmult_1_r.
      apply Qlt_le_weak. eapply Qlt_le_trans; [exact Hp2|]. apply pow2_le. lia.
    + apply Qle_trans with (binary64.pow2 (binary64.exponent q + 52)); [apply pow2_le; lia|].
      unfold binary64.round_pos. cbv zeta.
      rewrite (Z.add_comm (binary64.exponent q) 52), pow2_add.
      apply Qmult_le_compat_r; [|apply Qlt_le_weak, pow2_pos].
      rewrite (pow2_Z 52) by lia. rewrite <- Zle_Qle.
      rewrite <- (rne_Z (2 ^ 52)) at 1. apply rne_mono.
      rewrite <- (pow2_Z 52) by lia.
      apply (Qmult_le_r _ _ (binary64.pow2 (binary64.exponent q))); [apply pow2_pos|].
      rewrite <- Qmult_assoc, <- !pow2_add.
      replace (- binary64.exponent q + binary64.exponent q)%Z with 0%Z by lia.
      change (binary64.pow2 0) with 1. rewrite Qmult_1_r.
      eapply Qle_trans; [|exact Hq1]. apply pow2_le. lia.
Qed.

Lemma round_nonneg (q : Q) : 0 <= q -> 0 <= binary64.round q.
Proof.
  intros H. unfold binary64.round.
  destruct (Qcompare_spec q 0) as [E|L|G];
    [apply Qle_refl|exfalso; lra|apply round_pos_nonneg, G].
Qed.

Lemma round_mono (p q : Q) : p <= q -> binary64.round p <= binary64.round q.
Proof.
  intros H. unfold binary64.round.
  destruct (Qcompare_spec p 0) as [Ep|Lp|Gp], (Qcompare_spec q 0) as [Eq|Lq|Gq];
    try (exfalso; lra).
  - apply Qle_refl.
  - apply round_pos_nonneg, Gq.
  - pose proof (round_pos_nonneg (- p) ltac:(lra)). lra.
  - pose proof (round_pos_mono (- q) (- p) ltac:(lra) ltac:(lra)). lra.
  - pose proof (round_pos_nonneg (- p) ltac:(lra)).
    pose proof (round_pos_nonneg q Gq). lra.
  - apply round_pos_mono; assumption.
Qed.

Lemma rne_proper (p q : Q) : p == q -> binary64.rne p = binary64.rne q.
Proof.
  intros H. apply Z.le_antisymm; apply rne_mono; rewrite H; apply Qle_refl.
Qed.

Lemma ilog2_unique (q : Q) (k : Z) :
  0 < q -> binary64.pow2 k <= q -> q < binary64.pow2 (k + 1) -> binary64.ilog2 q = k.
Proof.
  intros Hq Hlo Hhi. destruct (ilog2_spec q Hq) as [Hl Hh].
  assert (binary64.pow2 (binary64.ilog2 q) < binary64.pow2 (k + 1)) as H1
    by (eapply Qle_lt_trans; eassumption).
  assert (binary64.pow2 k < binary64.pow2 (binary64.ilog2 q + 1)) as H2
    by (eapply Qle_lt_trans; eassumption).
  apply pow2_lt_inv in H1, H2. lia.
Qed.

Lemma scaled_bounds (q : Q) :
  0 < q ->
  q * binary64.pow2 (- binary64.exponent q) < binary64.pow2 53
  /\ ((- 1074 < binary64.exponent q)%Z -> binary64.pow2 52 <= q * binary64.pow2 (- binary64.exponent q)).
Proof.
  intros Hq. destruct (ilog2_spec q Hq) as [Hl Hh]. split.
  - apply (Qmult_lt_r _ _ (binary64.pow2 (binary64.exponent q))); [apply pow2_pos|].
    rewrite <- Qmult_assoc, <- !pow2_add.
    replace (- binary64.exponent q + binary64.exponent q)%Z with 0%Z by lia.
    change (binary64.pow2 0) with 1. rewrite Qmult_1_r.
    eapply Qlt_le_trans; [exact Hh|]. apply pow2_le. unfold binary64.exponent. lia.
  - intros He. apply (Qmult_le_r _ _ (binary64.pow2 (binary64.exponent q))); [apply pow2_pos|].
    rewrite <- Qmult_assoc, <- !pow2_add.
    replace (- binary64.exponent q + binary64.exponent q)%Z with 0%Z by lia.
    change (binary64.pow2 0) with 1. rewrite Qmult_1_r.
    eapply Qle_trans; [|exact Hl]. apply pow2_le. unfold binary64.exponent in *. lia.
Qed.

Lemma mantissa_bounds (q : Q) :
  0 < q ->
  (0 <= binary64.rne (q * binary64.pow2 (- binary64.exponent q)) <= 2 ^ 53)%Z
  /\ ((- 1074 < binary64.exponent q)%Z -> (2 ^ 52 <= binary64.rne (q * binary64.pow2 (- binary64.exponent q)))%Z).
Proof.
  intros Hq. destruct (scaled_bounds q Hq) as [Hhi Hlo]. split; [split|].
  - rewrite <- (rne_Z 0). apply rne_mono.
    apply Qmult_le_0_compat; apply Qlt_le_weak; [exact Hq|apply pow2_pos].
  - rewrite <- (rne_Z (2 ^ 53)). apply rne_mono.
    rewrite <- (pow2_Z 53) by lia. apply Qlt_le_weak, Hhi.
  - intros He. rewrite <- (rne_Z (2 ^ 52)). apply rne_mono.
    rewrite <- (pow2_Z 52) by lia. apply Hlo, He.
Qed.

(** A number [m * 2^e] with at most 53 bits in [m], and with exactly 53 when
    [e] is not the least binary64.exponent, is its own rounding. *)
Lemma round_pos_fix (m e : Z) :
  (0 < m <= 2 ^ 53)%Z -> (- 1074 <= e)%Z ->
  ((- 1074 < e)%Z -> (2 ^ 52 <= m)%Z) ->
  binary64.round_pos (inject_Z m * binary64.pow2 e) == inject_Z m * binary64.pow2 e.
Proof.
  intros [Hm0 Hm] He Hnormal.
  set (r := inject_Z m * binary64.pow2 e).
  assert (0 < r) as Hr.
  { unfold r. apply Qmult_lt_0_compat; [|apply pow2_pos].
    change 0 with (inject_Z 0). rewrite <- Zlt_Qlt. exact Hm0. }
  destruct (Z.log2_spec m Hm0) as [Hl Hh].
  pose proof (Z.log2_nonneg m) as HL.
  set (L := Z.log2 m) in *.
  assert (binary64.ilog2 r = L + e)%Z as Hlog.
  { apply ilog2_unique; [exact Hr| |].
    - unfold r. rewrite pow2_add.
      apply Qmult_le_compat_r; [|apply Qlt_le_weak, pow2_pos].
      rewrite pow2_Z by lia. rewrite <- Zle_Qle. exact Hl.
    - unfold r. replace (L + e + 1)%Z with (Z.succ L + e)%Z by lia.
      rewrite pow2_add. apply Qmult_lt_r; [apply pow2_pos|].
      rewrite pow2_Z by lia. rewrite <- Zlt_Qlt. exact Hh. }
  assert (L <= 53)%Z as HL53.
  { destruct (Z.le_gt_cases L 53) as [C|C]; [exact C|].
    assert (2 ^ 54 <= 2 ^ L)%Z by (apply Z.pow_le_mono_r; lia). lia. }
  destruct (Z.eq_dec m (2 ^ 53)) as [Etop|Ntop].
  - assert (L = 53)%Z as ->.
    { unfold L. rewrite Etop. apply Z.log2_pow2. lia. }
    assert (binary64.exponent r = e + 1)%Z as Hexp by (unfold binary64.exponent; lia).
    unfold binary64.round_pos. cbv zeta. rewrite Hexp.
    assert (r * binary64.pow2 (- (e + 1)) == inject_Z (2 ^ 52)) as Hs.
    { unfold r. rewrite Etop. rewrite <- (pow2_Z 53), <- (pow2_Z 52) by lia.
      rewrite <- !pow2_add. replace (53 + e + - (e + 1))%Z with 52%Z by lia.
      reflexivity. }
    rewrite (rne_proper _ _ Hs), rne_Z.
    unfold r. rewrite Etop. rewrite <- (pow2_Z 53), <- (pow2_Z 52) by lia.
    rewrite <- !pow2_add. replace (52 + (e + 1))%Z with (53 + e)%Z by lia.
    reflexivity.
  - assert (L <= 52)%Z as HL52.
    { destruct (Z.le_gt_cases L 52) as [C|C]; [exact C|].
      assert (2 ^ 53 <= 2 ^ L)%Z by (apply Z.pow_le_mono_r; lia). lia. }
    assert (binary64.exponent r = e) as Hexp.
    { unfold binary64.exponent. rewrite Hlog.
      destruct (Z.eq_dec e (- 1074)) as [->|Hne]; [lia|].
      assert (2 ^ 52 <= m)%Z as Hbig by (apply Hnormal; lia).
      assert (52 <= L)%Z.
      { destruct (Z.le_gt_cases 52 L) as [C|C]; [exact C|].
        assert (2 ^ Z.succ L <= 2 ^ 52)%Z by (apply Z.pow_le_mono_r; lia). lia. }
      lia. }
    unfold binary64.round_pos. cbv zeta. rewrite Hexp.
    assert (r * binary64.pow2 (- e) == inject_Z m) as Hs.
    { unfold r. rewrite <- Qmult_assoc, <- pow2_add.
      replace (e + - e)%Z with 0%Z by lia. change (binary64.pow2 0) with 1.
      apply Qmult_1_r. }
    rewrite (rne_proper _ _ Hs), rne_Z. reflexivity.
Qed.

Lemma round_pos_proper (p q : Q) : 0 < p -> p == q -> binary64.round_pos p == binary64.round_pos q.
Proof.
  intros Hp H. apply Qle_antisym; apply round_pos_mono;
    try (rewrite H; apply Qle_refl); try exact Hp.
  rewrite <- H. exact Hp.
Qed.

Lemma round_pos_idem (q : Q) :
  0 < q -> 0 < binary64.round_pos q -> binary64.round_pos (binary64.round_pos q) == binary64.round_pos q.
Proof.
  intros Hq Hr. destruct (mantissa_bounds q Hq) as [[H0 H53] Hnormal].
  unfold binary64.round_pos at 2 3. cbv zeta.
  apply round_pos_fix.
  - split; [|exact H53].
    destruct (Z.eq_dec (binary64.rne (q * binary64.pow2 (- binary64.exponent q))) 0) as [E|N]; [|lia].
    exfalso. unfold binary64.round_pos in Hr. cbv zeta in Hr. rewrite E in Hr.
    rewrite Qmult_0_l in Hr. exact (Qlt_irrefl 0 Hr).
  - unfold binary64.exponent. lia.
  - exact Hnormal.
Qed.

(** The result of a rounding is a binary64 number. *)
Lemma round_idem (q : Q) : binary64.representable (binary64.round q).
Proof.
  unfold binary64.representable. unfold binary64.round at 2 3.
  destruct (Qcompare_spec q 0) as [E|L|G].
  - reflexivity.
  - pose proof (round_pos_nonneg (- q) ltac:(lra)) as Hn.
    unfold binary64.round.
    destruct (Qcompare_spec (- binary64.round_pos (- q)) 0) as [E'|L'|G'].
    + symmetry. exact E'.
    + assert (0 < binary64.round_pos (- q)) as Hpos by lra.
      assert (binary64.round_pos (- - binary64.round_pos (- q)) == binary64.round_pos (- q)) as ->.
      { rewrite <- (round_pos_idem (- q) ltac:(lra) Hpos) at 2.
        apply round_pos_proper; [lra|]. apply Qopp_involutive. }
      reflexivity.
    + exfalso. lra.
  - pose proof (round_pos_nonneg q G) as Hn.
    unfold binary64.round.
    destruct (Qcompare_spec (binary64.round_pos q) 0) as [E'|L'|G'].
    + symmetry. exact E'.
    + exfalso. lra.
    + apply round_pos_idem; assumption.
Qed.

(** ** The threshold *)

Lemma loop64_ok (cmpPx_values : list Q) (correct_responses : list bool) (l : list Q) :
  forall xs ys ns x y n,
    for_each (binary64.level_body cmpPx_values correct_responses) l (xs, ys, ns)
    = Ok (x, y, n) ->
    x = xs ++ filter (qualifies cmpPx_values) l
    /\ y = ys ++ map (fun v => binary64.round
                                 (proportion cmpPx_values correct_responses v))
                     (filter (qualifies cmpPx_values) l)
    /\ n = ns ++ map (trial_count cmpPx_values) (filter (qualifies cmpPx_values) l).
Proof.
  induction l as [|v l IH]; intros xs ys ns x y n H; simpl in H.
  - injection H as <- <- <-. rewrite !app_nil_r. auto.
  - apply bind_ok in H. destruct H as (acc & Hb & Hrest).
    unfold binary64.level_body in Hb. cbv zeta in Hb.
    rewrite sum_eq_mask in Hb.
    change (2 <=? trial_count cmpPx_values v)%Z
      with (qualifies cmpPx_values v) in Hb.
    simpl filter. destruct (qualifies cmpPx_values v).
    + apply bind_ok in Hb. destruct Hb as (sel & Hsel & Hb).
      injection Hb as <-.
      unfold np.index_mask in Hsel.
      destruct (Nat.eqb _ _); [|discriminate]. injection Hsel as <-.
      rewrite sum_select in Hrest.
      apply IH in Hrest. destruct Hrest as (-> & -> & ->).
      simpl map. rewrite <- !app_assoc. auto.
    + injection Hb as <-. apply IH in Hrest. exact Hrest.
Qed.

Lemma levels64_ok (cmpPx_values : list Q) (correct_responses : list bool)
    (x y : list Q) (n : list Z) :
  binary64.levels cmpPx_values correct_responses = Ok (x, y, n) ->
  x = filter (qualifies cmpPx_values) (np.sort (np.unique cmpPx_values))
  /\ y = map (fun v => binary64.round
                         (proportion cmpPx_values correct_responses v)) x
  /\ n = map (trial_count cmpPx_values) x.
Proof.
  unfold binary64.levels. intros H. apply loop64_ok in H. simpl in H.
  destruct H as (-> & -> & ->). auto.
Qed.

Lemma levels64_from (cmpPx_values : list Q) (correct_responses : list bool)
    (x y : list Q) (n : list Z) (v : Q) :
  binary64.levels cmpPx_values correct_responses = Ok (x, y, n) ->
  In v x -> In v cmpPx_values.
Proof.
  intros H Hin. apply levels64_ok in H. destruct H as (-> & _).
  apply filter_In in Hin. destruct Hin as [Hin _].
  rewrite sort_ascending_id in Hin by apply unique_ascending.
  destruct (unique_from _ _ _ Hin) as [Hv|[]]. exact Hv.
Qed.

(** The branch taken when the first level at or above the target has a
    predecessor. *)
Lemma branch64_bracketed (x y : list Q) (target : Q) (p : nat) :
  length x = length y ->
  first_at_or_above y target (S p) ->
  exists x1 y1 x2 y2,
    nth_error x p = Some x1 /\ nth_error y p = Some y1
    /\ nth_error x (S p) = Some x2 /\ nth_error y (S p) = Some y2
    /\ y1 < target /\ target <= y2
    /\ binary64.threshold_branch x y target
       = Ok (Linear,
             binary64.add x1
               (binary64.div
                  (binary64.mul (binary64.sub target y1) (binary64.sub x2 x1))
                  (binary64.sub y2 y1))).
Proof.
  intros Hlen Hfirst.
  pose proof (at_or_above_first_true _ _ _ Hfirst) as Hidx.
  pose proof (first_true_any _ _ Hidx) as Habove.
  destruct Hfirst as [(y2 & Hy2 & Hhigh) Hbefore].
  assert (S p < length y)%nat as Hlt by (apply nth_error_Some; congruence).
  destruct (nth_error y p) as [y1|] eqn:Hy1;
    [|apply nth_error_None in Hy1; lia].
  destruct (nth_error x p) as [x1|] eqn:Hx1;
    [|apply nth_error_None in Hx1; lia].
  destruct (nth_error x (S p)) as [x2|] eqn:Hx2;
    [|apply nth_error_None in Hx2; lia].
  pose proof (Hbefore p y1 (Nat.lt_succ_diag_r p) Hy1) as Hlow.
  assert (np.any (map (fun v => Qlt_bool v target) y) = true) as Hbelow.
  { apply any_map_true. apply Exists_exists.
    exists y1. split; [eapply nth_error_In; exact Hy1|].
    apply Qlt_bool_iff, Hlow. }
  exists x1, y1, x2, y2. repeat (split; [first [reflexivity|assumption]|]).
  unfold binary64.threshold_branch. cbv zeta.
  rewrite Hbelow, Habove. simpl orb. cbv iota. rewrite Hidx. simpl bind.
  rewrite (proj2 (item_ok x p x1) Hx1), (proj2 (item_ok y p y1) Hy1),
    (proj2 (item_ok x (S p) x2) Hx2), (proj2 (item_ok y (S p) y2) Hy2).
  simpl bind.
  replace (Qeq_bool y2 y1) with false; [reflexivity|].
  symmetry. destruct (Qeq_bool y2 y1) eqn:E; [|reflexivity].
  apply Qeq_bool_iff in E. exfalso. lra.
Qed.

(** The branch taken when the first level is at or above the target and some
    level is below it. *)
Lemma branch64_first (x y : list Q) (target : Q) :
  length x = length y ->
  first_at_or_above y target 0 ->
  Exists (fun v => v < target) y ->
  exists x0, nth_error x 0 = Some x0
             /\ binary64.threshold_branch x y target = Ok (FirstLevel, x0).
Proof.
  intros Hlen Hfirst Hbelow.
  pose proof (at_or_above_first_true _ _ _ Hfirst) as Hidx.
  pose proof (first_true_any _ _ Hidx) as Habove.
  assert (np.any (map (fun v => Qlt_bool v target) y) = true) as Hb.
  { apply any_map_true. eapply Exists_impl; [|exact Hbelow].
    intros v Hv. apply Qlt_bool_iff, Hv. }
  destruct Hfirst as [(y0 & Hy0 & _) _].
  destruct (nth_error x 0) as [x0|] eqn:Hx0;
    [|apply nth_error_None in Hx0;
      assert (0 < length y)%nat by (apply nth_error_Some; congruence); lia].
  exists x0. split; [reflexivity|].
  unfold binary64.threshold_branch. cbv zeta.
  rewrite Hb, Habove. simpl orb. cbv iota. rewrite Hidx. simpl bind.
  rewrite (proj2 (item_ok x 0%nat x0) Hx0). reflexivity.
Qed.

(** The rounded interpolation does not fall below a representable [x1]. *)
Lemma linear64_lower (x1 y1 x2 y2 target : Q) :
  binary64.representable x1 -> x1 <= x2 -> y1 <= target -> y1 <= y2 ->
  x1 <= binary64.add x1
          (binary64.div
             (binary64.mul (binary64.sub target y1) (binary64.sub x2 x1))
             (binary64.sub y2 y1)).
Proof.
  intros Hx1 Hx Ht Hy.
  unfold binary64.add, binary64.div, binary64.mul, binary64.sub.
  pose proof (round_nonneg (target - y1) ltac:(lra)) as Ha.
  pose proof (round_nonneg (x2 - x1) ltac:(lra)) as Hb.
  pose proof (round_nonneg (y2 - y1) ltac:(lra)) as Hc.
  set (a := binary64.round (target - y1)) in *.
  set (b := binary64.round (x2 - x1)) in *.
  set (c := binary64.round (y2 - y1)) in *.
  pose proof (round_nonneg (a * b) (Qmult_le_0_compat _ _ Ha Hb)) as Hm.
  set (m := binary64.round (a * b)) in *.
  assert (0 <= m / c) as Hd
    by (apply Qmult_le_0_compat; [exact Hm|apply Qinv_le_0_compat, Hc]).
  pose proof (round_nonneg (m / c) Hd) as Hq.
  set (q := binary64.round (m / c)) in *.
  apply Qle_trans with (binary64.round x1).
  - unfold binary64.representable in Hx1. rewrite Hx1. apply Qle_refl.
  - apply round_mono. lra.
Qed.

(** The rounded interpolation does not decrease when the target is raised. *)
Lemma linear64_mono (x1 y1 x2 y2 target target' : Q) :
  x1 <= x2 -> y1 <= y2 -> target <= target' ->
  binary64.add x1
    (binary64.div
       (binary64.mul (binary64.sub target y1) (binary64.sub x2 x1))
       (binary64.sub y2 y1))
  <= binary64.add x1
       (binary64.div
          (binary64.mul (binary64.sub target' y1) (binary64.sub x2 x1))
          (binary64.sub y2 y1)).
Proof.
  intros Hx Hy Ht.
  unfold binary64.add, binary64.div, binary64.mul, binary64.sub.
  pose proof (round_mono (target - y1) (target' - y1) ltac:(lra)) as Ha.
  pose proof (round_nonneg (x2 - x1) ltac:(lra)) as Hb.
  pose proof (round_nonneg (y2 - y1) ltac:(lra)) as Hc.
  set (a := binary64.round (target - y1)) in *.
  set (a' := binary64.round (target' - y1)) in *.
  set (b := binary64.round (x2 - x1)) in *.
  set (c := binary64.round (y2 - y1)) in *.
  pose proof (round_mono (a * b) (a' * b) (Qmult_le_compat_r _ _ _ Ha Hb)) as Hm.
  set (m := binary64.round (a * b)) in *.
  set (m' := binary64.round (a' * b)) in *.
  assert (m / c <= m' / c) as Hd
    by (apply Qmult_le_compat_r; [exact Hm|apply Qinv_le_0_compat, Hc]).
  pose proof (round_mono _ _ Hd) as Hq.
  apply round_mono. lra.
Qed.

(** ** The bracket *)

(** C1, as stated, fails in two ways.  On two levels, one below the target
    and one above it, the function returns [nan].  On three levels the
    rounding of the interpolation carries the result above the bracket: with
    the levels (0, 0), (1, 0.25) and (7, 0.707) the interpolation between 1
    and 7 returns 7.000000000000001. *)
Lemma bracket_not_kept :
  (exists x y n,
     binary64.levels [1; 1; 2; 2] [false; false; true; true] = Ok (x, y, n)
     /\ Exists (fun v => v < binary64.default_target) y
     /\ Exists (fun v => binary64.default_target <= v) y
     /\ binary64.simple_threshold_estimate [1; 1; 2; 2]
          [false; false; true; true] binary64.default_target
        = Ok (NaN, x, y, n))
  /\ (exists x y n th,
        Forall binary64.representable rounding_cmpPx
        /\ binary64.levels rounding_cmpPx rounding_correct = Ok (x, y, n)
        /\ (3 <= length x)%nat
        /\ Exists (fun v => v < binary64.default_target) y
        /\ first_at_or_above y binary64.default_target 2
        /\ nth_error x 1 = Some 1
        /\ nth_error x 2 = Some 7
        /\ binary64.simple_threshold_estimate rounding_cmpPx rounding_correct
             binary64.default_target
           = Ok (Num th, x, y, n)
        /\ 7 < th).
Proof.
  split.
  - eexists. eexists. eexists.
    split; [vm_compute; reflexivity|].
    split; [left; vm_compute; reflexivity|].
    split; [right; left; vm_compute; discriminate|].
    vm_compute. reflexivity.
  - eexists. eexists. eexists. eexists.
    split.
    { unfold rounding_cmpPx. apply Forall_app. split.
      - repeat constructor.
      - apply Forall_forall. intros v Hv. apply repeat_spec in Hv. subst v.
        vm_compute. reflexivity. }
    split; [vm_compute; reflexivity|].
    split; [simpl; lia|].
    split; [left; vm_compute; reflexivity|].
    split; [apply first_true_at_or_above; vm_compute; reflexivity|].
    split; [reflexivity|]. split; [reflexivity|].
    split; [vm_compute; reflexivity|].
    vm_compute. reflexivity.
Qed.

(** C1 (as amended): when the aggregated sequence has at least three levels,
    at least one of them strictly below the target and at least one at or
    above it, [simple_threshold_estimate] returns a number.  With [i] the
    index of the first level at or above the target: if [i] is 0 the number is
    the first level's intensity; otherwise it is the interpolation between
    level [i - 1] and level [i] evaluated in binary64, it is not below the
    intensity of level [i - 1], and the exact value of the interpolation lies
    between the two intensities, both included. *)
Theorem interpolated_not_below_predecessor (cmpPx_values : list Q)
    (correct_responses : list bool) (target : Q)
    (x y : list Q) (n : list Z)
    (Hfloat : Forall binary64.representable cmpPx_values)
    (Hlv : binary64.levels cmpPx_values correct_responses = Ok (x, y, n))
    (Hthree : (3 <= length x)%nat)
    (Hbelow : Exists (fun v => v < target) y)
    (Habove : Exists (fun v => target <= v) y) :
  exists i x2 th,
    first_at_or_above y target i
    /\ nth_error x i = Some x2
    /\ binary64.simple_threshold_estimate cmpPx_values correct_responses target
       = Ok (Num th, x, y, n)
    /\ match i with
       | O => th = x2
       | S p =>
           exists x1 y1 y2,
             nth_error x p = Some x1 /\ nth_error y p = Some y1
             /\ nth_error y i = Some y2
             /\ th = binary64.add x1
                       (binary64.div
                          (binary64.mul (binary64.sub target y1)
                                        (binary64.sub x2 x1))
                          (binary64.sub y2 y1))
             /\ x1 <= th
             /\ x1 <= x1 + (target - y1) * (x2 - x1) / (y2 - y1) <= x2
       end.
Proof.
  pose proof (levels64_ok _ _ _ _ _ Hlv) as (Ex & Ey & _).
  assert (StronglySorted Qlt x) as Hasc
    by (rewrite Ex; apply filter_ascending, sort_unique_ascending).
  assert (length x = length y) as Hlen by (rewrite Ey, length_map; reflexivity).
  assert (np.any (map (fun v => Qge_bool v target) y) = true) as Ha.
  { apply any_map_true. eapply Exists_impl; [|exact Habove].
    intros v Hv. apply Qge_bool_iff, Hv. }
  destruct (any_first_true _ Ha) as (i & Hi).
  pose proof (first_true_at_or_above _ _ _ Hi) as Hfirst.
  assert (forall b th,
            binary64.threshold_branch x y target = Ok (b, th) ->
            binary64.simple_threshold_estimate cmpPx_values correct_responses
              target = Ok (Num th, x, y, n)) as Hest.
  { intros b th Hb.
    unfold binary64.simple_threshold_estimate, binary64.threshold_of_levels.
    rewrite Hlv. simpl.
    destruct (Nat.ltb_spec (length x) 3) as [C|_]; [lia|].
    rewrite Hb. reflexivity. }
  destruct i as [|p].
  - destruct (branch64_first x y target Hlen Hfirst Hbelow) as (x0 & Hx0 & Hb).
    exists 0%nat, x0, x0. split; [exact Hfirst|]. split; [exact Hx0|].
    split; [exact (Hest _ _ Hb)|reflexivity].
  - destruct (branch64_bracketed x y target p Hlen Hfirst)
      as (x1 & y1 & x2 & y2 & Hx1 & Hy1 & Hx2 & Hy2 & Hlow & Hhigh & Hb).
    assert (x1 < x2) as Hx
      by (apply (ascending_nth x p (S p));
          [exact Hasc | lia | exact Hx1 | exact Hx2]).
    assert (binary64.representable x1) as Hr.
    { rewrite Forall_forall in Hfloat. apply Hfloat.
      apply (levels64_from _ _ _ _ _ _ Hlv). eapply nth_error_In. exact Hx1. }
    eexists (S p), x2, _. split; [exact Hfirst|]. split; [exact Hx2|].
    split; [exact (Hest _ _ Hb)|].
    exists x1, y1, y2. split; [exact Hx1|]. split; [exact Hy1|].
    split; [exact Hy2|]. split; [reflexivity|].
    split; [apply linear64_lower; [exact Hr|lra|lra|lra]|].
    apply linear_between; assumption.
Qed.

Lemma interpolated_not_below_predecessor_witness :
  exists i x2 th,
    first_at_or_above
      [binary64.round (1 # 2); binary64.round (2 # 2); binary64.round (2 # 3)]
      binary64.default_target i
    /\ nth_error [1; 2; 3] i = Some x2
    /\ binary64.simple_threshold_estimate [1; 1; 2; 2; 3; 3; 3]
         [true; false; true; true; true; true; false] binary64.default_target
       = Ok (Num th, [1; 2; 3],
             [binary64.round (1 # 2); binary64.round (2 # 2);
              binary64.round (2 # 3)],
             [2%Z; 2%Z; 3%Z])
    /\ match i with
       | O => th = x2
       | S p =>
           exists x1 y1 y2,
             nth_error [1; 2; 3] p = Some x1
             /\ nth_error [binary64.round (1 # 2); binary64.round (2 # 2);
                           binary64.round (2 # 3)] p = Some y1
             /\ nth_error [binary64.round (1 # 2); binary64.round (2 # 2);
                           binary64.round (2 # 3)] i = Some y2
             /\ th = binary64.add x1
                       (binary64.div
                          (binary64.mul (binary64.sub binary64.default_target y1)
                                        (binary64.sub x2 x1))
                          (binary64.sub y2 y1))
             /\ x1 <= th
             /\ x1 <= x1 + (binary64.default_target - y1) * (x2 - x1) / (y2 - y1)
                <= x2
       end.
Proof.
  apply (interpolated_not_below_predecessor
           [1; 1; 2; 2; 3; 3; 3] [true; false; true; true; true; true; false]
           binary64.default_target [1; 2; 3]
           [binary64.round (1 # 2); binary64.round (2 # 2);
            binary64.round (2 # 3)]
           [2%Z; 2%Z; 3%Z]).
  - repeat constructor.
  - vm_compute. reflexivity.
  - simpl. lia.
  - left. vm_compute. reflexivity.
  - right. left. vm_compute. discriminate.
Defined.

(** X4: within a bracket the interpolated threshold, as computed in binary64,
    does not decrease when the target is raised: for two targets whose first
    level at or above them is the same level [S p], the function takes the
    interpolation branch for both, and the threshold for the lower target is
    at most the threshold for the higher one; both are at least the intensity
    of level [p] when that intensity is a binary64 number. *)
Theorem interpolated_monotone_in_target (x y : list Q) (target target' : Q)
    (p : nat)
    (Hlen : length x = length y)
    (Hasc : StronglySorted Qlt x)
    (Hfirst : first_at_or_above y target (S p))
    (Hfirst' : first_at_or_above y target' (S p))
    (Hle : target <= target') :
  exists x1 th th',
    nth_error x p = Some x1
    /\ binary64.threshold_branch x y target = Ok (Linear, th)
    /\ binary64.threshold_branch x y target' = Ok (Linear, th')
    /\ th <= th'
    /\ (binary64.representable x1 -> x1 <= th).
Proof.
  destruct (branch64_bracketed x y target p Hlen Hfirst)
    as (x1 & y1 & x2 & y2 & Hx1 & Hy1 & Hx2 & Hy2 & Hlow & Hhigh & Hb).
  destruct (branch64_bracketed x y target' p Hlen Hfirst')
    as (x1' & y1' & x2' & y2' & Hx1' & Hy1' & Hx2' & Hy2' & Hlow' & Hhigh' & Hb').
  assert (x1' = x1) by congruence. assert (y1' = y1) by congruence.
  assert (x2' = x2) by congruence. assert (y2' = y2) by congruence.
  subst x1' y1' x2' y2'.
  assert (x1 < x2) as Hx
    by (apply (ascending_nth x p (S p));
        [exact Hasc | lia | exact Hx1 | exact Hx2]).
  eexists x1, _, _. split; [exact Hx1|]. split; [exact Hb|].
  split; [exact Hb'|].
  split; [apply linear64_mono; lra|].
  intros Hr. apply linear64_lower; [exact Hr|lra|lra|lra].
Qed.

Lemma interpolated_monotone_in_target_witness :
  exists x1 th th',
    nth_error scenario_x 1 = Some x1
    /\ binary64.threshold_branch scenario_x (map binary64.round scenario_y)
         (binary64.literal 65 100) = Ok (Linear, th)
    /\ binary64.threshold_branch scenario_x (map binary64.round scenario_y)
         binary64.default_target = Ok (Linear, th')
    /\ th <= th'
    /\ (binary64.representable x1 -> x1 <= th).
Proof.
  apply (interpolated_monotone_in_target scenario_x
           (map binary64.round scenario_y) (binary64.literal 65 100)
           binary64.default_target 1).
  - reflexivity.
  - unfold scenario_x. repeat constructor.
  - apply first_true_at_or_above. vm_compute. reflexivity.
  - apply first_true_at_or_above. vm_compute. reflexivity.
  - vm_compute. discriminate.
Defined.

(** * Further properties of the fit *)

Lemma sumQ_from (a : list Q) (acc : Q) :
  fold_left Qplus a acc == acc + np.sumQ a.
Proof.
  unfold np.sumQ. revert acc. induction a as [|u a IH]; intros acc; simpl.
  - lra.
  - rewrite (IH (acc + u)), (IH (0 + u)). lra.
Qed.

Lemma sumQ_cons (u : Q) (a : list Q) : np.sumQ (u :: a) == u + np.sumQ a.
Proof. unfold np.sumQ at 1. simpl. rewrite sumQ_from. lra. Qed.

Lemma sumQ_nonneg (a : list Q) : Forall (fun u => 0 <= u) a -> 0 <= np.sumQ a.
Proof.
  induction 1 as [|u a Hu Ha IH]; [unfold np.sumQ; simpl; lra|].
  rewrite sumQ_cons. lra.
Qed.

Lemma square_nonneg (u : Q) : 0 <= u ^ 2.
Proof. simpl. nra. Qed.

Lemma sum_sq_res_nonneg (y_data : list Q) (y_pred : list float) (s : Q) :
  sum_sq_res y_data y_pred = Num s -> 0 <= s.
Proof.
  revert y_pred s. induction y_data as [|u ys IH]; intros [|[p|] ps] s H;
    simpl in H; try (injection H as <-; lra); try discriminate.
  destruct (sum_sq_res ys ps) as [s'|] eqn:E; [|discriminate].
  injection H as <-. pose proof (IH ps s' E). pose proof (square_nonneg (u - p)).
  lra.
Qed.

Lemma sum_sq_res_exact (y_data : list Q) :
  exists s, sum_sq_res y_data (map Num y_data) = Num s /\ s == 0.
Proof.
  induction y_data as [|u ys (s & Hs & H0)]; simpl.
  - exists 0. split; reflexivity.
  - rewrite Hs. eexists. split; [reflexivity|]. rewrite H0. simpl. nra.
Qed.

(** X6: the coefficient of determination of lines 196-200 and 224-228 never
    exceeds 1, and it is 1 when the predictions reproduce proportions that
    are not all equal. *)
Theorem r_squared_at_most_one (y_data : list Q) (y_pred : list float) :
  (forall r, compute_r_squared y_data y_pred = Num r -> r <= 1)
  /\ (Qlt_bool 0 (np.sumQ (map (fun y => (y - np.sumQ y_data
                                              / inject_Z (Z.of_nat (length y_data))) ^ 2)
                               y_data)) = true ->
      exists r, compute_r_squared y_data (map Num y_data) = Num r /\ r == 1).
Proof.
  split.
  - unfold compute_r_squared. cbv zeta. intros r.
    set (ss_tot := np.sumQ _).
    destruct (Qlt_bool 0 ss_tot) eqn:Etot.
    + apply Qlt_bool_iff in Etot.
      destruct (sum_sq_res y_data y_pred) as [s|] eqn:Es; [|discriminate].
      intros H. injection H as <-. apply sum_sq_res_nonneg in Es.
      assert (0 <= s / ss_tot).
      { apply Qle_shift_div_l; [exact Etot | lra]. }
      lra.
    + intros H. injection H as <-. lra.
  - intros Htot. unfold compute_r_squared. cbv zeta. rewrite Htot.
    destruct (sum_sq_res_exact y_data) as (s & -> & H0).
    eexists. split; [reflexivity|]. rewrite H0. unfold Qdiv.
    rewrite Qmult_0_l. lra.
Qed.

Lemma r_squared_at_most_one_witness :
  exists r,
    compute_r_squared [1 # 2; 1; 3 # 4] (map Num [1 # 2; 1; 3 # 4]) = Num r
    /\ r == 1.
Proof.
  apply (proj2 (r_squared_at_most_one [1 # 2; 1; 3 # 4] [])).
  vm_compute. reflexivity.
Defined.

Lemma insert_length (v : Q) (l : list Q) : length (np.insert v l) = S (length l).
Proof.
  induction l as [|h t IH]; simpl; [reflexivity|].
  destruct (Qle_bool v h); simpl; [reflexivity | rewrite IH; reflexivity].
Qed.

Lemma sort_length (l : list Q) : length (np.sort l) = length l.
Proof.
  induction l as [|h t IH]; [reflexivity|].
  change (np.sort (h :: t)) with (np.insert h (np.sort t)).
  rewrite insert_length, IH. reflexivity.
Qed.

Lemma logistic_call_defined (lib : SciPy) (x y : list Q) (n : list Z) :
  x <> [] -> y <> [] -> exists args, logistic_call lib x y n = Ok args.
Proof.
  intros Hx Hy. unfold logistic_call.
  destruct (max_defined x Hx) as (x_max & ->).
  destruct (min_defined x Hx) as (x_min & ->).
  destruct (max_defined y Hy) as (max_perf & ->).
  destruct (min_defined y Hy) as (min_perf & ->).
  simpl. eauto.
Qed.

Lemma normal_call_defined (lib : SciPy) (x y : list Q) (n : list Z) :
  x <> [] -> exists args, normal_call lib x y n = Ok args.
Proof.
  intros Hx. unfold normal_call, median, std, np.mean. cbv zeta.
  rewrite sort_length.
  destruct x as [|h t]; [congruence|]. simpl length.
  destruct (Nat.even (S (length t))); eauto.
Qed.

Lemma calls_try_block (lib : SciPy) (curve_fit : CurveFitArgs -> Response)
    (x y : list Q) (n : list Z) (method : string) :
  x <> [] -> y <> [] ->
  (known_method method /\
   exists args,
     calls curve_fit (try_block lib x y n method) = [args]
     /\ ((method = "logistic"%string /\ logistic_call lib x y n = Ok args)
         \/ (method = "cumulative_normal"%string
             /\ normal_call lib x y n = Ok args)))
  \/ (~ known_method method
      /\ try_block lib x y n method = Return NoValue).
Proof.
  intros Hx Hy. unfold try_block, known_method.
  destruct (String.eqb_spec method "logistic") as [->|Hl].
  - left. split; [left; reflexivity|].
    destruct (logistic_call_defined lib x y n Hx Hy) as (args & E). rewrite E.
    exists args. split; [reflexivity|]. left. split; reflexivity.
  - destruct (String.eqb_spec method "cumulative_normal") as [->|Hn].
    + left. split; [right; reflexivity|].
      destruct (normal_call_defined lib x y n Hx) as (args & E). rewrite E.
      exists args. split; [reflexivity|]. right. split; reflexivity.
    + right. split; [|reflexivity]. intros [C|C]; contradiction.
Qed.

Lemma filter_length_le {A : Type} (f : A -> bool) (l : list A) :
  (length (filter f l) <= length l)%nat.
Proof.
  induction l as [|a l IH]; simpl; [lia|]. destruct (f a); simpl; lia.
Qed.

(** What a run of the fit does, on two columns of one length. *)
Lemma fit_run_cases (lib : SciPy) (curve_fit : CurveFitArgs -> Response)
    (cmpPx_values : list Q) (correct_responses : list bool) (method : string) :
  length cmpPx_values = length correct_responses ->
  exists x y n,
    simple.levels cmpPx_values correct_responses = Ok (x, y, n)
    /\ (((length x < 4)%nat
         /\ fit_psychophysical_curve lib cmpPx_values correct_responses method
            = Return (Ok AllNone))
        \/ ((4 <= length x)%nat
            /\ fit_psychophysical_curve lib cmpPx_values correct_responses method
               = pbind (try_block lib x y n method) (fun r => Return (Ok r)))).
Proof.
  intros Hlen. destruct (levels_total _ _ Hlen) as (x & y & n & Hlv).
  exists x, y, n. split; [exact Hlv|].
  unfold fit_psychophysical_curve. cbv zeta. rewrite fit_levels_simple, Hlv.
  destruct (Nat.ltb_spec (length (np.sort (np.unique cmpPx_values))) 4) as [Hu|Hu].
  - left. split; [|reflexivity].
    apply levels_ok in Hlv. destruct Hlv as (-> & _).
    pose proof (filter_length_le (qualifies cmpPx_values)
                  (np.sort (np.unique cmpPx_values))). lia.
  - destruct (Nat.ltb_spec (length x) 4) as [Hx|Hx].
    + left. split; [exact Hx | reflexivity].
    + right. split; [exact Hx | reflexivity].
Qed.

(** X9: on two columns of one length, a run of
    [fit_psychophysical_curve] calls the optimizer exactly once, on the level
    arrays, when at least four levels were kept and the method is "logistic"
    or "cumulative_normal"; in every other case it does not call it. *)
Theorem optimizer_called_once_iff (lib : SciPy)
    (curve_fit : CurveFitArgs -> Response)
    (cmpPx_values : list Q) (correct_responses : list bool) (method : string)
    (Hlen : length cmpPx_values = length correct_responses) :
  exists x y n,
    simple.levels cmpPx_values correct_responses = Ok (x, y, n)
    /\ (((4 <= length x)%nat /\ known_method method
         /\ exists args,
              calls curve_fit
                (fit_psychophysical_curve lib cmpPx_values correct_responses method)
              = [args]
              /\ cf_xdata args = x /\ cf_ydata args = y)
        \/ (~ ((4 <= length x)%nat /\ known_method method)
            /\ calls curve_fit
                 (fit_psychophysical_curve lib cmpPx_values correct_responses method)
               = [])).
Proof.
  destruct (fit_run_cases lib curve_fit _ _ method Hlen)
    as (x & y & n & Hlv & [[Hlt E]|[Hge E]]);
    exists x, y, n; (split; [exact Hlv|]); rewrite E.
  - right. split; [intros [C _]; lia | reflexivity].
  - pose proof (levels_length _ _ _ _ _ Hlv) as [Hy _].
    assert (x <> []) as Hx by (destruct x; [simpl in Hge; lia | discriminate]).
    assert (y <> []) as Hyne by (destruct y; [simpl in Hy; lia | discriminate]).
    rewrite calls_pbind. simpl. rewrite app_nil_r.
    destruct (calls_try_block lib curve_fit x y n method Hx Hyne)
      as [(Hk & args & Hc & Hargs)|(Hk & Hret)].
    + left. split; [exact Hge|]. split; [exact Hk|].
      exists args. split; [exact Hc|].
      destruct Hargs as [[_ Ha]|[_ Ha]].
      * unfold logistic_call in Ha. inv_bind. simpl. auto.
      * unfold normal_call in Ha.
        destruct (median x), (std lib x); try discriminate.
        injection Ha as <-. simpl. auto.
    + right. split; [intros [_ C]; contradiction|].
      rewrite Hret. reflexivity.
Qed.

Lemma optimizer_called_once_iff_witness :
  exists x y n,
    simple.levels example_cmpPx example_correct = Ok (x, y, n)
    /\ (((4 <= length x)%nat /\ known_method "logistic"
         /\ exists args,
              calls no_convergence
                (fit_psychophysical_curve example_lib example_cmpPx
                   example_correct "logistic") = [args]
              /\ cf_xdata args = x /\ cf_ydata args = y)
        \/ (~ ((4 <= length x)%nat /\ known_method "logistic")
            /\ calls no_convergence
                 (fit_psychophysical_curve example_lib example_cmpPx
                    example_correct "logistic") = [])).
Proof.
  apply (optimizer_called_once_iff example_lib no_convergence
           example_cmpPx example_correct "logistic").
  reflexivity.
Defined.

Lemma threshold_guess_choice (x y : list Q) (x_mid : Q) :
  threshold_guess x y x_mid = x_mid \/ In (threshold_guess x y x_mid) x.
Proof.
  revert y. induction x as [|a x IH]; intros [|perf y]; simpl; auto.
  destruct (Qge_bool perf (7 # 10)); [right; left; reflexivity|].
  destruct (IH y) as [E|Hin]; [left; exact E | right; right; exact Hin].
Qed.

Lemma ascending_range (x : list Q) (lo hi : Q) :
  StronglySorted Qlt x -> (2 <= length x)%nat ->
  least lo x -> greatest hi x -> lo < hi.
Proof.
  intros Hasc Hlen [_ Hlo] [_ Hhi].
  destruct x as [|a [|b x]]; simpl in Hlen; try lia.
  inversion Hasc as [|? ? _ Hab]; subst.
  inversion Hab as [|? ? Hlt _]; subst.
  inversion Hlo as [|? ? Hla _]; subst.
  inversion Hhi as [|? ? _ Hhb]; subst.
  inversion Hhb as [|? ? Hbh _]; subst.
  lra.
Qed.

Lemma div_cancel (u r : Q) : 0 < r -> u / r * r == u.
Proof.
  intros Hr. unfold Qdiv. rewrite <- Qmult_assoc, (Qmult_comm (/ r)).
  rewrite Qmult_inv_r by lra. apply Qmult_1_r.
Qed.

(** The arguments of the logistic call, for ascending intensities and
    proportions in the unit interval. *)
Lemma logistic_call_shape (lib : SciPy) (x y : list Q) (n : list Z)
    (args : CurveFitArgs) :
  StronglySorted Qlt x -> (2 <= length x)%nat ->
  Forall (fun p => 0 <= p /\ p <= 1) y ->
  logistic_call lib x y n = Ok args ->
  exists x_min x_max min_perf max_perf guess,
    least x_min x /\ greatest x_max x
    /\ least min_perf y /\ greatest max_perf y
    /\ cf_p0 args = [min_perf; 4 / (x_max - x_min); guess; max_perf]
    /\ cf_bounds args
       = Some ([4 # 10; 1 # 1000; x_min; min_perf],
               [6 # 10; 100 / (x_max - x_min); x_max; 1])
    /\ x_min < x_max
    /\ x_min <= guess /\ guess <= x_max
    /\ min_perf <= max_perf /\ max_perf <= 1.
Proof.
  intros Hasc Hlen Hunit H. unfold logistic_call in H.
  apply bind_ok in H. destruct H as (x_max & Hmax & H).
  apply bind_ok in H. destruct H as (x_min & Hmin & H).
  cbv zeta in H.
  apply bind_ok in H. destruct H as (max_perf & Hymax & H).
  apply bind_ok in H. destruct H as (min_perf & Hymin & H).
  injection H as <-. simpl.
  apply min_least in Hmin, Hymin. apply max_greatest in Hmax, Hymax.
  pose proof (ascending_range x x_min x_max Hasc Hlen Hmin Hmax) as Hrange.
  exists x_min, x_max, min_perf, max_perf,
    (threshold_guess x y (x_min + (x_max - x_min) * (1 # 2))).
  repeat (split; [first [assumption | reflexivity]|]).
  split; [|split; [|split]].
  - destruct (threshold_guess_choice x y (x_min + (x_max - x_min) * (1 # 2)))
      as [->|Hin]; [lra|].
    destruct Hmin as [_ Hall]. rewrite Forall_forall in Hall. apply Hall, Hin.
  - destruct (threshold_guess_choice x y (x_min + (x_max - x_min) * (1 # 2)))
      as [->|Hin]; [lra|].
    destruct Hmax as [_ Hall]. rewrite Forall_forall in Hall. apply Hall, Hin.
  - destruct Hymin as [Hin _]. destruct Hymax as [_ Hall].
    rewrite Forall_forall in Hall. apply Hall, Hin.
  - destruct Hymax as [Hin _]. rewrite Forall_forall in Hunit.
    apply (Hunit max_perf Hin).
Qed.

Lemma fit_call_levels (lib : SciPy) (curve_fit : CurveFitArgs -> Response)
    (cmpPx_values : list Q) (correct_responses : list bool) (method : string)
    (args : CurveFitArgs) :
  In args (calls curve_fit
             (fit_psychophysical_curve lib cmpPx_values correct_responses method)) ->
  exists x y n,
    simple.levels cmpPx_values correct_responses = Ok (x, y, n)
    /\ (4 <= length x)%nat
    /\ ((method = "logistic"%string /\ logistic_call lib x y n = Ok args)
        \/ (method = "cumulative_normal"%string
            /\ normal_call lib x y n = Ok args)).
Proof.
  unfold fit_psychophysical_curve. cbv zeta.
  destruct (Nat.ltb _ 4); [intros []|].
  rewrite fit_levels_simple.
  destruct (simple.levels cmpPx_values correct_responses) as [[[x y] n]|e];
    [|intros []].
  destruct (Nat.ltb_spec (length x) 4) as [_|Hfour]; [intros []|].
  rewrite calls_pbind. simpl. rewrite app_nil_r. intros Hin.
  exists x, y, n. split; [reflexivity|]. split; [exact Hfour|].
  unfold try_block in Hin.
  destruct (String.eqb_spec method "logistic") as [->|_].
  - left. split; [reflexivity|].
    destruct (logistic_call lib x y n) as [a|e]; [|destruct Hin].
    simpl in Hin. destruct Hin as [->|[]]. reflexivity.
  - destruct (String.eqb_spec method "cumulative_normal") as [->|_];
      [|destruct Hin].
    right. split; [reflexivity|].
    destruct (normal_call lib x y n) as [a|e]; [|destruct Hin].
    simpl in Hin. destruct Hin as [->|[]]. reflexivity.
Qed.

(** X10: whenever the logistic fit calls the optimizer, the intensity bounds
    of the call are a proper interval, so [4.0 / x_range] and [100/x_range]
    divide by a positive range and the slope guess lies below its upper
    bound; the threshold guess lies within the intensity bounds, and the
    guess of the upper asymptote lies within its bounds. *)
Theorem logistic_call_guesses_in_range (lib : SciPy)
    (curve_fit : CurveFitArgs -> Response)
    (cmpPx_values : list Q) (correct_responses : list bool)
    (args : CurveFitArgs)
    (H : In args (calls curve_fit
                    (fit_psychophysical_curve lib cmpPx_values
                       correct_responses "logistic"))) :
  exists a0 b0 c0 d0 lc ld ub uc,
    cf_p0 args = [a0; b0; c0; d0]
    /\ cf_bounds args = Some ([4 # 10; 1 # 1000; lc; ld], [6 # 10; ub; uc; 1])
    /\ least lc (cf_xdata args) /\ greatest uc (cf_xdata args)
    /\ lc < uc
    /\ b0 = 4 / (uc - lc) /\ ub = 100 / (uc - lc)
    /\ 0 < b0 /\ b0 <= ub
    /\ lc <= c0 /\ c0 <= uc
    /\ a0 = ld /\ ld <= d0 /\ d0 <= 1.
Proof.
  apply fit_call_levels in H.
  destruct H as (x & y & n & Hlv & Hfour & [[_ Hcall]|[C _]]); [|discriminate C].
  pose proof (levels_ascending _ _ _ _ _ Hlv) as Hasc.
  pose proof (levels_ok _ _ _ _ _ Hlv) as (Hx & Hy & _).
  assert (Forall (fun p => 0 <= p /\ p <= 1) y) as Hunit.
  { rewrite Hy. apply Forall_forall. intros p Hp. apply in_map_iff in Hp.
    destruct Hp as (v & <- & Hv). apply proportion_unit.
    rewrite Hx in Hv. apply filter_In in Hv. apply Hv. }
  assert (cf_xdata args = x) as Hxd
    by (unfold logistic_call in Hcall; inv_bind; reflexivity).
  destruct (logistic_call_shape lib x y n args Hasc ltac:(lia) Hunit Hcall)
    as (x_min & x_max & min_perf & max_perf & guess & Hmin & Hmax & _ & _
        & Hp0 & Hb & Hrange & Hg1 & Hg2 & Hp1 & Hp2).
  exists min_perf, (4 / (x_max - x_min)), guess, max_perf,
    x_min, min_perf, (100 / (x_max - x_min)), x_max.
  rewrite Hxd.
  repeat (split; [first [assumption | reflexivity]|]).
  assert (0 < x_max - x_min) as Hr by lra.
  split; [apply Qlt_shift_div_l; lra|].
  split; [apply Qle_shift_div_l; [exact Hr|]; rewrite div_cancel by exact Hr; lra|].
  repeat (split; [first [assumption | reflexivity]|]). assumption.
Qed.

Lemma logistic_call_guesses_in_range_witness :
  exists a0 b0 c0 d0 lc ld ub uc,
    cf_p0 example_logistic_args = [a0; b0; c0; d0]
    /\ cf_bounds example_logistic_args
       = Some ([4 # 10; 1 # 1000; lc; ld], [6 # 10; ub; uc; 1])
    /\ least lc (cf_xdata example_logistic_args)
    /\ greatest uc (cf_xdata example_logistic_args)
    /\ lc < uc
    /\ b0 = 4 / (uc - lc) /\ ub = 100 / (uc - lc)
    /\ 0 < b0 /\ b0 <= ub
    /\ lc <= c0 /\ c0 <= uc
    /\ a0 = ld /\ ld <= d0 /\ d0 <= 1.
Proof.
  apply (logistic_call_guesses_in_range example_lib no_convergence
           example_cmpPx example_correct example_logistic_args).
  left. reflexivity.
Defined.

(** X11: the initial guess of the logistic call lies within the bounds of
    the call exactly when the least observed proportion lies in [0.4, 0.6]
    and the intensity range is at most 4000. *)
Theorem logistic_start_feasible_iff (lib : SciPy)
    (curve_fit : CurveFitArgs -> Response)
    (cmpPx_values : list Q) (correct_responses : list bool)
    (args : CurveFitArgs)
    (H : In args (calls curve_fit
                    (fit_psychophysical_curve lib cmpPx_values
                       correct_responses "logistic"))) :
  exists x_min x_max min_perf,
    least x_min (cf_xdata args) /\ greatest x_max (cf_xdata args)
    /\ least min_perf (cf_ydata args)
    /\ (feasible args <->
        4 # 10 <= min_perf /\ min_perf <= 6 # 10 /\ x_max - x_min <= 4000).
Proof.
  apply fit_call_levels in H.
  destruct H as (x & y & n & Hlv & Hfour & [[_ Hcall]|[C _]]); [|discriminate C].
  pose proof (levels_ascending _ _ _ _ _ Hlv) as Hasc.
  pose proof (levels_ok _ _ _ _ _ Hlv) as (Hx & Hy & _).
  assert (Forall (fun p => 0 <= p /\ p <= 1) y) as Hunit.
  { rewrite Hy. apply Forall_forall. intros p Hp. apply in_map_iff in Hp.
    destruct Hp as (v & <- & Hv). apply proportion_unit.
    rewrite Hx in Hv. apply filter_In in Hv. apply Hv. }
  assert (cf_xdata args = x /\ cf_ydata args = y) as [Hxd Hyd]
    by (unfold logistic_call in Hcall; inv_bind; split; reflexivity).
  destruct (logistic_call_shape lib x y n args Hasc ltac:(lia) Hunit Hcall)
    as (x_min & x_max & min_perf & max_perf & guess & Hmin & Hmax & Hymin & _
        & Hp0 & Hb & Hrange & Hg1 & Hg2 & Hp1 & Hp2).
  exists x_min, x_max, min_perf. rewrite Hxd, Hyd.
  split; [exact Hmin|]. split; [exact Hmax|]. split; [exact Hymin|].
  unfold feasible. rewrite Hb, Hp0.
  assert (0 < x_max - x_min) as Hr by lra.
  pose proof (div_cancel 4 (x_max - x_min) Hr) as H4.
  split.
  - intros [Hlow Hup].
    inversion Hlow as [|? ? ? ? Ha Hlow']; subst.
    inversion Hlow' as [|? ? ? ? Hslope _]; subst.
    inversion Hup as [|? ? ? ? Ha' _]; subst.
    split; [exact Ha|]. split; [exact Ha'|].
    assert ((1 # 1000) * (x_max - x_min) <= 4 / (x_max - x_min) * (x_max - x_min))
      as Hm by (apply Qmult_le_compat_r; lra).
    rewrite H4 in Hm. lra.
  - intros (Ha & Ha' & Hwide). split.
    + repeat constructor; try assumption; try apply Qle_refl.
      apply Qle_shift_div_l; [exact Hr | lra].
    + repeat constructor; try assumption; try apply Qle_refl.
      apply Qle_shift_div_l; [exact Hr|]. rewrite H4. lra.
Qed.

Lemma logistic_start_feasible_iff_witness :
  exists x_min x_max min_perf,
    least x_min (cf_xdata example_logistic_args)
    /\ greatest x_max (cf_xdata example_logistic_args)
    /\ least min_perf (cf_ydata example_logistic_args)
    /\ (feasible example_logistic_args
        <-> 4 # 10 <= min_perf /\ min_perf <= 6 # 10 /\ x_max - x_min <= 4000).
Proof.
  apply (logistic_start_feasible_iff example_lib no_convergence
           example_cmpPx example_correct example_logistic_args).
  left. reflexivity.
Defined.

Lemma levels_counts (cmpPx_values : list Q) (correct_responses : list bool)
    (x y : list Q) (n : list Z) :
  simple.levels cmpPx_values correct_responses = Ok (x, y, n) ->
  Forall (fun k => (2 <= k)%Z) n.
Proof.
  intros H. apply levels_ok in H. destruct H as (Hx & _ & ->).
  apply Forall_forall. intros k Hk. apply in_map_iff in Hk.
  destruct Hk as (v & <- & Hv). rewrite Hx in Hv. apply filter_In in Hv.
  destruct Hv as [_ Hq]. unfold qualifies in Hq. lia.
Qed.

Lemma levels_unit (cmpPx_values : list Q) (correct_responses : list bool)
    (x y : list Q) (n : list Z) :
  simple.levels cmpPx_values correct_responses = Ok (x, y, n) ->
  Forall (fun p => 0 <= p /\ p <= 1) y.
Proof.
  intros H. apply levels_ok in H. destruct H as (Hx & -> & _).
  apply Forall_forall. intros p Hp. apply in_map_iff in Hp.
  destruct Hp as (v & <- & Hv). apply proportion_unit.
  rewrite Hx in Hv. apply filter_In in Hv. apply Hv.
Qed.

Lemma reciprocal_positive (w : Q) : 0 < w -> 0 < 1 / w.
Proof. intros Hw. apply Qlt_shift_div_l; lra. Qed.

Lemma logistic_weights_positive (lib : SciPy) (y : list Q) (n : list Z) :
  (forall q, 0 < q -> 0 < np_sqrt lib q) ->
  Forall (fun p => 0 <= p /\ p <= 1) y ->
  Forall (fun k => (2 <= k)%Z) n ->
  Forall (fun w => 0 < w) (logistic_weights lib y n).
Proof.
  intros Hsqrt Hy. revert n.
  induction Hy as [|p y [Hp0 Hp1] Hy IH]; intros n Hn; [constructor|].
  destruct Hn as [|k n Hk Hn]; [constructor|].
  unfold logistic_weights. cbn [combine map]. constructor; [|apply IH, Hn].
  apply Qmult_lt_0_compat.
  - apply Hsqrt. change 0 with (inject_Z 0). rewrite <- Zlt_Qlt. lia.
  - assert (Qabs (p - (1 # 2)) <= 1 # 2) as Habs
      by (apply Qabs_Qle_condition; split; lra).
    lra.
Qed.

(** X12: when the library's square root is positive on positive numbers,
    every call of the optimizer passes one uncertainty per level, and each
    of them is positive: neither [1/weights] nor [1/np.sqrt(n_trials)]
    divides by zero. *)
Theorem sigma_positive (lib : SciPy) (curve_fit : CurveFitArgs -> Response)
    (cmpPx_values : list Q) (correct_responses : list bool) (method : string)
    (args : CurveFitArgs)
    (Hsqrt : forall q, 0 < q -> 0 < np_sqrt lib q)
    (H : In args (calls curve_fit
                    (fit_psychophysical_curve lib cmpPx_values
                       correct_responses method))) :
  length (cf_sigma args) = length (cf_xdata args)
  /\ Forall (fun s => 0 < s) (cf_sigma args).
Proof.
  apply fit_call_levels in H.
  destruct H as (x & y & n & Hlv & _ & Hcall).
  pose proof (levels_length _ _ _ _ _ Hlv) as [Hy Hn].
  pose proof (levels_unit _ _ _ _ _ Hlv) as Hunit.
  pose proof (levels_counts _ _ _ _ _ Hlv) as Hcounts.
  destruct Hcall as [[_ Hcall]|[_ Hcall]].
  - unfold logistic_call in Hcall. inv_bind. simpl. split.
    + unfold logistic_weights. rewrite !length_map, length_combine. lia.
    + pose proof (logistic_weights_positive lib y n Hsqrt Hunit Hcounts) as Hw.
      apply Forall_forall. intros s Hs. apply in_map_iff in Hs.
      destruct Hs as (w & <- & Hin). rewrite Forall_forall in Hw.
      apply reciprocal_positive, Hw, Hin.
  - unfold normal_call in Hcall.
    destruct (median x), (std lib x); try discriminate.
    injection Hcall as <-. simpl. split; [rewrite length_map; exact Hn|].
    apply Forall_forall. intros s Hs. apply in_map_iff in Hs.
    destruct Hs as (k & <- & Hin). rewrite Forall_forall in Hcounts.
    apply reciprocal_positive, Hsqrt.
    change 0 with (inject_Z 0). rewrite <- Zlt_Qlt.
    specialize (Hcounts k Hin). lia.
Qed.

Lemma sigma_positive_witness :
  length (cf_sigma example_logistic_args) = length (cf_xdata example_logistic_args)
  /\ Forall (fun s => 0 < s) (cf_sigma example_logistic_args).
Proof.
  apply (sigma_positive example_lib no_convergence example_cmpPx
           example_correct "logistic" example_logistic_args).
  - intros q Hq. exact Hq.
  - left. reflexivity.
Defined.

Lemma try_except_returns (m : res FitReturn) :
  (forall r, m = Ok r -> exists f, r = Fitted f) ->
  try_except m = AllNone \/ exists f, try_except m = Fitted f.
Proof.
  intros H. destruct m as [r|e]; simpl; [|left; reflexivity].
  destruct (H r eq_refl) as (f & ->). right. eauto.
Qed.

Lemma logistic_result_fitted (lib : SciPy) (x y : list Q) (n : list Z)
    (answer : Response) (r : FitReturn) :
  logistic_result lib x y n answer = Ok r -> exists f, r = Fitted f.
Proof.
  unfold logistic_result. intros H.
  apply bind_ok in H. destruct H as ([po pc] & _ & H).
  apply bind_ok in H. destruct H as (pred & _ & H).
  apply bind_ok in H. destruct H as ([[[a b] c] d] & _ & H).
  apply bind_ok in H. destruct H as (th & _ & H).
  injection H as <-. eauto.
Qed.

Lemma normal_result_fitted (lib : SciPy) (x y : list Q) (n : list Z)
    (answer : Response) (r : FitReturn) :
  normal_result lib x y n answer = Ok r -> exists f, r = Fitted f.
Proof.
  unfold normal_result. intros H.
  apply bind_ok in H. destruct H as ([po pc] & _ & H).
  apply bind_ok in H. destruct H as (pred & _ & H).
  apply bind_ok in H. destruct H as (mu & _ & H).
  apply bind_ok in H. destruct H as (sigma & _ & H).
  injection H as <-. eauto.
Qed.

(** The value of the [try] block. *)
Lemma try_block_run (lib : SciPy) (curve_fit : CurveFitArgs -> Response)
    (x y : list Q) (n : list Z) (method : string) :
  (known_method method
   /\ (run curve_fit (try_block lib x y n method) = AllNone
       \/ exists f, run curve_fit (try_block lib x y n method) = Fitted f))
  \/ (~ known_method method
      /\ run curve_fit (try_block lib x y n method) = NoValue).
Proof.
  unfold try_block, known_method.
  destruct (String.eqb_spec method "logistic") as [->|Hl].
  - left. split; [left; reflexivity|].
    destruct (logistic_call lib x y n) as [args|e]; simpl; [|left; reflexivity].
    apply try_except_returns. apply logistic_result_fitted.
  - destruct (String.eqb_spec method "cumulative_normal") as [->|Hn].
    + left. split; [right; reflexivity|].
      destruct (normal_call lib x y n) as [args|e]; simpl; [|left; reflexivity].
      apply try_except_returns. apply normal_result_fitted.
    + right. split; [|reflexivity]. intros [C|C]; contradiction.
Qed.

(** The value of a run of the fit, on two columns of one length. *)
Lemma fit_run_value (lib : SciPy) (curve_fit : CurveFitArgs -> Response)
    (cmpPx_values : list Q) (correct_responses : list bool) (method : string) :
  length cmpPx_values = length correct_responses ->
  exists x y n ret,
    simple.levels cmpPx_values correct_responses = Ok (x, y, n)
    /\ run curve_fit
         (fit_psychophysical_curve lib cmpPx_values correct_responses method)
       = Ok ret
    /\ (((length x < 4)%nat /\ ret = AllNone)
        \/ ((4 <= length x)%nat /\ known_method method
            /\ (ret = AllNone \/ exists f, ret = Fitted f))
        \/ ((4 <= length x)%nat /\ ~ known_method method /\ ret = NoValue)).
Proof.
  intros Hlen.
  destruct (fit_run_cases lib curve_fit _ _ method Hlen)
    as (x & y & n & Hlv & [[Hlt E]|[Hge E]]); exists x, y, n.
  - exists AllNone. rewrite E. split; [exact Hlv|]. split; [reflexivity|].
    left. auto.
  - exists (run curve_fit (try_block lib x y n method)). rewrite E, run_pbind.
    split; [exact Hlv|]. split; [reflexivity|]. right.
    destruct (try_block_run lib curve_fit x y n method) as [[Hk Hr]|[Hk Hr]].
    + left. auto.
    + right. auto.
Qed.

(** X13: on two columns of one length [fit_psychophysical_curve] never
    raises, whatever the optimizer answers; and it returns no value at all
    (the implicit [None]) exactly when the method is neither "logistic" nor
    "cumulative_normal" and at least four levels were kept. *)
Theorem fit_never_raises (lib : SciPy) (curve_fit : CurveFitArgs -> Response)
    (cmpPx_values : list Q) (correct_responses : list bool) (method : string)
    (Hlen : length cmpPx_values = length correct_responses) :
  exists x y n ret,
    simple.levels cmpPx_values correct_responses = Ok (x, y, n)
    /\ run curve_fit
         (fit_psychophysical_curve lib cmpPx_values correct_responses method)
       = Ok ret
    /\ (ret = NoValue <-> (4 <= length x)%nat /\ ~ known_method method).
Proof.
  destruct (fit_run_value lib curve_fit _ _ method Hlen)
    as (x & y & n & ret & Hlv & Hrun & Hcases).
  exists x, y, n, ret. split; [exact Hlv|]. split; [exact Hrun|].
  destruct Hcases as [[Hlt ->]|[(Hge & Hk & Hret)|(Hge & Hk & ->)]].
  - split; [discriminate | intros [C _]; lia].
  - split; [|intros [_ C]; contradiction].
    intros ->. destruct Hret as [C|(f & C)]; discriminate C.
  - split; auto.
Qed.

Lemma fit_never_raises_witness :
  exists x y n ret,
    simple.levels example_cmpPx example_correct = Ok (x, y, n)
    /\ run no_convergence
         (fit_psychophysical_curve example_lib example_cmpPx example_correct
            "probit") = Ok ret
    /\ (ret = NoValue <-> (4 <= length x)%nat /\ ~ known_method "probit").
Proof.
  apply (fit_never_raises example_lib no_convergence example_cmpPx
           example_correct "probit").
  reflexivity.
Defined.

(** X14: a fit that is returned has as many parameters as its model (four
    for "logistic", two for "cumulative_normal"), and its level arrays have
    one length, hold at least four levels of strictly ascending intensity,
    at least two trials per level and proportions between 0 and 1. *)
Theorem returned_fit_well_formed (lib : SciPy)
    (curve_fit : CurveFitArgs -> Response)
    (cmpPx_values : list Q) (correct_responses : list bool) (method : string)
    (f : Fit)
    (H : run curve_fit
           (fit_psychophysical_curve lib cmpPx_values correct_responses method)
         = Ok (Fitted f)) :
  ((method = "logistic"%string /\ length (popt f) = 4%nat)
   \/ (method = "cumulative_normal"%string /\ length (popt f) = 2%nat))
  /\ (4 <= length (x_data f))%nat
  /\ length (y_data f) = length (x_data f)
  /\ length (n_trials f) = length (x_data f)
  /\ StronglySorted Qlt (x_data f)
  /\ Forall (fun k => (2 <= k)%Z) (n_trials f)
  /\ Forall (fun p => 0 <= p /\ p <= 1) (y_data f).
Proof.
  apply fitted_inv in H.
  destruct H as (x & y & n & Hlv & Hfour & Hres).
  pose proof (levels_length _ _ _ _ _ Hlv) as [Hy Hn].
  pose proof (levels_ascending _ _ _ _ _ Hlv) as Hasc.
  pose proof (levels_counts _ _ _ _ _ Hlv) as Hcounts.
  pose proof (levels_unit _ _ _ _ _ Hlv) as Hunit.
  destruct Hres as [[-> (args & _ & Hres)]|[-> (args & _ & Hres)]].
  - apply logistic_result_inv in Hres.
    destruct Hres as (a & b & c & d & Hp & _ & -> & -> & ->).
    split; [left; rewrite Hp; auto|]. auto 10.
  - apply normal_result_inv in Hres.
    destruct Hres as (mu & sigma & Hp & _ & -> & -> & ->).
    split; [right; rewrite Hp; auto|]. auto 10.
Qed.

Lemma returned_fit_well_formed_witness :
  exists f,
    run (answer_with [1 # 2; 1; 2; 1])
      (fit_psychophysical_curve example_lib example_cmpPx example_correct
         "logistic") = Ok (Fitted f)
    /\ length (popt f) = 4%nat
    /\ (4 <= length (x_data f))%nat
    /\ StronglySorted Qlt (x_data f).
Proof.
  eexists.
  assert (H : run (answer_with [1 # 2; 1; 2; 1])
                (fit_psychophysical_curve example_lib example_cmpPx
                   example_correct "logistic") = Ok (Fitted _))
    by (vm_compute; reflexivity).
  split; [exact H|].
  destruct (returned_fit_well_formed _ _ _ _ _ _ H)
    as (_ & Hfour & _ & _ & Hasc & _).
  split; [reflexivity|]. split; [exact Hfour | exact Hasc].
Defined.

(** * Further properties of the driver *)

Lemma simple_threshold_estimate_inv (cmpPx_values : list Q)
    (correct_responses : list bool) (target : Q) (th : float)
    (x y : list Q) (n : list Z) :
  simple_threshold_estimate cmpPx_values correct_responses target
  = Ok (th, x, y, n) ->
  simple.levels cmpPx_values correct_responses = Ok (x, y, n).
Proof.
  unfold simple_threshold_estimate. intros H.
  apply bind_ok in H. destruct H as ([[x' y'] n'] & Hlv & H).
  apply bind_ok in H. destruct H as (th' & _ & H).
  injection H as _ <- <- <-. exact Hlv.
Qed.

Lemma fitted_levels (lib : SciPy) (curve_fit : CurveFitArgs -> Response)
    (cmpPx_values : list Q) (correct_responses : list bool) (method : string)
    (f : Fit) :
  run curve_fit (fit_psychophysical_curve lib cmpPx_values correct_responses method)
  = Ok (Fitted f) ->
  simple.levels cmpPx_values correct_responses
  = Ok (x_data f, y_data f, n_trials f)
  /\ report_params f method = Ok tt.
Proof.
  intros H. apply fitted_inv in H.
  destruct H as (x & y & n & Hlv & _ & [[-> (args & _ & Hres)]|[-> (args & _ & Hres)]]).
  - apply logistic_result_inv in Hres.
    destruct Hres as (a & b & c & d & Hp & _ & -> & -> & ->).
    split; [exact Hlv|]. unfold report_params. rewrite Hp. reflexivity.
  - apply normal_result_inv in Hres.
    destruct Hres as (mu & sigma & Hp & _ & -> & -> & ->).
    split; [exact Hlv|]. unfold report_params. rewrite Hp. reflexivity.
Qed.

(** A run of the driver on a dataset with at least one trial: the value of
    the fit, packaged. *)
Lemma analyze_run (lib : SciPy) (curve_fit : CurveFitArgs -> Response)
    (dataset_name : string) (dataset_data : list (string * Session))
    (method : string) :
  all_cmpPx dataset_data <> [] ->
  exists lo hi th x y n ret,
    np.min (all_cmpPx dataset_data) = Ok lo
    /\ np.max (all_cmpPx dataset_data) = Ok hi
    /\ simple_threshold_estimate (all_cmpPx dataset_data)
         (all_correct dataset_data) default_target = Ok (th, x, y, n)
    /\ run curve_fit
         (fit_psychophysical_curve lib (all_cmpPx dataset_data)
            (all_correct dataset_data) method) = Ok ret
    /\ (((length x < 4)%nat /\ ret = AllNone)
        \/ ((4 <= length x)%nat /\ known_method method
            /\ (ret = AllNone \/ exists f, ret = Fitted f))
        \/ ((4 <= length x)%nat /\ ~ known_method method /\ ret = NoValue))
    /\ run curve_fit (analyze_dataset lib dataset_name dataset_data method)
       = package dataset_name dataset_data method lo hi th x y n ret.
Proof.
  intros Htrials.
  destruct (min_defined _ Htrials) as (lo & Hlo).
  destruct (max_defined _ Htrials) as (hi & Hhi).
  destruct (fit_run_value lib curve_fit _ _ method (all_columns_length dataset_data))
    as (x & y & n & ret & Hlv & Hrun & Hcases).
  destruct (simple_threshold_estimate_of_levels _ _ default_target _ _ _ Hlv)
    as (th & Hsimple).
  exists lo, hi, th, x, y, n, ret.
  repeat (split; [assumption|]).
  unfold analyze_dataset. cbv zeta.
  rewrite Hlo, Hhi, Hsimple. simpl bind. cbv beta iota.
  rewrite run_pbind, Hrun. reflexivity.
Qed.

(** X15: for a dataset with at least one trial and a method that is
    "logistic" or "cumulative_normal", [analyze_dataset] returns a record
    whatever the optimizer answers: with the parameters, R-squared and
    threshold of the fit when the fit returns one, and with [None], [None]
    and [nan] when it does not. *)
Theorem analyze_dataset_returns (lib : SciPy)
    (curve_fit : CurveFitArgs -> Response)
    (dataset_name : string) (dataset_data : list (string * Session))
    (method : string)
    (Htrials : all_cmpPx dataset_data <> [])
    (Hknown : known_method method) :
  exists record,
    run curve_fit (analyze_dataset lib dataset_name dataset_data method)
    = Ok record
    /\ ((exists f,
           run curve_fit
             (fit_psychophysical_curve lib (all_cmpPx dataset_data)
                (all_correct dataset_data) method) = Ok (Fitted f)
           /\ ar_fit_params record = Some (popt f)
           /\ ar_r_squared record = Some (r_squared f)
           /\ ar_threshold_707 record = threshold_707 f)
        \/ (run curve_fit
              (fit_psychophysical_curve lib (all_cmpPx dataset_data)
                 (all_correct dataset_data) method) = Ok AllNone
            /\ ar_fit_params record = None
            /\ ar_r_squared record = None
            /\ ar_threshold_707 record = NaN)).
Proof.
  destruct (analyze_run lib curve_fit dataset_name dataset_data method Htrials)
    as (lo & hi & th & x & y & n & ret & _ & _ & _ & Hrun & Hcases & ->).
  assert (ret = AllNone \/ exists f, ret = Fitted f) as Hret.
  { destruct Hcases as [[_ ->]|[(_ & _ & Hr)|(_ & C & _)]];
      [left; reflexivity | exact Hr | contradiction]. }
  destruct Hret as [->|(f & ->)].
  - eexists. split; [reflexivity|]. right. simpl. auto.
  - destruct (fitted_levels _ _ _ _ _ _ Hrun) as [_ Hreport].
    unfold package. rewrite Hreport. simpl bind.
    eexists. split; [reflexivity|]. left. exists f. simpl. auto.
Qed.

Lemma analyze_dataset_returns_witness :
  exists record,
    run (answer_with [1 # 2; 1; 2; 1])
      (analyze_dataset example_lib "bricks004" example_dataset "logistic")
    = Ok record
    /\ ar_fit_params record = Some [1 # 2; 1; 2; 1]
    /\ ar_threshold_707 record = Num 2.
Proof.
  destruct (analyze_dataset_returns example_lib (answer_with [1 # 2; 1; 2; 1])
              "bricks004" example_dataset "logistic") as (record & Hrun & _).
  - vm_compute. discriminate.
  - left. reflexivity.
  - exists record. split; [exact Hrun|].
    vm_compute in Hrun. injection Hrun as <-. split; reflexivity.
Defined.

(** X16: with a method name that is neither "logistic" nor
    "cumulative_normal", [analyze_dataset] on a dataset with at least one
    trial raises [TypeError] when at least four levels are kept, and returns
    a record without fit when fewer are kept. *)
Theorem unknown_method_outcome (lib : SciPy)
    (curve_fit : CurveFitArgs -> Response)
    (dataset_name : string) (dataset_data : list (string * Session))
    (method : string)
    (Htrials : all_cmpPx dataset_data <> [])
    (Hunknown : ~ known_method method) :
  exists x y n,
    simple.levels (all_cmpPx dataset_data) (all_correct dataset_data)
    = Ok (x, y, n)
    /\ (((4 <= length x)%nat
         /\ run curve_fit (analyze_dataset lib dataset_name dataset_data method)
            = Raise TypeError)
        \/ ((length x < 4)%nat
            /\ exists record,
                 run curve_fit
                   (analyze_dataset lib dataset_name dataset_data method)
                 = Ok record
                 /\ ar_fit_params record = None
                 /\ ar_x_data record = x)).
Proof.
  destruct (analyze_run lib curve_fit dataset_name dataset_data method Htrials)
    as (lo & hi & th & x & y & n & ret & _ & _ & Hsimple & _ & Hcases & ->).
  apply simple_threshold_estimate_inv in Hsimple.
  exists x, y, n. split; [exact Hsimple|].
  destruct Hcases as [[Hlt ->]|[(_ & C & _)|(Hge & _ & ->)]];
    [|contradiction|].
  - right. split; [exact Hlt|]. eexists. split; [reflexivity|]. simpl. auto.
  - left. split; [exact Hge | reflexivity].
Qed.

Lemma unknown_method_outcome_witness :
  run no_convergence
    (analyze_dataset example_lib "bricks004" example_dataset "probit")
  = Raise TypeError.
Proof.
  destruct (unknown_method_outcome example_lib no_convergence "bricks004"
              example_dataset "probit")
    as (x & y & n & Hlv & [[_ H]|[Hlt _]]).
  - vm_compute. discriminate.
  - intros [C|C]; discriminate C.
  - exact H.
  - vm_compute in Hlv. injection Hlv as <- _ _. simpl in Hlt. lia.
Defined.

Lemma session_trials_sum (dataset_data : list (string * Session)) :
  length (all_cmpPx dataset_data)
  = list_sum (map si_trials (session_info dataset_data)).
Proof.
  unfold all_cmpPx, session_info.
  induction dataset_data as [|[filename info] ds IH]; simpl; [reflexivity|].
  rewrite length_app, length_map, IH. reflexivity.
Qed.

Lemma sum_bounds (m : list bool) : (0 <= np.sum m <= Z.of_nat (length m))%Z.
Proof.
  rewrite sum_filter.
  pose proof (filter_length_le (fun b : bool => b) m). lia.
Qed.

(** X17: in every record that [analyze_dataset] returns, with or without a
    fit: the number of trials is the sum of the per-session numbers; the
    stimulus range is ordered and holds every intensity; the overall
    accuracy is a number between 0 and 1; the simple threshold and the level
    arrays are those of [simple_threshold_estimate]; and the fit parameters
    are [None] exactly when R-squared is [None], in which case the fitted
    threshold is [nan]. *)
Theorem record_consistent (lib : SciPy) (curve_fit : CurveFitArgs -> Response)
    (dataset_name : string) (dataset_data : list (string * Session))
    (method : string) (record : AnalysisResult)
    (H : run curve_fit (analyze_dataset lib dataset_name dataset_data method)
         = Ok record) :
  ar_n_trials record = list_sum (map si_trials (ar_session_info record))
  /\ fst (ar_stimulus_range record) <= snd (ar_stimulus_range record)
  /\ Forall (fun v => fst (ar_stimulus_range record) <= v
                      /\ v <= snd (ar_stimulus_range record))
            (all_cmpPx dataset_data)
  /\ (exists a, ar_overall_accuracy record = Num a /\ 0 <= a /\ a <= 1)
  /\ simple_threshold_estimate (all_cmpPx dataset_data)
       (all_correct dataset_data) default_target
     = Ok (ar_simple_threshold record, ar_x_data record, ar_y_data record,
           ar_n_trials_per_level record)
  /\ (ar_fit_params record = None <-> ar_r_squared record = None)
  /\ (ar_fit_params record = None -> ar_threshold_707 record = NaN).
Proof.
  assert (all_cmpPx dataset_data <> []) as Htrials.
  { intros E. unfold analyze_dataset in H. cbv zeta in H. rewrite E in H.
    simpl in H. discriminate H. }
  destruct (analyze_run lib curve_fit dataset_name dataset_data method Htrials)
    as (lo & hi & th & x & y & n & ret & Hlo & Hhi & Hsimple & Hrun & _ & E).
  rewrite E in H. clear E.
  apply min_least in Hlo. apply max_greatest in Hhi.
  assert (lo <= hi) as Hle.
  { destruct Hlo as [Hin _]. destruct Hhi as [_ Hall].
    rewrite Forall_forall in Hall. apply Hall, Hin. }
  assert (Forall (fun v => lo <= v /\ v <= hi) (all_cmpPx dataset_data)) as Hin.
  { destruct Hlo as [_ Hl]. destruct Hhi as [_ Hh].
    rewrite Forall_forall in *. intros v Hv. split; [apply Hl | apply Hh]; exact Hv. }
  assert (exists a, np.mean_bool (all_correct dataset_data) = Num a
                    /\ 0 <= a /\ a <= 1) as Hacc.
  { pose proof (all_columns_length dataset_data) as Hlen.
    destruct (all_correct dataset_data) as [|b l].
    - destruct (all_cmpPx dataset_data); [congruence | discriminate Hlen].
    - exists (inject_Z (np.sum (b :: l)) / inject_Z (Z.of_nat (length (b :: l)))).
      split; [reflexivity|].
      pose proof (sum_bounds (b :: l)) as [H0 H1].
      assert (0 < inject_Z (Z.of_nat (length (b :: l)))) as Hpos.
      { change 0 with (inject_Z 0). rewrite <- Zlt_Qlt. simpl length. lia. }
      split.
      + apply Qle_shift_div_l; [exact Hpos|]. rewrite Qmult_0_l.
        change 0 with (inject_Z 0). rewrite <- Zle_Qle. exact H0.
      + apply Qle_shift_div_r; [exact Hpos|]. rewrite Qmult_1_l.
        rewrite <- Zle_Qle. exact H1. }
  unfold package in H. destruct ret as [|f|]; [| |discriminate H].
  - injection H as <-. simpl.
    split; [apply session_trials_sum|]. repeat (split; [assumption|]).
    split; [split; reflexivity | reflexivity].
  - destruct (fitted_levels _ _ _ _ _ _ Hrun) as [Hlv Hreport].
    rewrite Hreport in H. simpl in H. injection H as <-. simpl.
    split; [apply session_trials_sum|]. repeat (split; [assumption|]).
    split.
    + pose proof (simple_threshold_estimate_inv _ _ _ _ _ _ _ Hsimple) as Hl.
      rewrite Hlv in Hl. injection Hl as Hx Hy Hn.
      rewrite Hx, Hy, Hn. exact Hsimple.
    + split; [split; discriminate | discriminate].
Qed.

Lemma record_consistent_witness :
  exists record,
    run no_convergence
      (analyze_dataset example_lib "bricks004" example_dataset "logistic")
    = Ok record
    /\ ar_n_trials record = list_sum (map si_trials (ar_session_info record))
    /\ fst (ar_stimulus_range record) <= snd (ar_stimulus_range record).
Proof.
  eexists.
  assert (H : run no_convergence
                (analyze_dataset example_lib "bricks004" example_dataset
                   "logistic") = Ok _) by (vm_compute; reflexivity).
  split; [exact H|].
  destruct (record_consistent _ _ _ _ _ _ H) as (Hn & Hrange & _).
  split; [exact Hn | exact Hrange].
Defined.

(** * Properties of the figure *)

Lemma fold_zmin (t : list Z) (h : Z) :
  In (fold_left Z.min t h) (h :: t)
  /\ Forall (fun k => (fold_left Z.min t h <= k)%Z) (h :: t).
Proof.
  revert h. induction t as [|a t IH]; intros h; simpl fold_left.
  - split; [left; reflexivity|]. constructor; [lia | constructor].
  - destruct (IH (Z.min h a)) as [Hin Hall].
    inversion Hall as [|? ? Hm Ht]; subst. split.
    + destruct Hin as [Hin|Hin]; [|right; right; exact Hin].
      rewrite <- Hin.
      destruct (Z.min_spec h a) as [[_ ->]|[_ ->]];
        [left | right; left]; reflexivity.
    + constructor; [lia|]. constructor; [lia | exact Ht].
Qed.

Lemma fold_zmax (t : list Z) (h : Z) :
  In (fold_left Z.max t h) (h :: t)
  /\ Forall (fun k => (k <= fold_left Z.max t h)%Z) (h :: t).
Proof.
  revert h. induction t as [|a t IH]; intros h; simpl fold_left.
  - split; [left; reflexivity|]. constructor; [lia | constructor].
  - destruct (IH (Z.max h a)) as [Hin Hall].
    inversion Hall as [|? ? Hm Ht]; subst. split.
    + destruct Hin as [Hin|Hin]; [|right; right; exact Hin].
      rewrite <- Hin.
      destruct (Z.max_spec h a) as [[_ ->]|[_ ->]];
        [right; left | left]; reflexivity.
    + constructor; [lia|]. constructor; [lia | exact Ht].
Qed.

Lemma marker_size_bounds (n lowest highest : Z) :
  (lowest <= n <= highest)%Z ->
  50 <= 50 + inject_Z (n - lowest) / inject_Z (highest - lowest + 1) * 150
  /\ 50 + inject_Z (n - lowest) / inject_Z (highest - lowest + 1) * 150 < 200.
Proof.
  intros [Hlo Hhi].
  assert (0 < inject_Z (highest - lowest + 1)) as Hpos
    by (change 0 with (inject_Z 0); rewrite <- Zlt_Qlt; lia).
  assert (0 <= inject_Z (n - lowest) / inject_Z (highest - lowest + 1)) as H0.
  { apply Qle_shift_div_l; [exact Hpos|]. rewrite Qmult_0_l.
    change 0 with (inject_Z 0). rewrite <- Zle_Qle. lia. }
  assert (inject_Z (n - lowest) / inject_Z (highest - lowest + 1) < 1) as H1.
  { apply Qlt_shift_div_r; [exact Hpos|]. rewrite Qmult_1_l.
    rewrite <- Zlt_Qlt. lia. }
  split; lra.
Qed.

(** X18: for a non-empty array of trial counts, line 422 gives one marker
    size per level, each at least 50 and below 200; a level with the fewest
    trials gets 50, and a level with more trials never gets a smaller marker.
    The divisor [max - min + 1] is positive. *)
Theorem marker_sizes_bounded (n_trials : list Z) (Hne : n_trials <> []) :
  exists sizes lowest highest,
    marker_sizes n_trials = Ok sizes
    /\ int_min n_trials = Ok lowest /\ int_max n_trials = Ok highest
    /\ (0 < highest - lowest + 1)%Z
    /\ length sizes = length n_trials
    /\ Forall (fun s => 50 <= s /\ s < 200) sizes
    /\ (forall i, nth_error n_trials i = Some lowest ->
          exists s, nth_error sizes i = Some s /\ s == 50)
    /\ forall i j ni nj si sj,
         nth_error n_trials i = Some ni -> nth_error n_trials j = Some nj ->
         nth_error sizes i = Some si -> nth_error sizes j = Some sj ->
         (ni <= nj)%Z -> si <= sj.
Proof.
  destruct n_trials as [|h t]; [congruence|].
  destruct (fold_zmin t h) as [Hmin_in Hmin]. destruct (fold_zmax t h) as [Hmax_in Hmax].
  set (lowest := fold_left Z.min t h) in *.
  set (highest := fold_left Z.max t h) in *.
  assert (lowest <= highest)%Z as Hle.
  { rewrite Forall_forall in Hmax. apply Hmax, Hmin_in. }
  assert (0 < inject_Z (highest - lowest + 1)) as Hpos
    by (change 0 with (inject_Z 0); rewrite <- Zlt_Qlt; lia).
  eexists. exists lowest, highest.
  split; [reflexivity|]. split; [reflexivity|]. split; [reflexivity|].
  split; [lia|]. split; [apply length_map|]. split; [|split].
  - apply Forall_forall. intros s Hs. apply in_map_iff in Hs.
    destruct Hs as (n & <- & Hn). apply marker_size_bounds.
    rewrite Forall_forall in Hmin, Hmax. split; [apply Hmin | apply Hmax]; exact Hn.
  - intros i Hi. rewrite nth_error_map, Hi. simpl. eexists. split; [reflexivity|].
    rewrite Z.sub_diag. unfold Qdiv. rewrite Qmult_0_l. lra.
  - intros i j ni nj si sj Hi Hj Hsi Hsj Hn.
    rewrite nth_error_map, Hi in Hsi. rewrite nth_error_map, Hj in Hsj.
    simpl in Hsi, Hsj. injection Hsi as <-. injection Hsj as <-.
    assert (inject_Z (ni - lowest) / inject_Z (highest - lowest + 1)
            <= inject_Z (nj - lowest) / inject_Z (highest - lowest + 1)) as Hd.
    { unfold Qdiv. apply Qmult_le_compat_r.
      - rewrite <- Zle_Qle. lia.
      - apply Qlt_le_weak, Qinv_lt_0_compat, Hpos. }
    unfold lowest, highest in Hd. lra.
Qed.

Lemma marker_sizes_bounded_witness :
  exists sizes lowest highest,
    marker_sizes [2%Z; 5%Z; 3%Z] = Ok sizes
    /\ int_min [2%Z; 5%Z; 3%Z] = Ok lowest
    /\ int_max [2%Z; 5%Z; 3%Z] = Ok highest
    /\ (0 < highest - lowest + 1)%Z
    /\ length sizes = 3%nat
    /\ Forall (fun s => 50 <= s /\ s < 200) sizes.
Proof.
  destruct (marker_sizes_bounded [2%Z; 5%Z; 3%Z])
    as (sizes & lowest & highest & H1 & H2 & H3 & H4 & H5 & H6 & _).
  - discriminate.
  - exists sizes, lowest, highest. auto 10.
Defined.

Lemma filter_none {A : Type} (f : A -> bool) (l : list A) :
  (forall a, f a = false) -> filter f l = [].
Proof.
  intros H. induction l as [|a l IH]; simpl; [reflexivity|].
  rewrite H. exact IH.
Qed.

(** X19: when no intensity occurs in two trials of a dataset with at least
    one trial, [analyze_dataset] returns a record whose level arrays are
    empty, whatever the method and the optimizer, and line 422 of the figure
    raises [ValueError] on that record. *)
Theorem no_repeated_intensity_no_marker (lib : SciPy)
    (curve_fit : CurveFitArgs -> Response)
    (dataset_name : string) (dataset_data : list (string * Session))
    (method : string)
    (Htrials : all_cmpPx dataset_data <> [])
    (Hsingle : forall v, (trial_count (all_cmpPx dataset_data) v < 2)%Z) :
  exists record,
    run curve_fit (analyze_dataset lib dataset_name dataset_data method)
    = Ok record
    /\ ar_x_data record = [] /\ ar_y_data record = []
    /\ ar_n_trials_per_level record = []
    /\ ar_simple_threshold record = NaN
    /\ ar_fit_params record = None
    /\ marker_sizes (ar_n_trials_per_level record) = Raise ValueError.
Proof.
  destruct (analyze_run lib curve_fit dataset_name dataset_data method Htrials)
    as (lo & hi & th & x & y & n & ret & _ & _ & Hsimple & _ & Hcases & ->).
  pose proof (simple_threshold_estimate_inv _ _ _ _ _ _ _ Hsimple) as Hlv.
  pose proof (levels_ok _ _ _ _ _ Hlv) as (Hx & Hy & Hn).
  assert (x = []) as ->.
  { rewrite Hx. apply filter_none. intros v. unfold qualifies.
    destruct (Z.leb_spec 2 (trial_count (all_cmpPx dataset_data) v)) as [C|_];
      [|reflexivity].
    specialize (Hsingle v). lia. }
  simpl in Hy, Hn. subst y n.
  assert (th = NaN) as ->.
  { unfold simple_threshold_estimate in Hsimple. rewrite Hlv in Hsimple.
    simpl in Hsimple. injection Hsimple as <-. reflexivity. }
  assert (ret = AllNone) as ->.
  { destruct Hcases as [[_ E]|[(C & _)|(C & _)]];
      [exact E | simpl in C; lia | simpl in C; lia]. }
  eexists. split; [reflexivity|]. simpl. auto 10.
Qed.

Lemma no_repeated_intensity_no_marker_witness :
  exists record,
    run no_convergence
      (analyze_dataset example_lib "rock062" singles_dataset "logistic")
    = Ok record
    /\ ar_x_data record = [] /\ ar_y_data record = []
    /\ ar_n_trials_per_level record = []
    /\ ar_simple_threshold record = NaN
    /\ ar_fit_params record = None
    /\ marker_sizes (ar_n_trials_per_level record) = Raise ValueError.
Proof.
  apply (no_repeated_intensity_no_marker example_lib no_convergence "rock062"
           singles_dataset "logistic").
  - vm_compute. discriminate.
  - intros v. unfold trial_count. simpl.
    destruct (Qeq_bool 1 v) eqn:E1, (Qeq_bool 2 v) eqn:E2, (Qeq_bool 3 v) eqn:E3;
      simpl; try lia;
      repeat match goal with
             | H : Qeq_bool _ _ = true |- _ => apply Qeq_bool_iff in H
             end; lra.
Defined.

(** * Properties of the loader *)

Import Ascii.

Lemma append_assoc (a b c : string) :
  ((a ++ b) ++ c = a ++ (b ++ c))%string.
Proof. induction a as [|x a IH]; simpl; [reflexivity | rewrite IH; reflexivity]. Qed.

Lemma append_empty (a : string) : (a ++ "" = a)%string.
Proof. induction a as [|x a IH]; simpl; [reflexivity | rewrite IH; reflexivity]. Qed.

Lemma append_length (a b : string) :
  String.length (a ++ b) = (String.length a + String.length b)%nat.
Proof. induction a as [|x a IH]; simpl; [reflexivity | rewrite IH; reflexivity]. Qed.

Lemma substring_prefix (a b : string) :
  substring 0 (String.length a) (a ++ b) = a.
Proof.
  induction a as [|x a IH]; simpl.
  - destruct b; reflexivity.
  - rewrite IH. reflexivity.
Qed.

Lemma substring_skip (a b : string) (m : nat) :
  substring (String.length a) m (a ++ b) = substring 0 m b.
Proof. induction a as [|x a IH]; simpl; [reflexivity | exact IH]. Qed.

(** The slice that covers the middle one of three pieces. *)
Lemma slice_middle (a b c : string) (i j : nat) :
  String.length a = i -> (i + String.length b)%nat = j ->
  loader.slice i j (a ++ b ++ c) = b.
Proof.
  intros <- <-. unfold loader.slice.
  replace (String.length a + String.length b - String.length a)%nat
    with (String.length b) by lia.
  rewrite substring_skip. apply substring_prefix.
Qed.

Lemma count_char_append (c : ascii) (a b : string) :
  naming.count_char c (a ++ b)
  = (naming.count_char c a + naming.count_char c b)%nat.
Proof.
  induction a as [|x a IH]; simpl; [reflexivity|]. rewrite IH. lia.
Qed.

Lemma split_cons (sep : ascii) (s : string) :
  exists part parts, loader.split sep s = part :: parts.
Proof.
  induction s as [|c s (part & parts & IH)]; simpl; [eauto|].
  destruct (Ascii.eqb c sep); [eauto|]. rewrite IH. eauto.
Qed.

Lemma split_length (sep : ascii) (s : string) :
  length (loader.split sep s) = S (naming.count_char sep s).
Proof.
  induction s as [|c s IH]; simpl; [reflexivity|].
  destruct (Ascii.eqb c sep); simpl; [rewrite IH; reflexivity|].
  destruct (split_cons sep s) as (part & parts & E). rewrite E in *. exact IH.
Qed.

(** Splitting a string whose first piece holds no separator. *)
Lemma split_first (sep : ascii) (a t : string) :
  naming.count_char sep a = O ->
  loader.split sep (a ++ String sep t) = a :: loader.split sep t.
Proof.
  induction a as [|x a IH]; simpl; intros H.
  - rewrite Ascii.eqb_refl. reflexivity.
  - destruct (Ascii.eqb x sep); [discriminate H|]. simpl in H.
    rewrite (IH H). reflexivity.
Qed.

Lemma split_head (sep : ascii) (a t : string) :
  naming.count_char sep a = O ->
  exists part parts,
    loader.split sep t = part :: parts
    /\ loader.split sep (a ++ t) = (a ++ part)%string :: parts.
Proof.
  intros H. destruct (split_cons sep t) as (part & parts & E).
  exists part, parts. split; [exact E|].
  induction a as [|x a IH]; simpl; [exact E|].
  simpl in H. destruct (Ascii.eqb x sep); [discriminate H|].
  rewrite (IH H). reflexivity.
Qed.

Lemma zero_pad_length (width : nat) (n : Z) :
  String.length (naming.zero_pad width n) = width.
Proof.
  revert n. induction width as [|w IH]; intros n; [reflexivity|].
  cbn [naming.zero_pad]. rewrite append_length, IH.
  cbn [String.length]. lia.
Qed.

Lemma digit_char_cases (d : Z) :
  (0 <= d < 10)%Z ->
  In (naming.digit_char d)
     ["0"; "1"; "2"; "3"; "4"; "5"; "6"; "7"; "8"; "9"]%char.
Proof.
  intros H.
  assert (d = 0 \/ d = 1 \/ d = 2 \/ d = 3 \/ d = 4 \/ d = 5 \/ d = 6 \/ d = 7
          \/ d = 8 \/ d = 9)%Z as C by lia.
  repeat (destruct C as [->|C]; [vm_compute; tauto|]). subst d. vm_compute. tauto.
Qed.

Lemma digit_char_no_separator (c : ascii) (d : Z) :
  c = "_"%char \/ c = "."%char -> (0 <= d < 10)%Z ->
  Ascii.eqb (naming.digit_char d) c = false.
Proof.
  intros Hc Hd. apply digit_char_cases in Hd.
  cbn [In] in Hd.
  destruct Hc as [-> | ->];
    repeat (destruct Hd as [<-|Hd]; [reflexivity|]); destruct Hd.
Qed.

Lemma zero_pad_no_separator (c : ascii) (width : nat) (n : Z) :
  c = "_"%char \/ c = "."%char ->
  naming.count_char c (naming.zero_pad width n) = O.
Proof.
  intros Hc. revert n. induction width as [|w IH]; intros n; [reflexivity|].
  cbn [naming.zero_pad]. rewrite count_char_append, IH.
  cbn [naming.count_char].
  rewrite (digit_char_no_separator c (n mod 10) Hc (Z.mod_pos_bound n 10 ltac:(lia))).
  reflexivity.
Qed.

Lemma make_datetime_valid (d : datetime) :
  naming.valid_datetime d ->
  loader.make_datetime (year d) (month d) (day d) (hour d) (minute d) (second d)
  = loader.Done d.
Proof.
  unfold naming.valid_datetime, loader.make_datetime. intros H. rewrite H.
  unfold loader.valid_fields, loader.in_range in H.
  repeat (apply andb_prop in H; destruct H as [H ?]).
  assert (loader.days_in_month (year d) (month d) <= 31)%Z as Hdim.
  { unfold loader.days_in_month.
    destruct ((month d =? 2)%Z && loader.is_leap (year d)); [lia|].
    assert (month d = 1 \/ month d = 2 \/ month d = 3 \/ month d = 4
            \/ month d = 5 \/ month d = 6 \/ month d = 7 \/ month d = 8
            \/ month d = 9 \/ month d = 10 \/ month d = 11 \/ month d = 12)%Z
      as C by lia.
    repeat (destruct C as [->|C]; [simpl; lia|]). rewrite C. simpl. lia. }
  replace (loader.c_int (year d)) with true by (unfold loader.c_int; lia).
  replace (loader.c_int (month d)) with true by (unfold loader.c_int; lia).
  replace (loader.c_int (day d)) with true by (unfold loader.c_int; lia).
  replace (loader.c_int (hour d)) with true by (unfold loader.c_int; lia).
  replace (loader.c_int (minute d)) with true by (unfold loader.c_int; lia).
  replace (loader.c_int (second d)) with true by (unfold loader.c_int; lia).
  simpl. destruct d. reflexivity.
Qed.

Lemma valid_datetime_ranges (d : datetime) :
  naming.valid_datetime d ->
  (1 <= year d <= 9999 /\ 1 <= month d <= 12 /\ 1 <= day d <= 31
   /\ 0 <= hour d <= 23 /\ 0 <= minute d <= 59 /\ 0 <= second d <= 59)%Z.
Proof.
  unfold naming.valid_datetime, loader.valid_fields, loader.in_range. intros H.
  repeat (apply andb_prop in H; destruct H as [H ?]).
  assert (loader.days_in_month (year d) (month d) <= 31)%Z as Hdim.
  { unfold loader.days_in_month.
    destruct ((month d =? 2)%Z && loader.is_leap (year d)); [lia|].
    assert (month d = 1 \/ month d = 2 \/ month d = 3 \/ month d = 4
            \/ month d = 5 \/ month d = 6 \/ month d = 7 \/ month d = 8
            \/ month d = 9 \/ month d = 10 \/ month d = 11 \/ month d = 12)%Z
      as C by lia.
    repeat (destruct C as [->|C]; [simpl; lia|]). rewrite C. simpl. lia. }
  lia.
Qed.

(** The three slices of a string that starts with three pieces of known
    lengths. *)
Lemma slice_three (a b c r : string) (la lb lc : nat) :
  String.length a = la -> String.length b = lb -> String.length c = lc ->
  loader.slice 0 la (a ++ b ++ c ++ r) = a
  /\ loader.slice la (la + lb) (a ++ b ++ c ++ r) = b
  /\ loader.slice (la + lb) (la + lb + lc) (a ++ b ++ c ++ r) = c.
Proof.
  intros Ha Hb Hc. split; [|split].
  - apply (slice_middle "" a (b ++ c ++ r) 0 la); [reflexivity | simpl; exact Ha].
  - apply (slice_middle a b (c ++ r) la (la + lb)); [exact Ha | lia].
  - rewrite <- (append_assoc a b (c ++ r)).
    apply (slice_middle (a ++ b) c r (la + lb) (la + lb + lc)).
    + rewrite append_length. lia.
    + lia.
Qed.

Lemma int_zero_pad (b : loader.Builtins) (width : nat) (n hi : Z) :
  naming.reads_decimals b -> (0 < width)%nat ->
  (0 <= n <= hi)%Z -> (hi < 10 ^ Z.of_nat width)%Z ->
  loader.int b (naming.zero_pad width n) = loader.Done n.
Proof.
  intros Hint Hw Hn Hhi. unfold loader.int.
  rewrite (Hint width n Hw); [reflexivity | lia].
Qed.

(** X20: [parse_filename_datetime] reads back the time stamp of a session
    file name.  When [int] reads decimal digits and the base name of the
    path is [part0_part1_YYYYMMDD_HHMMSS] followed by anything, for a valid
    calendar time and two parts without underscore, the function returns
    that time. *)
Theorem parse_session_name (b : loader.Builtins)
    (path part0 part1 rest : string) (d : datetime)
    (Hint : naming.reads_decimals b)
    (Hvalid : naming.valid_datetime d)
    (H0 : naming.count_char "_" part0 = O)
    (H1 : naming.count_char "_" part1 = O)
    (Hbase : loader.basename b path = naming.session_name part0 part1 d rest) :
  loader.parse_filename_datetime b path = loader.Done (Some d).
Proof.
  pose proof (valid_datetime_ranges d Hvalid) as (Hy & Hm & Hd & Hh & Hmi & Hs).
  unfold loader.parse_filename_datetime. cbv zeta. rewrite Hbase.
  unfold naming.session_name.
  set (py := naming.zero_pad 4 (year d)).
  set (pm := naming.zero_pad 2 (month d)).
  set (pd := naming.zero_pad 2 (day d)).
  set (ph := naming.zero_pad 2 (hour d)).
  set (pmi := naming.zero_pad 2 (minute d)).
  set (ps := naming.zero_pad 2 (second d)).
  assert (forall c, c = "_"%char \/ c = "."%char ->
            naming.count_char c (py ++ pm ++ pd) = O
            /\ naming.count_char c (ph ++ pmi ++ ps) = O) as Hsep.
  { intros c Hc. rewrite !count_char_append.
    unfold py, pm, pd, ph, pmi, ps.
    rewrite !(zero_pad_no_separator c _ _ Hc). split; reflexivity. }
  destruct (Hsep "_"%char (or_introl eq_refl)) as [Hdate Htime].
  destruct (Hsep "."%char (or_intror eq_refl)) as [_ Htime'].
  destruct (split_head "_" (ph ++ pmi ++ ps) rest Htime)
    as (r0 & rs & _ & Hsplit3).
  destruct (split_head "." (ph ++ pmi ++ ps) r0 Htime')
    as (r00 & rs' & _ & Hsplit4).
  replace (part0 ++ "_" ++ part1 ++ "_" ++ py ++ pm ++ pd ++ "_"
           ++ ph ++ pmi ++ ps ++ rest)%string
    with (part0 ++ String "_" (part1 ++ String "_"
            ((py ++ pm ++ pd) ++ String "_" ((ph ++ pmi ++ ps) ++ rest))))%string
    by (rewrite !append_assoc; reflexivity).
  rewrite (split_first "_" part0 _ H0), (split_first "_" part1 _ H1),
    (split_first "_" _ _ Hdate), Hsplit3.
  cbn [length Nat.leb nth]. rewrite Hsplit4. cbn [nth].
  destruct (slice_three py pm pd "" 4 2 2) as (E1 & E2 & E3);
    try (apply zero_pad_length).
  rewrite append_empty in E1, E2, E3.
  destruct (slice_three ph pmi ps r00 2 2 2) as (E4 & E5 & E6);
    try (apply zero_pad_length).
  rewrite (append_assoc ph (pmi ++ ps) r00), (append_assoc pmi ps r00).
  cbn [Nat.add] in E1, E2, E3, E4, E5, E6.
  rewrite E1, E2, E3, E4, E5, E6.
  unfold py, pm, pd, ph, pmi, ps.
  rewrite (int_zero_pad b 4 (year d) 9999 Hint), (int_zero_pad b 2 (month d) 12 Hint),
    (int_zero_pad b 2 (day d) 31 Hint), (int_zero_pad b 2 (hour d) 23 Hint),
    (int_zero_pad b 2 (minute d) 59 Hint), (int_zero_pad b 2 (second d) 59 Hint);
    try lia; try reflexivity.
  cbn [loader.and_then]. rewrite (make_datetime_valid d Hvalid). reflexivity.
Qed.

Lemma digit_value_char (d : Z) :
  (0 <= d < 10)%Z -> naming.digit_value (naming.digit_char d) = Some d.
Proof.
  intros H.
  assert (d = 0 \/ d = 1 \/ d = 2 \/ d = 3 \/ d = 4 \/ d = 5 \/ d = 6 \/ d = 7
          \/ d = 8 \/ d = 9)%Z as C by lia.
  repeat (destruct C as [->|C]; [reflexivity|]). subst d. reflexivity.
Qed.

Lemma decimal_digits_append (s t : string) (acc : Z) :
  naming.decimal_digits (s ++ t) acc
  = match naming.decimal_digits s acc with
    | Some v => naming.decimal_digits t v
    | None => None
    end.
Proof.
  revert acc. induction s as [|c s IH]; intros acc; [reflexivity|].
  cbn [append naming.decimal_digits].
  destruct (naming.digit_value c); [apply IH | reflexivity].
Qed.

Lemma decimal_digits_zero_pad (width : nat) (n acc : Z) :
  (0 <= n < 10 ^ Z.of_nat width)%Z ->
  naming.decimal_digits (naming.zero_pad width n) acc
  = Some (acc * 10 ^ Z.of_nat width + n)%Z.
Proof.
  revert n acc. induction width as [|w IH]; intros n acc Hn.
  - cbn [naming.zero_pad naming.decimal_digits]. f_equal.
    change (10 ^ Z.of_nat 0)%Z with 1%Z in *. lia.
  - cbn [naming.zero_pad]. rewrite decimal_digits_append.
    rewrite Nat2Z.inj_succ, Z.pow_succ_r in * by lia.
    rewrite IH by (split; [apply Z.div_pos; lia | apply Z.div_lt_upper_bound; lia]).
    cbn [naming.decimal_digits].
    rewrite digit_value_char by (apply Z.mod_pos_bound; lia).
    f_equal. pose proof (Z.div_mod n 10 ltac:(lia)). lia.
Qed.

Lemma example_builtins_read_decimals : naming.reads_decimals naming.example_builtins.
Proof.
  intros width n Hw Hn. cbn [naming.example_builtins loader.py_int].
  unfold naming.decimal_int.
  destruct (naming.zero_pad width n) as [|c s] eqn:E.
  - apply (f_equal String.length) in E. rewrite zero_pad_length in E.
    simpl in E. lia.
  - rewrite <- E, decimal_digits_zero_pad by exact Hn. reflexivity.
Qed.

Lemma parse_session_name_witness :
  loader.parse_filename_datetime naming.example_builtins
    "2AFC_P_20251020_003915.csv" = loader.Done (Some example_datetime).
Proof.
  apply (parse_session_name naming.example_builtins
           "2AFC_P_20251020_003915.csv" "2AFC" "P" ".csv" example_datetime).
  - exact example_builtins_read_decimals.
  - reflexivity.
  - reflexivity.
  - reflexivity.
  - reflexivity.
Defined.

(** X21: [parse_filename_datetime] returns [None] exactly when the base name
    holds fewer than three underscores; with three or more it either raises
    or returns a time, and a time that it returns is a valid calendar time
    (month 1-12, day within the month, hour below 24, ...). *)
Theorem parse_none_iff_few_parts (b : loader.Builtins) (filename : string) :
  (loader.parse_filename_datetime b filename = loader.Done None
   <-> (naming.count_char "_" (loader.basename b filename) < 3)%nat)
  /\ forall d,
       loader.parse_filename_datetime b filename = loader.Done (Some d) ->
       naming.valid_datetime d
       /\ (3 <= naming.count_char "_" (loader.basename b filename))%nat.
Proof.
  unfold loader.parse_filename_datetime. cbv zeta. rewrite split_length.
  destruct (Nat.leb_spec 4 (S (naming.count_char "_" (loader.basename b filename))))
    as [Hge|Hlt].
  - set (date_str := nth 2 _ _). set (time_str := nth 0 _ _).
    unfold loader.int.
    destruct (loader.py_int b (loader.slice 0 4 date_str)) as [y|];
      [|split; [split; [discriminate | lia] | discriminate]].
    destruct (loader.py_int b (loader.slice 4 6 date_str)) as [m|];
      [|split; [split; [discriminate | lia] | discriminate]].
    destruct (loader.py_int b (loader.slice 6 8 date_str)) as [dd|];
      [|split; [split; [discriminate | lia] | discriminate]].
    destruct (loader.py_int b (loader.slice 0 2 time_str)) as [h|];
      [|split; [split; [discriminate | lia] | discriminate]].
    destruct (loader.py_int b (loader.slice 2 4 time_str)) as [mi|];
      [|split; [split; [discriminate | lia] | discriminate]].
    destruct (loader.py_int b (loader.slice 4 6 time_str)) as [s|];
      [|split; [split; [discriminate | lia] | discriminate]].
    cbn [loader.and_then]. unfold loader.make_datetime.
    destruct (negb _); [split; [split; [discriminate | lia] | discriminate]|].
    destruct (loader.valid_fields y m dd h mi s) eqn:Hv;
      [|split; [split; [discriminate | lia] | discriminate]].
    cbn [loader.and_then]. split; [split; [discriminate | lia]|].
    intros d H. injection H as <-. split; [exact Hv | lia].
  - split; [split; [lia | reflexivity] | discriminate].
Qed.

Lemma parse_none_iff_few_parts_witness :
  loader.parse_filename_datetime naming.example_builtins "2AFC_P_notes.csv"
  = loader.Done None
  /\ naming.valid_datetime example_datetime.
Proof.
  destruct (parse_none_iff_few_parts naming.example_builtins "2AFC_P_notes.csv")
    as [Hnone _].
  destruct (parse_none_iff_few_parts naming.example_builtins
              "2AFC_P_20251020_003915.csv") as [_ Hsome].
  split.
  - apply Hnone. simpl. lia.
  - apply (Hsome example_datetime). reflexivity.
Defined.

From Stdlib Require Import Permutation.

Lemma lex_compare_flip (a b : list Z) :
  loader.lex_compare b a = CompOpp (loader.lex_compare a b).
Proof.
  revert b. induction a as [|x a IH]; intros [|y b]; simpl; try reflexivity.
  rewrite (Z.compare_antisym x y).
  destruct (x ?= y)%Z; simpl; [apply IH | reflexivity | reflexivity].
Qed.

Lemma lex_compare_ge_trans (a b c : list Z) :
  loader.lex_compare a b <> Lt -> loader.lex_compare b c <> Lt ->
  loader.lex_compare a c <> Lt.
Proof.
  revert b c. induction a as [|x a IH]; intros [|y b] [|z c]; simpl;
    try congruence.
  destruct (Z.compare_spec x y), (Z.compare_spec y z), (Z.compare_spec x z);
    subst; try lia; try congruence.
  apply IH.
Qed.

Lemma not_older_iff (a b : string * datetime) :
  naming.not_older a b
  <-> loader.lex_compare (loader.fields (snd a)) (loader.fields (snd b)) <> Lt.
Proof.
  unfold naming.not_older, loader.datetime_ltb.
  destruct (loader.lex_compare _ _); split; congruence.
Qed.

Lemma not_older_trans (a b c : string * datetime) :
  naming.not_older a b -> naming.not_older b c -> naming.not_older a c.
Proof. rewrite !not_older_iff. apply lex_compare_ge_trans. Qed.

Lemma older_not_older (a b : string * datetime) :
  loader.datetime_ltb (snd a) (snd b) = true -> naming.not_older b a.
Proof.
  rewrite not_older_iff. unfold loader.datetime_ltb.
  rewrite (lex_compare_flip (loader.fields (snd a))).
  destruct (loader.lex_compare _ _); simpl; congruence.
Qed.

Lemma insert_newest_perm (e : string * datetime) (l : list (string * datetime)) :
  Permutation (loader.insert_newest e l) (e :: l).
Proof.
  induction l as [|h t IH]; simpl; [reflexivity|].
  destruct (loader.datetime_ltb (snd e) (snd h)); [|reflexivity].
  rewrite IH. apply perm_swap.
Qed.

Lemma sort_newest_first_perm (l : list (string * datetime)) :
  Permutation (loader.sort_newest_first l) l.
Proof.
  induction l as [|e l IH]; simpl; [reflexivity|].
  rewrite insert_newest_perm, IH. reflexivity.
Qed.

Lemma insert_newest_sorted (e : string * datetime) (l : list (string * datetime)) :
  StronglySorted naming.not_older l ->
  StronglySorted naming.not_older (loader.insert_newest e l).
Proof.
  induction 1 as [|h t Hs IH Hh]; simpl; [repeat constructor|].
  destruct (loader.datetime_ltb (snd e) (snd h)) eqn:E.
  - constructor; [exact IH|].
    apply Forall_forall. intros x Hx.
    apply (Permutation_in _ (insert_newest_perm e t)) in Hx.
    destruct Hx as [<-|Hx]; [apply older_not_older, E|].
    rewrite Forall_forall in Hh. apply Hh, Hx.
  - constructor; [constructor; assumption|].
    constructor; [exact E|].
    eapply Forall_impl; [|exact Hh].
    intros x Hx. apply (not_older_trans e h x); assumption.
Qed.

Lemma sort_newest_first_sorted (l : list (string * datetime)) :
  StronglySorted naming.not_older (loader.sort_newest_first l).
Proof.
  induction l as [|e l IH]; simpl; [constructor | apply insert_newest_sorted, IH].
Qed.

Lemma sorted_app {A : Type} (R : A -> A -> Prop) (l1 l2 : list A) :
  StronglySorted R (l1 ++ l2) ->
  StronglySorted R l1 /\ forall a b, In a l1 -> In b l2 -> R a b.
Proof.
  induction l1 as [|x l1 IH]; simpl; intros H.
  - split; [constructor | intros a b []].
  - inversion H as [|? ? Hs Hx]; subst. destruct (IH Hs) as [Hs1 Hcross].
    rewrite Forall_forall in Hx. split.
    + constructor; [exact Hs1|]. apply Forall_forall. intros y Hy.
      apply Hx, in_or_app. left. exact Hy.
    + intros a b [<-|Ha] Hb; [apply Hx, in_or_app; right; exact Hb|].
      apply Hcross; assumption.
Qed.

Lemma file_info_entries (b : loader.Builtins) (csv_files : list string)
    (infos : list (string * datetime)) :
  loader.file_info b csv_files = loader.Done infos ->
  forall f d, In (f, d) infos ->
    In f csv_files /\ loader.parse_filename_datetime b f = loader.Done (Some d).
Proof.
  revert infos. induction csv_files as [|file rest IH]; intros infos H f d Hin;
    simpl in H.
  - injection H as <-. destruct Hin.
  - destruct (loader.parse_filename_datetime b file) as [r|e] eqn:Ep;
      [|discriminate H].
    simpl in H. destruct (loader.file_info b rest) as [infos'|e]; [|discriminate H].
    simpl in H. destruct r as [d'|]; injection H as <-.
    + destruct Hin as [E|Hin].
      * injection E as <- <-. split; [left; reflexivity | exact Ep].
      * destruct (IH infos' eq_refl f d Hin) as [H1 H2]. split; [right|]; assumption.
    + destruct (IH infos' eq_refl f d Hin) as [H1 H2]. split; [right|]; assumption.
Qed.

Lemma file_info_throws (b : loader.Builtins) (csv_files : list string) :
  (exists e, loader.file_info b csv_files = loader.Throw e)
  <-> exists f e, In f csv_files
                  /\ loader.parse_filename_datetime b f = loader.Throw e.
Proof.
  induction csv_files as [|file rest IH]; simpl.
  - split; [intros (e & H); discriminate H | intros (f & e & [] & _)].
  - destruct (loader.parse_filename_datetime b file) as [r|e0] eqn:Ep; simpl.
    + destruct (loader.file_info b rest) as [infos|e1]; simpl.
      * split.
        -- intros (e & H). destruct r; discriminate H.
        -- intros (f & e & [<-|Hin] & Hf); [congruence|].
           destruct (proj2 IH) as (e' & C); [eauto | discriminate C].
      * split; [|eauto]. intros _.
        destruct (proj1 IH) as (f & e & Hin & Hf); eauto.
    + split; [|eauto]. intros _. exists file, e0. auto.
Qed.

(** X22: when [select_files] returns, its list is ordered newest first and
    each entry is a listed file that starts with [2AFC_P_], with the time that
    [parse_filename_datetime] reads from its name.  Without [num_recent], or
    with one that is zero or negative, every such file is kept; with a
    positive [num_recent] the list is the first [num_recent] entries of the
    sorted one, so that no file left out is newer than a file kept. *)
Theorem select_files_newest_first (b : loader.Builtins)
    (glob_csv : list string) (num_recent : option Z)
    (selected : list (string * datetime))
    (H : loader.select_files b glob_csv num_recent = loader.Done selected) :
  exists infos,
    loader.file_info b (filter (String.prefix "2AFC_P_") glob_csv)
    = loader.Done infos
    /\ Permutation (loader.sort_newest_first infos) infos
    /\ StronglySorted naming.not_older selected
    /\ (forall f d, In (f, d) selected ->
          In f glob_csv /\ String.prefix "2AFC_P_" f = true
          /\ loader.parse_filename_datetime b f = loader.Done (Some d))
    /\ (forall k, num_recent = Some k -> (0 < k)%Z ->
          selected = firstn (Z.to_nat k) (loader.sort_newest_first infos)
          /\ (length selected <= Z.to_nat k)%nat
          /\ forall kept dropped,
               In kept selected ->
               In dropped (skipn (Z.to_nat k) (loader.sort_newest_first infos)) ->
               naming.not_older kept dropped)
    /\ (num_recent = None \/ (exists k, num_recent = Some k /\ (k <= 0)%Z) ->
        selected = loader.sort_newest_first infos).
Proof.
  unfold loader.select_files in H. cbv zeta in H.
  destruct (loader.file_info b (filter (String.prefix "2AFC_P_") glob_csv))
    as [infos|e] eqn:Einfo; [|discriminate H].
  cbn [loader.and_then] in H.
  exists infos. split; [reflexivity|].
  split; [apply sort_newest_first_perm|].
  pose proof (sort_newest_first_sorted infos) as Hsorted.
  set (sorted := loader.sort_newest_first infos) in *.
  assert (forall e, In e sorted -> In e infos) as Hin.
  { intros e He. apply (Permutation_in _ (sort_newest_first_perm infos)), He. }
  assert (((num_recent = None \/ exists k, num_recent = Some k /\ (k <= 0)%Z)
           /\ selected = sorted)
          \/ exists k, num_recent = Some k /\ (0 < k)%Z
                       /\ selected = firstn (Z.to_nat k) sorted) as Hshape.
  { destruct num_recent as [k|]; [|injection H as <-; left; auto].
    destruct (Z.ltb_spec 0 k) as [Hk|Hk].
    - replace (k =? 0)%Z with false in H by (symmetry; apply Z.eqb_neq; lia).
      injection H as <-. right. exists k. auto.
    - rewrite andb_false_r in H. injection H as <-. left. split; [|reflexivity].
      right. exists k. auto. }
  assert (forall e, In e selected -> In e sorted) as Hsel.
  { destruct Hshape as [[_ ->]|(k & _ & _ & ->)]; [auto|].
    intros e He. rewrite <- (firstn_skipn (Z.to_nat k) sorted).
    apply in_or_app. left. exact He. }
  split; [|split; [|split]].
  - destruct Hshape as [[_ ->]|(k & _ & _ & ->)]; [exact Hsorted|].
    rewrite <- (firstn_skipn (Z.to_nat k) sorted) in Hsorted.
    apply sorted_app in Hsorted. apply Hsorted.
  - intros f d Hfd. apply Hsel, Hin in Hfd.
    destruct (file_info_entries _ _ _ Einfo f d Hfd) as [Hf Hp].
    apply filter_In in Hf. destruct Hf as [Hg Hpre]. auto.
  - intros k Ek Hk.
    destruct Hshape as [[[C|(k' & C & Hk')] _]|(k' & Ek' & _ & ->)];
      rewrite Ek in *; try discriminate C.
    + injection C as <-. lia.
    + injection Ek' as <-. split; [reflexivity|].
      split; [apply firstn_le_length|].
      intros kept dropped Hkept Hdrop.
      rewrite <- (firstn_skipn (Z.to_nat k) sorted) in Hsorted.
      apply sorted_app in Hsorted. apply Hsorted; assumption.
  - intros Hnone. destruct Hshape as [[_ ->]|(k & Ek & Hk & _)]; [reflexivity|].
    destruct Hnone as [C|(k' & C & Hk')]; rewrite Ek in C; [discriminate C|].
    injection C as <-. lia.
Qed.

Lemma select_files_newest_first_witness :
  exists infos,
    loader.file_info naming.example_builtins
      (filter (String.prefix "2AFC_P_")
         ["2AFC_P_20251020_003915.csv"; "notes.csv";
          "2AFC_P_20251021_101500.csv"; "2AFC_P_20251019_235959.csv"]%string)
    = loader.Done infos
    /\ StronglySorted naming.not_older
         [("2AFC_P_20251021_101500.csv"%string,
           {| year := 2025; month := 10; day := 21;
              hour := 10; minute := 15; second := 0 |});
          ("2AFC_P_20251020_003915.csv"%string, example_datetime)].
Proof.
  destruct (select_files_newest_first naming.example_builtins
              ["2AFC_P_20251020_003915.csv"; "notes.csv";
               "2AFC_P_20251021_101500.csv"; "2AFC_P_20251019_235959.csv"]%string
              (Some 2%Z)
              [("2AFC_P_20251021_101500.csv"%string,
                {| year := 2025; month := 10; day := 21;
                   hour := 10; minute := 15; second := 0 |});
               ("2AFC_P_20251020_003915.csv"%string, example_datetime)])
    as (infos & Hinfo & _ & Hsorted & _).
  - vm_compute. reflexivity.
  - exists infos. split; [exact Hinfo | exact Hsorted].
Defined.

(** X23: [select_files] raises exactly when the listing holds a file that
    starts with [2AFC_P_] and on whose name [parse_filename_datetime] raises:
    one such name aborts the selection of all files, while names without the
    prefix or with fewer than four parts are skipped. *)
Theorem one_unreadable_name_aborts (b : loader.Builtins)
    (glob_csv : list string) (num_recent : option Z) :
  (exists e, loader.select_files b glob_csv num_recent = loader.Throw e)
  <-> exists f e,
        In f glob_csv /\ String.prefix "2AFC_P_" f = true
        /\ loader.parse_filename_datetime b f = loader.Throw e.
Proof.
  unfold loader.select_files. cbv zeta.
  pose proof (file_info_throws b (filter (String.prefix "2AFC_P_") glob_csv))
    as Hthrows.
  destruct (loader.file_info b (filter (String.prefix "2AFC_P_") glob_csv))
    as [infos|e0]; cbn [loader.and_then].
  - split.
    + intros (e & H). destruct num_recent as [k|]; [|discriminate H].
      destruct (negb (k =? 0)%Z && (0 <? k)%Z); discriminate H.
    + intros (f & e & Hin & Hpre & Hp).
      destruct (proj2 Hthrows) as (e' & C); [|discriminate C].
      exists f, e. split; [apply filter_In; auto | exact Hp].
  - split; [|eauto]. intros _.
    destruct (proj1 Hthrows) as (f & e & Hin & Hp); [eauto|].
    apply filter_In in Hin. destruct Hin as [Hin Hpre]. eauto.
Qed.

Lemma one_unreadable_name_aborts_witness :
  loader.select_files naming.example_builtins
    ["2AFC_P_20251020_003915.csv"; "2AFC_P_2025_1.csv"; "2AFC_P.csv"]%string
    None = loader.Throw loader.ValueError.
Proof.
  destruct (proj2 (one_unreadable_name_aborts naming.example_builtins
                     ["2AFC_P_20251020_003915.csv"; "2AFC_P_2025_1.csv";
                      "2AFC_P.csv"]%string None)) as (e & H).
  - exists "2AFC_P_2025_1.csv"%string, loader.ValueError.
    split; [right; left; reflexivity|]. split; reflexivity.
  - rewrite H. vm_compute in H. injection H as <-. reflexivity.
Defined.

(** * Properties of the colour map *)

Lemma days_before_year_succ (y : Z) :
  (1 <= y)%Z ->
  plot.days_before_year (y + 1)
  = (plot.days_before_year y + 365 + (if loader.is_leap y then 1 else 0))%Z.
Proof.
  intros H. unfold plot.days_before_year, loader.is_leap. cbv zeta.
  replace (y + 1 - 1)%Z with y by lia.
  destruct (Z.eqb_spec (y mod 4) 0), (Z.eqb_spec (y mod 100) 0),
    (Z.eqb_spec (y mod 400) 0); cbn [andb orb negb];
    Z.to_euclidean_division_equations; lia.
Qed.

Lemma days_before_year_mono (y y' : Z) :
  (1 <= y <= y')%Z -> (plot.days_before_year y <= plot.days_before_year y')%Z.
Proof.
  intros H. unfold plot.days_before_year. cbv zeta.
  Z.to_euclidean_division_equations. lia.
Qed.

Ltac month_cases d :=
  let C := fresh "C" in
  assert (month d = 1 \/ month d = 2 \/ month d = 3 \/ month d = 4
          \/ month d = 5 \/ month d = 6 \/ month d = 7 \/ month d = 8
          \/ month d = 9 \/ month d = 10 \/ month d = 11 \/ month d = 12)%Z
    as C by lia;
  repeat (destruct C as [C|C]).

Ltac calendar_eval :=
  repeat match goal with
    | |- context [nth ?n ?l ?d] =>
        let v := eval vm_compute in (nth n l d) in change (nth n l d) with v
    | |- context [andb ?a ?b] =>
        let v := eval vm_compute in (andb a b) in change (andb a b) with v
    end;
  cbv beta iota.

Lemma valid_day (d : datetime) :
  naming.valid_datetime d ->
  (1 <= month d <= 12
   /\ 1 <= day d <= loader.days_in_month (year d) (month d))%Z.
Proof.
  unfold naming.valid_datetime, loader.valid_fields, loader.in_range. intros H.
  repeat (apply andb_prop in H; destruct H as [H ?]). lia.
Qed.

(** The day of the year lies within the year. *)
Lemma day_of_year_bounds (d : datetime) :
  naming.valid_datetime d ->
  (1 <= plot.days_before_month (year d) (month d) + day d
   <= 365 + (if loader.is_leap (year d) then 1 else 0))%Z.
Proof.
  intros H. destruct (valid_day d H) as [Hm Hd]. revert Hd.
  unfold loader.days_in_month, plot.days_before_month.
  month_cases d; rewrite C; destruct (loader.is_leap (year d));
    calendar_eval; lia.
Qed.

(** Within a year, a later month is a later day of the year. *)
Lemma later_month_later_day (a b : datetime) :
  naming.valid_datetime a -> naming.valid_datetime b ->
  year a = year b -> (month a < month b)%Z ->
  (plot.days_before_month (year a) (month a) + day a
   < plot.days_before_month (year b) (month b) + day b)%Z.
Proof.
  intros Ha Hb Hy Hlt. destruct (valid_day a Ha) as [Hma Hda].
  destruct (valid_day b Hb) as [Hmb Hdb]. rewrite <- Hy in *. clear Hy.
  revert Hda Hdb. unfold loader.days_in_month, plot.days_before_month.
  month_cases a; rewrite C in *; month_cases b; rewrite C0 in *; try lia;
    destruct (loader.is_leap (year a));
    calendar_eval; lia.
Qed.

Lemma total_seconds_flip (a b : datetime) :
  plot.total_seconds a b = (- plot.total_seconds b a)%Z.
Proof. unfold plot.total_seconds. lia. Qed.

Lemma total_seconds_add (a b c : datetime) :
  (plot.total_seconds a b + plot.total_seconds b c)%Z = plot.total_seconds a c.
Proof. unfold plot.total_seconds. lia. Qed.

Lemma fields_eq (a b : datetime) :
  loader.lex_compare (loader.fields a) (loader.fields b) = Eq -> a = b.
Proof.
  destruct a, b. unfold loader.fields. cbn [loader.lex_compare year month day
    hour minute second].
  repeat match goal with
    | |- context [(?x ?= ?y)%Z] =>
        destruct (Z.compare_spec x y); try discriminate; subst
    end.
  reflexivity.
Qed.

(** For valid time stamps, the order of the fields is the order in time. *)
Lemma older_fewer_seconds (a b : datetime) :
  naming.valid_datetime a -> naming.valid_datetime b ->
  loader.lex_compare (loader.fields a) (loader.fields b) = Lt ->
  (0 < plot.total_seconds b a)%Z.
Proof.
  intros Ha Hb.
  pose proof (valid_datetime_ranges a Ha) as Ra.
  pose proof (valid_datetime_ranges b Hb) as Rb.
  pose proof (day_of_year_bounds a Ha) as Da.
  pose proof (day_of_year_bounds b Hb) as Db.
  unfold loader.fields. cbn [loader.lex_compare].
  unfold plot.total_seconds, plot.toordinal.
  destruct (Z.compare_spec (year a) (year b)) as [Ey|Ly|Gy];
    [|intros _|discriminate].
  - destruct (Z.compare_spec (month a) (month b)) as [Em|Lm|Gm];
      [|intros _|discriminate].
    + rewrite Ey, Em.
      destruct (Z.compare_spec (day a) (day b)); [|intros _; lia|discriminate].
      destruct (Z.compare_spec (hour a) (hour b)); [|intros _; lia|discriminate].
      destruct (Z.compare_spec (minute a) (minute b));
        [|intros _; lia|discriminate].
      destruct (Z.compare_spec (second a) (second b));
        [discriminate|intros _; lia|discriminate].
    + pose proof (later_month_later_day a b Ha Hb Ey Lm). rewrite Ey in *. lia.
  - pose proof (days_before_year_succ (year a) ltac:(lia)) as Hs.
    pose proof (days_before_year_mono (year a + 1) (year b) ltac:(lia)).
    lia.
Qed.

Lemma ltb_false_iff (a b : datetime) :
  loader.datetime_ltb a b = false
  <-> loader.lex_compare (loader.fields a) (loader.fields b) <> Lt.
Proof.
  unfold loader.datetime_ltb. destruct (loader.lex_compare _ _); split; congruence.
Qed.

Lemma ltb_false_trans (a b c : datetime) :
  loader.datetime_ltb a b = false -> loader.datetime_ltb b c = false ->
  loader.datetime_ltb a c = false.
Proof. rewrite !ltb_false_iff. apply lex_compare_ge_trans. Qed.

Lemma ltb_true_false (a b : datetime) :
  loader.datetime_ltb a b = true -> loader.datetime_ltb b a = false.
Proof.
  unfold loader.datetime_ltb. rewrite (lex_compare_flip (loader.fields a)).
  destruct (loader.lex_compare _ _); simpl; congruence.
Qed.

Lemma ltb_refl (a : datetime) : loader.datetime_ltb a a = false.
Proof.
  destruct (loader.datetime_ltb a a) eqn:E; [|reflexivity].
  rewrite (ltb_true_false a a E) in E. discriminate.
Qed.

Lemma not_older_seconds (a b : datetime) :
  naming.valid_datetime a -> naming.valid_datetime b ->
  loader.datetime_ltb a b = false -> (0 <= plot.total_seconds a b)%Z.
Proof.
  intros Ha Hb. unfold loader.datetime_ltb.
  destruct (loader.lex_compare (loader.fields a) (loader.fields b)) eqn:E;
    [intros _|discriminate|intros _].
  - apply fields_eq in E. subst. unfold plot.total_seconds. lia.
  - rewrite lex_compare_flip in E.
    destruct (loader.lex_compare (loader.fields b) (loader.fields a)) eqn:E';
      try discriminate.
    pose proof (older_fewer_seconds b a Hb Ha E'). lia.
Qed.

Lemma older_seconds (a b : datetime) :
  naming.valid_datetime a -> naming.valid_datetime b ->
  palette.older a b -> (0 < plot.total_seconds b a)%Z.
Proof.
  intros Ha Hb. unfold palette.older, loader.datetime_ltb.
  destruct (loader.lex_compare (loader.fields a) (loader.fields b)) eqn:E;
    try discriminate.
  intros _. apply older_fewer_seconds; assumption.
Qed.

Lemma datetime_eqb_eq (a b : datetime) :
  plot.datetime_eqb a b = true <-> a = b.
Proof.
  unfold plot.datetime_eqb. split.
  - destruct (loader.lex_compare _ _) eqn:E; try discriminate.
    intros _. apply fields_eq, E.
  - intros ->. pose proof (ltb_refl b) as H. unfold loader.datetime_ltb in H.
    pose proof (lex_compare_flip (loader.fields b) (loader.fields b)) as F.
    destruct (loader.lex_compare _ _); simpl in *; congruence.
Qed.

(** [min] returns an entry that no entry is older than. *)
Lemma min_time_least (t : list datetime) (h : datetime) :
  let lowest :=
    fold_left (fun m x => if loader.datetime_ltb x m then x else m) t h in
  In lowest (h :: t)
  /\ forall x, In x (h :: t) -> loader.datetime_ltb x lowest = false.
Proof.
  cbv zeta. revert h. induction t as [|x t IH]; intros h.
  - simpl. split; [auto|]. intros x [<-|[]]. apply ltb_refl.
  - cbn [fold_left].
    destruct (IH (if loader.datetime_ltb x h then x else h)) as [Hin Hle].
    destruct (loader.datetime_ltb x h) eqn:E.
    + split.
      * destruct Hin as [<-|Hin]; [right; left; reflexivity|right; right; exact Hin].
      * intros z [<-|[<-|Hz]].
        -- apply (ltb_false_trans _ x); [apply ltb_true_false, E|].
           apply Hle. left. reflexivity.
        -- apply Hle. left. reflexivity.
        -- apply Hle. right. exact Hz.
    + split.
      * destruct Hin as [<-|Hin]; [left; reflexivity|right; right; exact Hin].
      * intros z [<-|[<-|Hz]].
        -- apply Hle. left. reflexivity.
        -- apply (ltb_false_trans _ h); [exact E|]. apply Hle. left. reflexivity.
        -- apply Hle. right. exact Hz.
Qed.

(** [max] returns an entry that is older than no entry. *)
Lemma max_time_greatest (t : list datetime) (h : datetime) :
  let highest :=
    fold_left (fun m x => if loader.datetime_ltb m x then x else m) t h in
  In highest (h :: t)
  /\ forall x, In x (h :: t) -> loader.datetime_ltb highest x = false.
Proof.
  cbv zeta. revert h. induction t as [|x t IH]; intros h.
  - simpl. split; [auto|]. intros x [<-|[]]. apply ltb_refl.
  - cbn [fold_left].
    destruct (IH (if loader.datetime_ltb h x then x else h)) as [Hin Hle].
    destruct (loader.datetime_ltb h x) eqn:E.
    + split.
      * destruct Hin as [<-|Hin]; [right; left; reflexivity|right; right; exact Hin].
      * intros z [<-|[<-|Hz]].
        -- apply (ltb_false_trans _ x); [|apply ltb_true_false, E].
           apply Hle. left. reflexivity.
        -- apply Hle. left. reflexivity.
        -- apply Hle. right. exact Hz.
    + split.
      * destruct Hin as [<-|Hin]; [left; reflexivity|right; right; exact Hin].
      * intros z [<-|[<-|Hz]].
        -- apply Hle. left. reflexivity.
        -- apply (ltb_false_trans _ h); [|exact E]. apply Hle. left. reflexivity.
        -- apply Hle. right. exact Hz.
Qed.

Lemma ratio_bounds (n d : Z) :
  (0 <= n <= d)%Z -> (0 < d)%Z -> 0 <= inject_Z n / inject_Z d <= 1.
Proof.
  intros [H0 H1] Hd.
  assert (0 < inject_Z d) as Hq by (change (inject_Z 0 < inject_Z d); rewrite <- Zlt_Qlt; exact Hd).
  split.
  - apply Qle_shift_div_l; [exact Hq|]. rewrite Qmult_0_l.
    change (inject_Z 0 <= inject_Z n). rewrite <- Zle_Qle. exact H0.
  - apply Qle_shift_div_r; [exact Hq|]. rewrite Qmult_1_l.
    rewrite <- Zle_Qle. exact H1.
Qed.

Lemma ratio_lt (n n' d : Z) :
  (n < n')%Z -> (0 < d)%Z -> inject_Z n / inject_Z d < inject_Z n' / inject_Z d.
Proof.
  intros Hlt Hd.
  assert (0 < inject_Z d) as Hq by (change (inject_Z 0 < inject_Z d); rewrite <- Zlt_Qlt; exact Hd).
  unfold Qdiv. apply Qmult_lt_r; [apply Qinv_lt_0_compat, Hq|].
  rewrite <- Zlt_Qlt. exact Hlt.
Qed.

Lemma ratio_one (d : Z) : (0 < d)%Z -> inject_Z d / inject_Z d == 1.
Proof.
  intros Hd. unfold Qdiv. apply Qmult_inv_r. intros C.
  assert (0 < inject_Z d) as Hq by (change (inject_Z 0 < inject_Z d); rewrite <- Zlt_Qlt; exact Hd).
  rewrite C in Hq. apply (Qlt_irrefl 0), Hq.
Qed.

(** The gradient of one dataset: [file_colors] scales the base colour by an
    intensity that depends on the time stamp alone. *)
Lemma gradient_intensities (r g b : Q) (dataset_data : plot.dict datetime)
    (Hvalid : forall f t, In (f, t) dataset_data -> naming.valid_datetime t)
    (Hmany : (2 <= length dataset_data)%nat) :
  exists intensity : datetime -> Q,
    plot.file_colors (r, g, b) dataset_data
    = Ok (map (fun '(f, t) => (f, palette.scaled (r, g, b) (intensity t)))
              dataset_data)
    /\ (forall f t, In (f, t) dataset_data -> 4 # 10 <= intensity t <= 1)
    /\ (forall f t f' t',
          In (f, t) dataset_data -> In (f', t') dataset_data ->
          palette.older t t' -> intensity t < intensity t')
    /\ (forall f t,
          In (f, t) dataset_data ->
          (forall f' t', In (f', t') dataset_data -> ~ palette.older t' t) ->
          (exists f' t', In (f', t') dataset_data /\ palette.older t t') ->
          intensity t == 4 # 10)
    /\ (forall f t,
          In (f, t) dataset_data ->
          (forall f' t', In (f', t') dataset_data -> ~ palette.older t t') ->
          (exists f' t', In (f', t') dataset_data /\ palette.older t' t) ->
          intensity t == 1)
    /\ ((forall f t f' t',
           In (f, t) dataset_data -> In (f', t') dataset_data ->
           ~ palette.older t t') ->
        forall f t, In (f, t) dataset_data -> intensity t == 7 # 10).
Proof.
  unfold plot.file_colors.
  replace (Nat.eqb (length dataset_data) 1) with false
    by (symmetry; apply Nat.eqb_neq; lia).
  destruct dataset_data as [|[f0 t0] rest] eqn:Eds; [simpl in Hmany; lia|].
  rewrite <- Eds in *.
  assert (map snd dataset_data = t0 :: map snd rest) as Emap
    by (rewrite Eds; reflexivity).
  rewrite Emap. cbn [plot.min_time plot.max_time bind].
  destruct (min_time_least (map snd rest) t0) as [Hlo_in Hlo].
  destruct (max_time_greatest (map snd rest) t0) as [Hhi_in Hhi].
  set (lowest :=
         fold_left (fun m x => if loader.datetime_ltb x m then x else m)
                   (map snd rest) t0) in *.
  set (highest :=
         fold_left (fun m x => if loader.datetime_ltb m x then x else m)
                   (map snd rest) t0) in *.
  rewrite <- Emap in Hlo_in, Hhi_in, Hlo, Hhi.
  apply in_map_iff in Hlo_in. destruct Hlo_in as ([flo tlo] & Elo & Hlo_in).
  apply in_map_iff in Hhi_in. destruct Hhi_in as ([fhi thi] & Ehi & Hhi_in).
  simpl in Elo, Ehi. subst tlo thi.
  pose proof (Hvalid _ _ Hlo_in) as Vlo. pose proof (Hvalid _ _ Hhi_in) as Vhi.
  assert (forall f t, In (f, t) dataset_data ->
            (0 <= plot.total_seconds t lowest)%Z
            /\ (0 <= plot.total_seconds highest t)%Z) as Hbetween.
  { intros f t Hin.
    assert (In t (map snd dataset_data)) as Ht
      by (apply in_map_iff; exists (f, t); auto).
    split.
    - apply not_older_seconds; [eapply Hvalid, Hin|exact Vlo|apply Hlo, Ht].
    - apply not_older_seconds; [exact Vhi|eapply Hvalid, Hin|apply Hhi, Ht]. }
  assert (forall t, (plot.total_seconds highest t + plot.total_seconds t lowest
                     = plot.total_seconds highest lowest)%Z) as Hsum
    by (intros t; apply total_seconds_add).
  unfold plot.gradient.
  destruct (plot.datetime_eqb highest lowest) eqn:E.
  - apply datetime_eqb_eq in E.
    assert (plot.total_seconds highest lowest = 0%Z) as Hzero
      by (rewrite E; unfold plot.total_seconds; lia).
    assert (forall f t f' t',
              In (f, t) dataset_data -> In (f', t') dataset_data ->
              ~ palette.older t t') as Hnone.
    { intros f t f' t' Hin Hin' Ho.
      pose proof (older_seconds t t' (Hvalid _ _ Hin) (Hvalid _ _ Hin') Ho).
      pose proof (Hbetween _ _ Hin). pose proof (Hbetween _ _ Hin').
      pose proof (Hsum t). pose proof (Hsum t').
      pose proof (total_seconds_add t' t lowest). lia. }
    exists (fun _ => (4 # 10) + (6 # 10) * (1 # 2)). split; [reflexivity|].
    split; [intros; split; lra|].
    split; [intros f t f' t' Hin Hin' Ho; destruct (Hnone _ _ _ _ Hin Hin' Ho)|].
    split; [intros f t Hin _ (f' & t' & Hin' & Ho);
            destruct (Hnone _ _ _ _ Hin Hin' Ho)|].
    split; [intros f t Hin _ (f' & t' & Hin' & Ho);
            destruct (Hnone _ _ _ _ Hin' Hin Ho)|].
    intros _ f t _. lra.
  - assert (palette.older lowest highest) as Hspan.
    { unfold palette.older.
      destruct (loader.datetime_ltb lowest highest) eqn:L; [reflexivity|].
      assert (In highest (map snd dataset_data)) as Hh
        by (apply in_map_iff; exists (fhi, highest); auto).
      pose proof (Hlo _ Hh) as L'. unfold loader.datetime_ltb in L, L'.
      rewrite (lex_compare_flip (loader.fields lowest)) in L'.
      destruct (loader.lex_compare (loader.fields lowest) (loader.fields highest))
        eqn:C; try discriminate.
      apply fields_eq in C. rewrite C in E.
      rewrite (proj2 (datetime_eqb_eq highest highest) eq_refl) in E.
      discriminate. }
    pose proof (older_seconds _ _ Vlo Vhi Hspan) as Hpos.
    exists (fun t => (4 # 10) + (6 # 10)
                     * (inject_Z (plot.total_seconds t lowest)
                        / inject_Z (plot.total_seconds highest lowest))).
    split; [reflexivity|].
    split.
    { intros f t Hin. pose proof (Hbetween _ _ Hin). pose proof (Hsum t).
      pose proof (ratio_bounds (plot.total_seconds t lowest)
                    (plot.total_seconds highest lowest) ltac:(lia) Hpos).
      cbv beta. split; lra. }
    split.
    { intros f t f' t' Hin Hin' Ho.
      pose proof (older_seconds t t' (Hvalid _ _ Hin) (Hvalid _ _ Hin') Ho).
      pose proof (total_seconds_add t' t lowest).
      pose proof (ratio_lt (plot.total_seconds t lowest)
                    (plot.total_seconds t' lowest)
                    (plot.total_seconds highest lowest) ltac:(lia) Hpos).
      cbv beta. lra. }
    split.
    { intros f t Hin Holdest _.
      assert (plot.total_seconds t lowest = 0%Z) as Hz.
      { pose proof (Hbetween _ _ Hin).
        destruct (loader.datetime_ltb lowest t) eqn:L;
          [destruct (Holdest _ _ Hlo_in L)|].
        pose proof (not_older_seconds lowest t Vlo (Hvalid _ _ Hin) L).
        rewrite (total_seconds_flip lowest t) in *. lia. }
      cbv beta. rewrite Hz. unfold Qdiv. rewrite Qmult_0_l. lra. }
    split.
    { intros f t Hin Hnewest _.
      assert (plot.total_seconds t lowest = plot.total_seconds highest lowest)
        as Hz.
      { pose proof (Hbetween _ _ Hin). pose proof (Hsum t).
        destruct (loader.datetime_ltb t highest) eqn:L;
          [destruct (Hnewest _ _ Hhi_in L)|].
        pose proof (not_older_seconds t highest (Hvalid _ _ Hin) Vhi L).
        rewrite (total_seconds_flip t highest) in *. lia. }
      cbv beta. rewrite Hz. rewrite (ratio_one _ Hpos). lra. }
    intros Hnone. destruct (Hnone _ _ _ _ Hlo_in Hhi_in Hspan).
Qed.

(** ** The dictionaries *)

Lemma dict_get_set_same {V : Type} (k : string) (v : V) (d : plot.dict V) :
  plot.dict_get k (plot.dict_set k v d) = Some v.
Proof.
  induction d as [|[k' v'] d IH]; simpl.
  - rewrite String.eqb_refl. reflexivity.
  - destruct (String.eqb k' k) eqn:E; simpl; rewrite E; [reflexivity|exact IH].
Qed.

Lemma dict_get_set_other {V : Type} (k k0 : string) (v : V) (d : plot.dict V) :
  k <> k0 -> plot.dict_get k (plot.dict_set k0 v d) = plot.dict_get k d.
Proof.
  intros Hne. induction d as [|[k' v'] d IH]; simpl.
  - destruct (String.eqb_spec k0 k); [congruence|reflexivity].
  - destruct (String.eqb_spec k' k0) as [->|Hk]; simpl.
    + destruct (String.eqb_spec k0 k); [congruence|reflexivity].
    + destruct (String.eqb k' k); [reflexivity|exact IH].
Qed.

Lemma dict_get_absent {V : Type} (k : string) (d : plot.dict V) :
  ~ In k (palette.keys d) -> plot.dict_get k d = None.
Proof.
  induction d as [|[k' v'] d IH]; simpl; intros H; [reflexivity|].
  destruct (String.eqb_spec k' k) as [->|Hk]; [destruct H; auto|].
  apply IH. intros C. apply H. auto.
Qed.

Lemma dict_get_present {V : Type} (k : string) (d : plot.dict V) :
  In k (palette.keys d) -> exists v, plot.dict_get k d = Some v /\ In (k, v) d.
Proof.
  induction d as [|[k' v'] d IH]; simpl; intros H; [destruct H|].
  destruct (String.eqb_spec k' k) as [->|Hk]; [eauto|].
  destruct H as [H|H]; [congruence|].
  destruct (IH H) as (v & Hv & Hin). eauto.
Qed.

(** After a run of assignments with distinct keys, a key holds the value
    assigned to it, or what it held before. *)
Lemma assignments_get (assignments : list (string * plot.color))
    (colors : plot.dict plot.color) (f : string) :
  NoDup (palette.keys assignments) ->
  plot.dict_get f
    (fold_left (fun colors '(filename, c) => plot.dict_set filename c colors)
               assignments colors)
  = match plot.dict_get f assignments with
    | Some c => Some c
    | None => plot.dict_get f colors
    end.
Proof.
  revert colors. induction assignments as [|[k c] rest IH]; intros colors Hnd;
    [reflexivity|].
  inversion Hnd as [|? ? Hk Hrest]; subst. cbn [fold_left].
  rewrite (IH _ Hrest). cbn [plot.dict_get].
  destruct (String.eqb_spec k f) as [->|Hne].
  - rewrite (dict_get_absent f rest Hk). apply dict_get_set_same.
  - destruct (plot.dict_get f rest); [reflexivity|].
    apply dict_get_set_other. congruence.
Qed.

(** ** The loop over the datasets *)

Lemma file_colors_empty (base : plot.color) :
  plot.file_colors base [] = Raise ValueError.
Proof. reflexivity. Qed.

Lemma file_colors_keys (base : plot.color) (dataset_data : plot.dict datetime) :
  dataset_data <> [] ->
  exists assignments,
    plot.file_colors base dataset_data = Ok assignments
    /\ palette.keys assignments = palette.keys dataset_data.
Proof.
  intros Hne. unfold plot.file_colors.
  destruct dataset_data as [|[f0 t0] rest]; [congruence|].
  destruct rest as [|e rest].
  - simpl. eauto.
  - remember (e :: rest) as tail eqn:Etail.
    replace (Nat.eqb (length ((f0, t0) :: tail)) 1) with false
      by (rewrite Etail; reflexivity).
    cbn [map snd plot.min_time plot.max_time bind].
    eexists. split; [reflexivity|].
    unfold palette.keys. cbn [map fst]. f_equal.
    rewrite map_map. apply map_ext. intros [f t]. reflexivity.
Qed.

Lemma file_colors_ok_keys (base : plot.color) (dataset_data : plot.dict datetime)
    (assignments : list (string * plot.color)) :
  plot.file_colors base dataset_data = Ok assignments ->
  palette.keys assignments = palette.keys dataset_data.
Proof.
  intros H. destruct dataset_data as [|e rest]; [discriminate H|].
  destruct (file_colors_keys base (e :: rest)) as (a & Ha & Hk); [congruence|].
  rewrite Ha in H. injection H as <-. exact Hk.
Qed.

Lemma for_each_app {A S : Type} (body : S -> A -> res S) (l1 l2 : list A) (s : S) :
  for_each body (l1 ++ l2) s = (s1 <- for_each body l1 s ;; for_each body l2 s1).
Proof.
  revert s. induction l1 as [|a l1 IH]; intros s; [reflexivity|].
  cbn [app for_each]. destruct (body s a); simpl; [apply IH|reflexivity].
Qed.

Lemma color_dataset_ok (colors : plot.dict plot.color)
    (dataset_colors : plot.dict (plot.color * string))
    (dataset_name : string) (dataset_data : plot.dict datetime)
    (state : plot.dict plot.color * plot.dict (plot.color * string)) :
  plot.color_dataset (colors, dataset_colors) (dataset_name, dataset_data)
  = Ok state ->
  exists assignments,
    plot.file_colors
      (match plot.dict_get dataset_name dataset_colors with
       | Some (base, _) => base
       | None => palette.grey
       end) dataset_data = Ok assignments
    /\ state
       = (fold_left (fun colors '(filename, c) => plot.dict_set filename c colors)
                    assignments colors,
          match plot.dict_get dataset_name dataset_colors with
          | Some _ => dataset_colors
          | None =>
              plot.dict_set dataset_name (palette.grey, dataset_name)
                            dataset_colors
          end).
Proof.
  unfold plot.color_dataset.
  destruct (plot.dict_get dataset_name dataset_colors) as [[base label]|].
  - destruct (plot.file_colors base dataset_data) as [a|e]; simpl;
      intros H; [|discriminate H]. injection H as <-. eauto.
  - change (1 # 2, 1 # 2, 1 # 2) with palette.grey.
    destruct (plot.file_colors palette.grey dataset_data) as [a|e]; simpl;
      intros H; [|discriminate H]. injection H as <-. eauto.
Qed.

Lemma color_dataset_raises (colors : plot.dict plot.color)
    (dataset_colors : plot.dict (plot.color * string))
    (dataset_name : string) (dataset_data : plot.dict datetime) :
  match plot.color_dataset (colors, dataset_colors) (dataset_name, dataset_data)
  with
  | Ok _ => dataset_data <> []
  | Raise e => e = ValueError /\ dataset_data = []
  end.
Proof.
  unfold plot.color_dataset.
  destruct (plot.dict_get dataset_name dataset_colors) as [[base label]|];
    (destruct dataset_data as [|e rest];
     [rewrite file_colors_empty; simpl; auto|]);
    match goal with
    | |- context [plot.file_colors ?c ?d] =>
        destruct (file_colors_keys c d) as (a & -> & _); [congruence|]
    end; simpl; congruence.
Qed.

Lemma loop_raises (all_data : plot.dict (plot.dict datetime))
    (state : plot.dict plot.color * plot.dict (plot.color * string)) :
  match for_each plot.color_dataset all_data state with
  | Ok _ => forall n, ~ In (n, []) all_data
  | Raise e => e = ValueError /\ exists n, In (n, []) all_data
  end.
Proof.
  revert state. induction all_data as [|[n ds] rest IH]; intros [colors dcs].
  - simpl. auto.
  - cbn [for_each].
    pose proof (color_dataset_raises colors dcs n ds) as Hstep.
    destruct (plot.color_dataset (colors, dcs) (n, ds)) as [state'|e]; simpl.
    + specialize (IH state').
      destruct (for_each plot.color_dataset rest state') as [r|e].
      * intros m [C|C]; [injection C as _ C; congruence|exact (IH m C)].
      * destruct IH as [-> (m & Hm)]. split; [reflexivity|]. exists m. right. exact Hm.
    + destruct Hstep as [-> ->]. split; [reflexivity|]. exists n. left. reflexivity.
Qed.

(** X25: [create_color_map] raises exactly when some dataset has no files,
    and then it raises [ValueError] (from [min] of an empty list); on every
    other input it returns the two dictionaries. *)
Theorem color_map_raises_iff_empty_dataset
    (all_data : plot.dict (plot.dict datetime)) :
  ((exists n, In (n, []) all_data)
   -> plot.create_color_map all_data = Raise ValueError)
  /\ ((forall n, ~ In (n, []) all_data)
      -> exists colors dataset_colors,
           plot.create_color_map all_data = Ok (colors, dataset_colors)).
Proof.
  unfold plot.create_color_map.
  pose proof (loop_raises all_data ([], plot.predefined)) as H.
  destruct (for_each plot.color_dataset all_data ([], plot.predefined))
    as [[colors dcs]|e].
  - split; [intros (n & Hn); destruct (H n Hn)|]. intros _. eauto.
  - destruct H as [-> (n & Hn)]. split; [reflexivity|].
    intros Hnone. destruct (Hnone n Hn).
Qed.

Lemma color_map_raises_iff_empty_dataset_witness :
  plot.create_color_map [("bricks004"%string, example_times); ("gravel"%string, [])]
  = Raise ValueError.
Proof.
  apply (proj1 (color_map_raises_iff_empty_dataset
                  [("bricks004"%string, example_times); ("gravel"%string, [])])).
  exists "gravel"%string. right. left. reflexivity.
Defined.

Lemma assignments_skip (assignments : list (string * plot.color))
    (colors : plot.dict plot.color) (f : string) :
  ~ In f (palette.keys assignments) ->
  plot.dict_get f
    (fold_left (fun colors '(filename, c) => plot.dict_set filename c colors)
               assignments colors)
  = plot.dict_get f colors.
Proof.
  revert colors. induction assignments as [|[k c] rest IH]; intros colors Hnot;
    [reflexivity|].
  cbn [fold_left]. rewrite IH by (intros C; apply Hnot; right; exact C).
  apply dict_get_set_other. intros ->. apply Hnot. left. reflexivity.
Qed.

Lemma loop_skip (all_data : plot.dict (plot.dict datetime))
    (colors colors' : plot.dict plot.color)
    (dcs dcs' : plot.dict (plot.color * string)) (f : string) :
  for_each plot.color_dataset all_data (colors, dcs) = Ok (colors', dcs') ->
  (forall n ds, In (n, ds) all_data -> ~ In f (palette.keys ds)) ->
  plot.dict_get f colors' = plot.dict_get f colors.
Proof.
  revert colors dcs. induction all_data as [|[n ds] rest IH]; intros colors dcs.
  - simpl. intros H _. injection H as <- _. reflexivity.
  - cbn [for_each]. intros H Hnot.
    destruct (plot.color_dataset (colors, dcs) (n, ds)) as [[colors1 dcs1]|e] eqn:E;
      [|discriminate H].
    simpl in H. apply color_dataset_ok in E. destruct E as (a & Ha & E).
    injection E as -> ->.
    rewrite (IH _ _ H) by (intros m d Hm; apply (Hnot m d); right; exact Hm).
    apply assignments_skip. rewrite (file_colors_ok_keys _ _ _ Ha).
    apply (Hnot n ds). left. reflexivity.
Qed.

(** What the loop leaves in [dataset_colors]. *)
Lemma loop_legend (all_data : plot.dict (plot.dict datetime))
    (colors colors' : plot.dict plot.color)
    (dcs dcs' : plot.dict (plot.color * string)) (n : string) :
  for_each plot.color_dataset all_data (colors, dcs) = Ok (colors', dcs') ->
  plot.dict_get n dcs'
  = match plot.dict_get n dcs with
    | Some entry => Some entry
    | None =>
        if in_dec string_dec n (palette.keys all_data)
        then Some (palette.grey, n) else None
    end.
Proof.
  revert colors dcs. induction all_data as [|[m ds] rest IH]; intros colors dcs.
  - simpl. intros H. injection H as _ <-. destruct (plot.dict_get n dcs); reflexivity.
  - cbn [for_each]. intros H.
    destruct (plot.color_dataset (colors, dcs) (m, ds)) as [[colors1 dcs1]|e] eqn:E;
      [|discriminate H].
    simpl in H. apply color_dataset_ok in E. destruct E as (a & Ha & E).
    injection E as -> ->. rewrite (IH _ _ H). clear IH H Ha.
    destruct (string_dec m n) as [->|Hne].
    + destruct (plot.dict_get n dcs) as [entry|] eqn:G.
      * rewrite G. reflexivity.
      * rewrite dict_get_set_same.
        destruct (in_dec string_dec n (palette.keys ((n, ds) :: rest)))
          as [_|C]; [reflexivity|]. destruct C. left. reflexivity.
    + assert (plot.dict_get n
                (match plot.dict_get m dcs with
                 | Some _ => dcs
                 | None => plot.dict_set m (palette.grey, m) dcs
                 end) = plot.dict_get n dcs) as ->.
      { destruct (plot.dict_get m dcs); [reflexivity|].
        apply dict_get_set_other. congruence. }
      destruct (plot.dict_get n dcs); [reflexivity|].
      destruct (in_dec string_dec n (palette.keys rest)) as [Hin|Hout],
        (in_dec string_dec n (palette.keys ((m, ds) :: rest))) as [Hin'|Hout'];
        try reflexivity.
      * destruct Hout'. right. exact Hin.
      * destruct Hin' as [C|C]; [simpl in C; congruence|destruct (Hout C)].
Qed.

(** X26: the dictionary [dataset_colors] that [create_color_map] returns
    holds, for every predefined name and every dataset of [all_data], the
    predefined entry or else grey under the name of the dataset, and nothing
    for any other name; the three predefined entries are there whether
    [all_data] has these datasets or not. *)
Theorem legend_entries (all_data : plot.dict (plot.dict datetime))
    (colors : plot.dict plot.color)
    (dataset_colors : plot.dict (plot.color * string))
    (H : plot.create_color_map all_data = Ok (colors, dataset_colors))
    (n : string) :
  (In n (palette.keys plot.predefined ++ palette.keys all_data)
   -> plot.dict_get n dataset_colors = Some (palette.legend_of n))
  /\ (~ In n (palette.keys plot.predefined ++ palette.keys all_data)
      -> plot.dict_get n dataset_colors = None).
Proof.
  unfold plot.create_color_map in H. rewrite (loop_legend _ _ _ _ _ n H).
  unfold palette.legend_of.
  destruct (plot.dict_get n plot.predefined) as [entry|] eqn:G.
  - split; [reflexivity|]. intros Hout. destruct Hout. apply in_or_app. left.
    destruct (in_dec string_dec n (palette.keys plot.predefined)) as [Hin|C];
      [exact Hin|].
    rewrite (dict_get_absent n plot.predefined C) in G. discriminate G.
  - destruct (in_dec string_dec n (palette.keys all_data)) as [Hin|Hout].
    + split; [reflexivity|]. intros C. destruct C. apply in_or_app. right. exact Hin.
    + split; [|reflexivity]. intros Hin. apply in_app_or in Hin.
      destruct Hin as [Hin|Hin]; [|destruct (Hout Hin)].
      destruct (dict_get_present n plot.predefined Hin) as (v & Hv & _).
      rewrite Hv in G. discriminate G.
Qed.

Lemma legend_entries_witness :
  exists colors dataset_colors,
    plot.create_color_map example_all_data = Ok (colors, dataset_colors)
    /\ plot.dict_get "gravel" dataset_colors = Some (palette.grey, "gravel"%string)
    /\ plot.dict_get "rock062" dataset_colors
       = Some ((2 # 10, 7 # 10, 2 # 10), "Rock062"%string)
    /\ plot.dict_get "sand" dataset_colors = None.
Proof.
  destruct (plot.create_color_map example_all_data) as [[colors dcs]|e] eqn:E;
    [|vm_compute in E; discriminate E].
  exists colors, dcs. split; [reflexivity|].
  split; [|split].
  - apply (proj1 (legend_entries example_all_data colors dcs E "gravel")).
    vm_compute. tauto.
  - apply (proj1 (legend_entries example_all_data colors dcs E "rock062")).
    vm_compute. tauto.
  - apply (proj2 (legend_entries example_all_data colors dcs E "sand")).
    vm_compute. intros C. repeat (destruct C as [C|C]; [discriminate C|]).
    exact C.
Defined.

(** X27: a file name gets its colour from the last dataset that has a file of
    that name: when [create_color_map] returns, the entry of [colors] for a
    file of a dataset is the colour that [file_colors] assigns to it for the
    base colour of that dataset, provided no later dataset has a file of the
    same name; earlier datasets do not matter, so a file of an earlier
    dataset with the same name is drawn in the later dataset's colour. *)
Theorem last_dataset_decides_colour
    (all_data : plot.dict (plot.dict datetime))
    (colors : plot.dict plot.color)
    (dataset_colors : plot.dict (plot.color * string))
    (H : plot.create_color_map all_data = Ok (colors, dataset_colors))
    (earlier later : plot.dict (plot.dict datetime))
    (dataset_name : string) (dataset_data : plot.dict datetime)
    (Hsplit : all_data = earlier ++ (dataset_name, dataset_data) :: later)
    (Hkeys : NoDup (palette.keys dataset_data))
    (f : string) (Hf : In f (palette.keys dataset_data))
    (Hlast : forall n ds, In (n, ds) later -> ~ In f (palette.keys ds)) :
  exists assignments c,
    plot.file_colors (palette.base_of dataset_name) dataset_data = Ok assignments
    /\ In (f, c) assignments
    /\ plot.dict_get f colors = Some c.
Proof.
  subst all_data. unfold plot.create_color_map in H. rewrite for_each_app in H.
  destruct (for_each plot.color_dataset earlier ([], plot.predefined))
    as [[colors1 dcs1]|e] eqn:E1; [|discriminate H].
  cbn [bind for_each] in H.
  destruct (plot.color_dataset (colors1, dcs1) (dataset_name, dataset_data))
    as [[colors2 dcs2]|e] eqn:E2; [|discriminate H].
  cbn [bind] in H.
  apply color_dataset_ok in E2. destruct E2 as (a & Ha & E2).
  injection E2 as -> ->.
  assert (match plot.dict_get dataset_name dcs1 with
          | Some (base, _) => base
          | None => palette.grey
          end = palette.base_of dataset_name) as Hbase.
  { rewrite (loop_legend _ _ _ _ _ dataset_name E1). unfold palette.base_of.
    destruct (plot.dict_get dataset_name plot.predefined) as [[base label]|];
      [reflexivity|].
    destruct (in_dec string_dec dataset_name (palette.keys earlier)); reflexivity. }
  rewrite Hbase in Ha.
  pose proof (file_colors_ok_keys _ _ _ Ha) as Hk.
  destruct (dict_get_present f a) as (c & Hc & Hin); [rewrite Hk; exact Hf|].
  exists a, c. split; [exact Ha|]. split; [exact Hin|].
  rewrite (loop_skip _ _ _ _ _ f H Hlast).
  rewrite assignments_get by (rewrite Hk; exact Hkeys).
  rewrite Hc. reflexivity.
Qed.

Lemma last_dataset_decides_colour_witness :
  exists colors dataset_colors,
    plot.create_color_map example_all_data = Ok (colors, dataset_colors)
    /\ plot.dict_get "2AFC_P_20251020_003915.csv" colors = Some palette.grey.
Proof.
  destruct (plot.create_color_map example_all_data) as [[colors dcs]|e] eqn:E;
    [|vm_compute in E; discriminate E].
  exists colors, dcs. split; [reflexivity|].
  destruct (last_dataset_decides_colour example_all_data colors dcs E
              [("bricks004"%string, example_times)] []
              "gravel"%string
              [("2AFC_P_20251020_003915.csv"%string, example_datetime)]
              eq_refl
              ltac:(repeat constructor; simpl; tauto)
              "2AFC_P_20251020_003915.csv"%string
              ltac:(left; reflexivity)
              ltac:(intros n ds C; destruct C))
    as (a & c & Ha & Hin & Hget).
  vm_compute in Ha. injection Ha as <-.
  destruct Hin as [Hin|[]]. injection Hin as <-. exact Hget.
Defined.

Lemma dict_get_map {V W : Type} (g : V -> W) (d : plot.dict V) (k : string)
    (v : V) :
  NoDup (palette.keys d) -> In (k, v) d ->
  plot.dict_get k (map (fun '(k', v') => (k', g v')) d) = Some (g v).
Proof.
  induction d as [|[k0 v0] d IH]; intros Hnd Hin; [destruct Hin|].
  inversion Hnd as [|? ? Hk Hrest]; subst. cbn [map plot.dict_get].
  destruct Hin as [E|Hin].
  - injection E as -> ->. rewrite String.eqb_refl. reflexivity.
  - destruct (String.eqb_spec k0 k) as [->|Hne]; [|apply IH; assumption].
    destruct Hk. apply in_map_iff. exists (k, v). auto.
Qed.

(** The colours of a dataset's files in the dictionary that
    [create_color_map] returns. *)
Lemma dataset_colours_kept (all_data : plot.dict (plot.dict datetime))
    (colors : plot.dict plot.color)
    (dataset_colors : plot.dict (plot.color * string))
    (earlier later : plot.dict (plot.dict datetime))
    (dataset_name : string) (dataset_data : plot.dict datetime) :
  plot.create_color_map all_data = Ok (colors, dataset_colors) ->
  all_data = earlier ++ (dataset_name, dataset_data) :: later ->
  NoDup (palette.keys dataset_data) ->
  exists assignments,
    plot.file_colors (palette.base_of dataset_name) dataset_data = Ok assignments
    /\ forall f,
         (forall n ds, In (n, ds) later -> ~ In f (palette.keys ds)) ->
         In f (palette.keys dataset_data) ->
         plot.dict_get f colors = plot.dict_get f assignments.
Proof.
  intros H -> Hkeys. unfold plot.create_color_map in H. rewrite for_each_app in H.
  destruct (for_each plot.color_dataset earlier ([], plot.predefined))
    as [[colors1 dcs1]|e] eqn:E1; [|discriminate H].
  cbn [bind for_each] in H.
  destruct (plot.color_dataset (colors1, dcs1) (dataset_name, dataset_data))
    as [[colors2 dcs2]|e] eqn:E2; [|discriminate H].
  cbn [bind] in H.
  apply color_dataset_ok in E2. destruct E2 as (a & Ha & E2).
  injection E2 as -> ->.
  assert (match plot.dict_get dataset_name dcs1 with
          | Some (base, _) => base
          | None => palette.grey
          end = palette.base_of dataset_name) as Hbase.
  { rewrite (loop_legend _ _ _ _ _ dataset_name E1). unfold palette.base_of.
    destruct (plot.dict_get dataset_name plot.predefined) as [[base label]|];
      [reflexivity|].
    destruct (in_dec string_dec dataset_name (palette.keys earlier)); reflexivity. }
  rewrite Hbase in Ha.
  pose proof (file_colors_ok_keys _ _ _ Ha) as Hk.
  exists a. split; [exact Ha|]. intros f Hlast Hf.
  rewrite (loop_skip _ _ _ _ _ f H Hlast).
  rewrite assignments_get by (rewrite Hk; exact Hkeys).
  destruct (dict_get_present f a) as (c & Hc & _); [rewrite Hk; exact Hf|].
  rewrite Hc. reflexivity.
Qed.

(** X24: in the dictionary [colors] that [create_color_map] returns, the
    files of a dataset of two or more sessions with valid time stamps hold
    the base colour of the dataset scaled by an intensity that depends on the
    time stamp alone; this for every file whose name no later dataset has.
    The intensity lies between 0.4 and 1; a session recorded later than
    another is strictly lighter; when the time stamps differ, the oldest
    sessions have intensity 0.4 and the newest the base colour itself; when
    all time stamps are the same, every intensity is 0.7. *)
Theorem newer_sessions_lighter (all_data : plot.dict (plot.dict datetime))
    (colors : plot.dict plot.color)
    (dataset_colors : plot.dict (plot.color * string))
    (H : plot.create_color_map all_data = Ok (colors, dataset_colors))
    (earlier later : plot.dict (plot.dict datetime))
    (dataset_name : string) (dataset_data : plot.dict datetime)
    (Hsplit : all_data = earlier ++ (dataset_name, dataset_data) :: later)
    (Hkeys : NoDup (palette.keys dataset_data))
    (Hvalid : forall f t, In (f, t) dataset_data -> naming.valid_datetime t)
    (Hmany : (2 <= length dataset_data)%nat) :
  exists intensity : datetime -> Q,
    (forall f t,
       In (f, t) dataset_data ->
       (forall n ds, In (n, ds) later -> ~ In f (palette.keys ds)) ->
       plot.dict_get f colors
       = Some (palette.scaled (palette.base_of dataset_name) (intensity t)))
    /\ (forall f t, In (f, t) dataset_data -> 4 # 10 <= intensity t <= 1)
    /\ (forall f t f' t',
          In (f, t) dataset_data -> In (f', t') dataset_data ->
          palette.older t t' -> intensity t < intensity t')
    /\ (forall f t,
          In (f, t) dataset_data ->
          (forall f' t', In (f', t') dataset_data -> ~ palette.older t' t) ->
          (exists f' t', In (f', t') dataset_data /\ palette.older t t') ->
          intensity t == 4 # 10)
    /\ (forall f t,
          In (f, t) dataset_data ->
          (forall f' t', In (f', t') dataset_data -> ~ palette.older t t') ->
          (exists f' t', In (f', t') dataset_data /\ palette.older t' t) ->
          intensity t == 1)
    /\ ((forall f t f' t',
           In (f, t) dataset_data -> In (f', t') dataset_data ->
           ~ palette.older t t') ->
        forall f t, In (f, t) dataset_data -> intensity t == 7 # 10).
Proof.
  destruct (dataset_colours_kept _ _ _ _ _ _ _ H Hsplit Hkeys)
    as (a & Ha & Hkept).
  destruct (palette.base_of dataset_name) as [[r g] b] eqn:Ebase.
  destruct (gradient_intensities r g b dataset_data Hvalid Hmany)
    as (intensity & Hfc & Hrest).
  exists intensity. split; [|exact Hrest].
  intros f t Hin Hlast.
  rewrite Hfc in Ha. injection Ha as <-.
  rewrite (Hkept f Hlast)
    by (apply in_map_iff; exists (f, t); split; [reflexivity|exact Hin]).
  apply (dict_get_map (fun t => palette.scaled (r, g, b) (intensity t)));
    assumption.
Qed.

Lemma newer_sessions_lighter_witness :
  exists colors dataset_colors,
    plot.create_color_map example_all_data = Ok (colors, dataset_colors)
    /\ exists intensity : datetime -> Q,
         (forall f t,
            In (f, t) example_times ->
            (forall n ds,
               In (n, ds)
                  [("gravel"%string,
                    [("2AFC_P_20251020_003915.csv"%string, example_datetime)])] ->
               ~ In f (palette.keys ds)) ->
            plot.dict_get f colors
            = Some (palette.scaled (palette.base_of "bricks004") (intensity t)))
         /\ (forall f t, In (f, t) example_times -> 4 # 10 <= intensity t <= 1)
         /\ (forall f t f' t',
               In (f, t) example_times -> In (f', t') example_times ->
               palette.older t t' -> intensity t < intensity t')
         /\ (forall f t,
               In (f, t) example_times ->
               (forall f' t', In (f', t') example_times -> ~ palette.older t' t) ->
               (exists f' t', In (f', t') example_times /\ palette.older t t') ->
               intensity t == 4 # 10)
         /\ (forall f t,
               In (f, t) example_times ->
               (forall f' t', In (f', t') example_times -> ~ palette.older t t') ->
               (exists f' t', In (f', t') example_times /\ palette.older t' t) ->
               intensity t == 1)
         /\ ((forall f t f' t',
                In (f, t) example_times -> In (f', t') example_times ->
                ~ palette.older t t') ->
             forall f t, In (f, t) example_times -> intensity t == 7 # 10).
Proof.
  destruct (plot.create_color_map example_all_data) as [[colors dcs]|e] eqn:E;
    [|vm_compute in E; discriminate E].
  exists colors, dcs. split; [reflexivity|].
  apply (newer_sessions_lighter example_all_data colors dcs E []
           [("gravel"%string,
             [("2AFC_P_20251020_003915.csv"%string, example_datetime)])]
           "bricks004"%string example_times).
  - reflexivity.
  - repeat constructor; simpl; intuition discriminate.
  - intros f t [C|[C|[C|[]]]]; injection C as <- <-; reflexivity.
  - simpl. lia.
Defined.

